(** * CVAS funnel reports: the category and the services report generators

    A shallow embedding of [generate_category_report.py] and
    [generate_services_report.py].  Both scripts read one worksheet into a
    pandas DataFrame, turn it round (metrics become rows, categories or
    services become columns) and write the result.

    Modelling choices, all of them local to this file:
    - a worksheet cell is a number or a text; a number is a float64 value
      (IEEE 754 binary64, the kernel's primitive floats), which is what a
      worksheet stores and what the columns of both reports hold; a blank
      cell is the float64 NaN, as in pandas; whole numbers that pandas keeps
      in an int64 column are taken by their float64 value;
    - the header cells of a sheet are texts, distinct within one frame:
      [pd.read_excel] renames repeated headers, and a sheet with a header
      cell that is a number or a date is not a frame of this model;
    - the texts that [pd.read_excel] reads as blank ("n/a", "NA", "null",
      the empty text and the like) are blank cells of the frame;
    - a text found under a metric is copied as it is, which is what
      pandas 2 does when a text is assigned into a column;
    - a Python exception is a value of [exc]; console output is a list of
      [message]s carried next to the result;
    - [pathlib.Path] is the POSIX flavour. *)

From Stdlib Require Import String Ascii List ZArith Bool Arith Lia.
From Stdlib Require Import Floats.
From Stdlib Require Import Sorting.Permutation Sorting.Sorted.
Import ListNotations.

Local Open Scope string_scope.
Local Open Scope list_scope.

(* ================================================================== *)
(** * Python-level plumbing: exceptions and console output *)

Inductive exc : Type :=
| KeyError (key : string)
| IndexError
| TypeError
| ValueError (what : string)
| FileNotFoundError (path : string)
| OSError.

Inductive result (A : Type) : Type :=
| Ok (a : A)
| Raise (e : exc).
Arguments Ok {A} a.
Arguments Raise {A} e.

(** The lines the two scripts print while they transform.  Banners and
    previews of [main] are left out. *)
Inductive message : Type :=
| Transforming
| CategoryNotFound (category : string)      (* "Warning: Category ... not found in data" *)
| CategoryProcessed (category : string)     (* "Processed category: ..." *)
| AddingEduImg                              (* "Adding 'Edu+Img' calculated column..." *)
| EduImgSkipped                             (* "Warning: Could not create 'Edu+Img' column" *)
| TransformationComplete (n_rows n_cols : nat)
| ReadFailed
| SaveFailed
| Saved (path : string)
| ErrorOccurred (e : exc).

(** A computation prints and then either returns or raises. *)
Definition M (A : Type) : Type := (list message * result A)%type.

Definition ret {A} (a : A) : M A := ([], Ok a).
Definition raise {A} (e : exc) : M A := ([], Raise e).
Definition print (m : message) : M unit := ([m], Ok tt).
Definition lift {A} (r : result A) : M A := ([], r).

Definition bind {A B} (m : M A) (f : A -> M B) : M B :=
  match m with
  | (out, Ok a) => let (out', r) := f a in (out ++ out', r)
  | (out, Raise e) => (out, Raise e)
  end.

Notation "x <- m ;; k" := (bind m (fun x => k))
  (at level 61, m at next level, right associativity).
Notation "m ;;; k" := (bind m (fun _ => k))
  (at level 61, right associativity).

(** [for x in xs: s = body x s], stopping at the first exception. *)
Fixpoint for_each {X S : Type} (xs : list X) (body : X -> S -> M S) (s : S) : M S :=
  match xs with
  | [] => ret s
  | x :: xs' => s' <- body x s ;; for_each xs' body s'
  end.

(* ================================================================== *)
(** * Cells and input frames *)

Inductive cell : Type :=
| Num (f : float)
| Str (s : string).
Arguments Num f%_float.

(** A blank cell. *)
Definition NaN : cell := Num nan.

(** Python [==] on two scalars as pandas applies it element-wise: float64
    equality on numbers (NaN is equal to nothing, 0.0 equals -0.0), a text
    is never equal to a number. *)
Definition cell_eqb (a b : cell) : bool :=
  match a, b with
  | Num x, Num y => (x =? y)%float
  | Str s, Str t => String.eqb s t
  | _, _ => false
  end.

(** [pd.isna] on one cell. *)
Definition isna (c : cell) : bool :=
  match c with
  | Num f => is_nan f
  | Str _ => false
  end.

(** [Series.fillna(0)] on one cell. *)
Definition fillna0 (c : cell) : cell :=
  if isna c then Num 0 else c.

(** [+] on two cells of two columns: float64 addition on numbers (a blank
    on either side gives a blank, and so do two infinities of opposite
    sign); in a column that holds texts pandas adds cell by cell where
    neither side is blank and leaves a blank elsewhere: texts concatenate,
    and a text with a number raises [TypeError]. *)
Definition cell_add (a b : cell) : result cell :=
  match a, b with
  | Num x, Num y => Ok (Num (x + y))
  | Str s, Str t => Ok (Str (s ++ t))
  | Num x, Str _ | Str _, Num x => if is_nan x then Ok NaN else Raise TypeError
  end.

(** The frame read from the worksheet: a header and the data rows. *)
Record DataFrame : Type := mkDataFrame {
  columns : list string;
  rows : list (list cell)
}.

Definition mem (s : string) (l : list string) : bool :=
  existsb (String.eqb s) l.

Fixpoint get_loc (s : string) (l : list string) : nat :=
  match l with
  | [] => 0
  | x :: l' => if String.eqb s x then 0 else S (get_loc s l')
  end.

(** [row[name]] for a row of a frame with header [cols]; a cell the sheet
    does not have reads as blank. *)
Definition series_get (cols : list string) (row : list cell) (name : string) : cell :=
  nth (get_loc name cols) row NaN.

(** [df[df[col] == value]]: the rows whose [col] cell equals [value];
    [KeyError] when the frame has no column [col]. *)
Definition select_eq (df : DataFrame) (col : string) (value : cell) : result (list (list cell)) :=
  if mem col (columns df)
  then Ok (filter (fun row => cell_eqb (series_get (columns df) row col) value) (rows df))
  else Raise (KeyError col).

(* ================================================================== *)
(** * The category report *)

Module Category.

(** The frame under construction: row labels and the columns in the order
    they were created, each column aligned with the row labels. *)
Record OutFrame : Type := mkOutFrame {
  index : list string;
  data : list (string * list cell)
}.

Definition names (o : OutFrame) : list string := map fst (data o).

Fixpoint lookup (c : string) (d : list (string * list cell)) : option (list cell) :=
  match d with
  | [] => None
  | (k, v) :: d' => if String.eqb c k then Some v else lookup c d'
  end.

Definition column (c : string) (o : OutFrame) : option (list cell) :=
  lookup c (data o).

Fixpoint update (c : string) (f : list cell -> list cell)
  (d : list (string * list cell)) : list (string * list cell) :=
  match d with
  | [] => []
  | (k, v) :: d' => if String.eqb c k then (k, f v) :: d' else (k, v) :: update c f d'
  end.

(** [pd.DataFrame(index=metrics)]: the labels and no column yet. *)
Definition empty_frame (metrics : list string) : OutFrame :=
  mkOutFrame metrics [].

(** [output_df[c] = v] with a scalar [v]: the whole column becomes [v];
    a new column goes to the right end. *)
Definition set_column (c : string) (v : cell) (o : OutFrame) : OutFrame :=
  let filled := repeat v (length (index o)) in
  if mem c (names o)
  then mkOutFrame (index o) (update c (fun _ => filled) (data o))
  else mkOutFrame (index o) (data o ++ [(c, filled)]).

(** One column with the cells at the rows labelled [m] replaced by [v]. *)
Fixpoint set_at (m : string) (v : cell) (labels : list string) (col : list cell) : list cell :=
  match labels, col with
  | l :: labels', x :: col' =>
      (if String.eqb m l then v else x) :: set_at m v labels' col'
  | _, _ => col
  end.

(** [output_df.loc[m, c] = v] for a row label [m] of the frame: a column
    that does not exist yet is created blank at the right end first. *)
Definition loc_set (m c : string) (v : cell) (o : OutFrame) : OutFrame :=
  let d := if mem c (names o)
           then data o
           else data o ++ [(c, repeat NaN (length (index o)))] in
  mkOutFrame (index o) (update c (set_at m v (index o)) d).

(** [output_df.fillna(0)]. *)
Definition fillna (o : OutFrame) : OutFrame :=
  mkOutFrame (index o) (map (fun kv => (fst kv, map fillna0 (snd kv))) (data o)).

(** [a + b] on two columns of one frame. *)
Fixpoint series_add (a b : list cell) : result (list cell) :=
  match a, b with
  | x :: a', y :: b' =>
      match cell_add x y with
      | Ok z => match series_add a' b' with
                | Ok zs => Ok (z :: zs)
                | Raise e => Raise e
                end
      | Raise e => Raise e
      end
  | _, _ => Ok []
  end.

(** [output_df.insert(loc, c, values)]: [ValueError] when the frame
    already has a column [c]. *)
Definition insert (loc : nat) (c : string) (values : list cell) (o : OutFrame) : result OutFrame :=
  if mem c (names o)
  then Raise (ValueError ("cannot insert " ++ c ++ ", already exists"))
  else Ok (mkOutFrame (index o) (firstn loc (data o) ++ (c, values) :: skipn loc (data o))).

Definition category_col : string := "Master_CPC[TME Category]".

(** The body of [for metric in metrics] for the matched row. *)
Definition map_metric (df : DataFrame) (category_data : list cell) (category : string)
  (metric : string) (output_df : OutFrame) : OutFrame :=
  if mem metric (columns df)
  then loc_set metric category (series_get (columns df) category_data metric) output_df
  else loc_set metric category (Num 0) output_df.

(** The body of [for category in categories]. *)
Definition process_category (metrics : list string) (df : DataFrame)
  (category : string) (output_df : OutFrame) : M OutFrame :=
  category_row <- lift (select_eq df category_col (Str category)) ;;
  match category_row with
  | [] =>
      print (CategoryNotFound category) ;;;
      ret (set_column category (Num 0) output_df)
  | category_data :: _ =>
      let output_df' :=
        fold_left (fun o metric => map_metric df category_data category metric o)
                  metrics output_df in
      print (CategoryProcessed category) ;;;
      ret output_df'
  end.

(** Lines 91-121: the loop over the categories and the [fillna(0)]. *)
Definition populate (metrics categories : list string) (df : DataFrame) : M OutFrame :=
  output_df <- for_each categories (process_category metrics df) (empty_frame metrics) ;;
  ret (fillna output_df).

(** Lines 123-132: the "Edu+Img" column. *)
Definition add_edu_img (output_df : OutFrame) : M OutFrame :=
  print AddingEduImg ;;;
  if mem "Education" (names output_df) && mem "Images" (names output_df)
  then
    match column "Education" output_df, column "Images" output_df with
    | Some education, Some images =>
        edu_img_values <- lift (series_add education images) ;;
        let images_idx := get_loc "Images" (names output_df) in
        lift (insert (images_idx + 1) "Edu+Img" edu_img_values output_df)
    | _, _ => raise (KeyError "Education")
    end
  else
    print EduImgSkipped ;;;
    ret output_df.

(** [transform_to_column_format] with the two lists as arguments. *)
Definition transform (metrics categories : list string) (df : DataFrame) : M OutFrame :=
  print Transforming ;;;
  output_df <- populate metrics categories df ;;
  output_df <- add_edu_img output_df ;;
  print (TransformationComplete (length (index output_df)) (length (names output_df))) ;;;
  ret output_df.

Definition metrics : list string :=
  [ "[TopLine_Revenue]"; "[Base_usuarios]"; "[v_Activaciones_Revenue]";
    "[v__Activaciones]"; "[v_Renovaciones_Revenue]"; "[v_Renovaciones]";
    "[v_Rfnds]"; "[Rfnds_U_U]"; "[Total_Refnds]"; "[v__Churn_from_act2]";
    "[v__Chur_prev_base]"; "[v__Churn]"; "[v_Auto_Ref]"; "[Auto_Ref_UU]";
    "[Automatic_Refund_Amount]"; "[v_Reg_Ref]"; "[Reg_Ref_UU]";
    "[Reg_Refund_Amount]" ].

Definition categories : list string :=
  [ "Beauty and Health"; "Free Time"; "Games"; "Education"; "Images";
    "Kids"; "Light"; "Music"; "News"; "Sports" ].

Definition transform_to_column_format (df : DataFrame) : M OutFrame :=
  transform metrics categories df.

End Category.

(* ================================================================== *)
(** * The services report *)

Module Services.

Definition service_col : string := "Master_CPC[Service Name]".

(** A frame built from a Python dict of lists: the keys, in insertion
    order, are the column labels.  A label is whatever the key was, a
    text for the first column and the content of a cell for the others. *)
Definition TFrame : Type := list (cell * list cell).

Definition labels (df : TFrame) : list cell := map fst df.

Fixpoint dict_get (k : cell) (d : TFrame) : option (list cell) :=
  match d with
  | [] => None
  | (k', v) :: d' => if cell_eqb k k' then Some v else dict_get k d'
  end.

(** [d[k] = v]: an existing key keeps its place. *)
Fixpoint dict_set (k : cell) (v : list cell) (d : TFrame) : TFrame :=
  match d with
  | [] => [(k, v)]
  | (k', v') :: d' =>
      if cell_eqb k k' then (k', v) :: d' else (k', v') :: dict_set k v d'
  end.

Definition startswith_bracket (s : string) : bool :=
  match s with
  | String c _ => Ascii.eqb c "["
  | EmptyString => false
  end.

Fixpoint endswith_bracket (s : string) : bool :=
  match s with
  | EmptyString => false
  | String c EmptyString => Ascii.eqb c "]"
  | String _ t => endswith_bracket t
  end.

Definition get_metric_columns (df : DataFrame) : list string :=
  filter (fun col => startswith_bracket col && endswith_bracket col) (columns df).

(** [read_input_data] after the sheet has been read: the check of the
    required column. *)
Definition check_required_column (df : DataFrame) : M DataFrame :=
  if negb (mem service_col (columns df))
  then raise (ValueError "Missing required column: Master_CPC[Service Name]")
  else ret df.

(** [df[col].tolist()]. *)
Definition tolist (df : DataFrame) (col : string) : result (list cell) :=
  if mem col (columns df)
  then Ok (map (fun row => series_get (columns df) row col) (rows df))
  else Raise (KeyError col).

(** [[service_row[metric] for metric in metric_cols]]: [KeyError] at the
    first metric that is no column of the sheet. *)
Fixpoint getitems (cols : list string) (row : list cell) (metric_cols : list string)
  : result (list cell) :=
  match metric_cols with
  | [] => Ok []
  | metric :: metric_cols' =>
      if mem metric cols
      then match getitems cols row metric_cols' with
           | Ok values => Ok (series_get cols row metric :: values)
           | Raise e => Raise e
           end
      else Raise (KeyError metric)
  end.

(** The body of [for service in services]; [.iloc[0]] on an empty
    selection raises [IndexError]. *)
Definition add_service (df : DataFrame) (metric_cols : list string)
  (service : cell) (transformed_data : TFrame) : M TFrame :=
  selection <- lift (select_eq df service_col service) ;;
  match selection with
  | [] => raise IndexError
  | service_row :: _ =>
      service_values <- lift (getitems (columns df) service_row metric_cols) ;;
      ret (dict_set service service_values transformed_data)
  end.

(** The dict of lists that line 104 hands to [pd.DataFrame], which gives
    each column one dtype and leaves the float64 values what they are. *)
Definition transform_data (df : DataFrame) (metric_cols : list string) : M TFrame :=
  services <- lift (tolist df service_col) ;;
  for_each services (add_service df metric_cols)
           [(Str service_col, map Str metric_cols)].

Definition metric_order : list string :=
  [ "[TopLine_Revenue]"; "[Base_usuarios]"; "[v_Activaciones_Revenue]";
    "[v__Activaciones]"; "[v_Renovaciones_Revenue]"; "[v_Renovaciones]";
    "[v_Rfnds]"; "[Rfnds_U_U]"; "[Total_Refnds]"; "[v__Churn_from_act2]";
    "[v__Chur_prev_base]"; "[v__Churn]"; "[v_Auto_Ref]"; "[Auto_Ref_UU]";
    "[Automatic_Refund_Amount]"; "[v_Reg_Ref]"; "[Reg_Ref_UU]";
    "[Reg_Refund_Amount]" ].

Definition service_order : list string :=
  [ "IntimaX"; "Rincon Prohibido"; "The Tourist"; "El Mundo Al Revés";
    "Noticias Emocion"; "Deportes emocion"; "Cuidate Mejor";
    "Sexducate con LB"; "Yo Mujer y +"; "Slow Life"; "Movistar Juegos";
    "Kids Play"; "Smile & Learn" ].

Definition get_hardcoded_structure : list string * list string :=
  (metric_order, service_order).

(** A position of [metric_order] as the number pandas stores. *)
Definition float_of_nat (n : nat) : float :=
  of_uint63 (Uint63.of_Z (Z.of_nat n)).

(** [Series.isin(metric_order)] on one cell. *)
Definition isin (c : cell) (l : list string) : bool :=
  match c with
  | Str s => mem s l
  | _ => false
  end.

(** [{metric: i for i, metric in enumerate(metric_order)}] looked up at
    [s]: the last position of [s]. *)
Fixpoint metric_order_map (s : string) (l : list string) : option nat :=
  match l with
  | [] => None
  | x :: l' =>
      match metric_order_map s l' with
      | Some i => Some (S i)
      | None => if String.eqb s x then Some 0 else None
      end
  end.

(** [Series.map(metric_order_map)] on one cell; [None] is the NaN that
    pandas gives for a key the dict does not have. *)
Definition sort_key (l : list string) (c : cell) : option nat :=
  match c with
  | Str s => metric_order_map s l
  | _ => None
  end.

(** The order [sort_values] uses: numbers ascending, NaN last. *)
Definition key_leb (a b : option nat) : bool :=
  match a, b with
  | Some x, Some y => Nat.leb x y
  | Some _, None => true
  | None, Some _ => false
  | None, None => true
  end.

(** Row positions with their keys, sorted by key.  The insertion keeps
    equal keys in their order; pandas' default quicksort promises nothing
    for them, so the model and the script agree where the keys differ. *)
Fixpoint insert_sorted {A : Type} (x : A * option nat) (l : list (A * option nat))
  : list (A * option nat) :=
  match l with
  | [] => [x]
  | y :: l' =>
      if key_leb (snd y) (snd x) then y :: insert_sorted x l' else x :: y :: l'
  end.

Definition argsort (keys : list (option nat)) : list nat :=
  map fst (fold_left (fun acc x => insert_sorted x acc)
                     (combine (seq 0 (length keys)) keys) []).

(** The row positions where the mask holds. *)
Fixpoint where_true (mask : list bool) (i : nat) : list nat :=
  match mask with
  | [] => []
  | b :: mask' => if b then i :: where_true mask' (S i) else where_true mask' (S i)
  end.

(** The rows at the given positions, in that order. *)
Definition take (positions : list nat) (df : TFrame) : TFrame :=
  map (fun kv => (fst kv, map (fun i => nth i (snd kv) NaN) positions)) df.

Definition drop (label : cell) (df : TFrame) : TFrame :=
  filter (fun kv => negb (cell_eqb label (fst kv))) df.

(** [df[column_order]]: [KeyError] when a label is not a column. *)
Fixpoint select (column_order : list string) (df : TFrame) : result TFrame :=
  match column_order with
  | [] => Ok []
  | c :: column_order' =>
      match dict_get (Str c) df with
      | None => Raise (KeyError c)
      | Some v =>
          match select column_order' df with
          | Ok r => Ok ((Str c, v) :: r)
          | Raise e => Raise e
          end
      end
  end.

Definition getitem (df : TFrame) (c : string) : result (list cell) :=
  match dict_get (Str c) df with
  | Some v => Ok v
  | None => Raise (KeyError c)
  end.

Definition apply_output_structure (df : TFrame)
  (metric_order service_order : list string) : M TFrame :=
  names <- lift (getitem df service_col) ;;
  let df_filtered := take (where_true (map (fun c => isin c metric_order) names) 0) df in
  names <- lift (getitem df_filtered service_col) ;;
  let sort_order := map (sort_key metric_order) names in
  let df_filtered :=
    dict_set (Str "_sort_order")
      (map (fun k => match k with Some i => Num (float_of_nat i) | None => NaN end)
           sort_order)
      df_filtered in
  let df_filtered := drop (Str "_sort_order") (take (argsort sort_order) df_filtered) in
  let column_order := service_col :: service_order in
  lift (select column_order df_filtered).

(** The row labels of a finished table. *)
Definition row_labels (df : TFrame) : list cell :=
  match dict_get (Str service_col) df with
  | Some v => v
  | None => []
  end.

(** Steps 1 to 5 of [main], from the sheet as read. *)
Definition pipeline (df_input : DataFrame) : M TFrame :=
  df_input <- check_required_column df_input ;;
  let metric_cols := get_metric_columns df_input in
  df_transformed <- transform_data df_input metric_cols ;;
  let '(metric_order, service_order) := get_hardcoded_structure in
  apply_output_structure df_transformed metric_order service_order.

End Services.

(* ================================================================== *)
(** * Paths: the part of [pathlib] that [main] uses *)

Module PathLib.

Record PurePath : Type := mkPath {
  root : string;
  parts : list string     (* the components after the root *)
}.

(** [s.split('/')]. *)
Fixpoint split_slash (s : string) : list string :=
  match s with
  | EmptyString => [EmptyString]
  | String c t =>
      if Ascii.eqb c "/" then EmptyString :: split_slash t
      else match split_slash t with
           | h :: r => String c h :: r
           | [] => [String c EmptyString]
           end
  end.

Fixpoint startswith (pre s : string) : bool :=
  match pre, s with
  | EmptyString, _ => true
  | String a pre', String b s' => Ascii.eqb a b && startswith pre' s'
  | String _ _, EmptyString => false
  end.

Definition is_component (x : string) : bool :=
  negb (String.eqb x "") && negb (String.eqb x ".").

(** [Path(s)]: empty components and "." are dropped; exactly two leading
    slashes are kept as a root of their own. *)
Definition parse (s : string) : PurePath :=
  let r := if startswith "//" s && negb (startswith "///" s) then "//"
           else if startswith "/" s then "/" else "" in
  mkPath r (filter is_component (split_slash s)).

(** [str(p)]. *)
Definition to_str (p : PurePath) : string :=
  match parts p with
  | [] => if String.eqb (root p) "" then "." else root p
  | _ => root p ++ String.concat "/" (parts p)
  end.

Definition name (p : PurePath) : string := last (parts p) "".

Definition parent (p : PurePath) : PurePath :=
  mkPath (root p) (removelast (parts p)).

(** [p / segment]. *)
Definition joinpath (p : PurePath) (segment : string) : PurePath :=
  let q := parse segment in
  if String.eqb (root q) "" then mkPath (root p) (parts p ++ parts q) else q.

(** The position of the last "." of a name. *)
Fixpoint rfind_dot (s : string) : option nat :=
  match s with
  | EmptyString => None
  | String c t =>
      match rfind_dot t with
      | Some i => Some (S i)
      | None => if Ascii.eqb c "." then Some 0 else None
      end
  end.

(** A name has a suffix when its last "." is neither its first nor its
    last character. *)
Definition suffix_start (nm : string) : option nat :=
  match rfind_dot nm with
  | Some i => if Nat.ltb 0 i && Nat.ltb i (String.length nm - 1) then Some i else None
  | None => None
  end.

Definition suffix (p : PurePath) : string :=
  match suffix_start (name p) with
  | Some i => substring i (String.length (name p) - i) (name p)
  | None => ""
  end.

Definition stem (p : PurePath) : string :=
  match suffix_start (name p) with
  | Some i => substring 0 i (name p)
  | None => name p
  end.

(** [input_path.parent / f"{input_path.stem}_output.xlsx"]. *)
Definition default_output_path (input_file : string) : PurePath :=
  let input_path := parse input_file in
  joinpath (parent input_path) (stem input_path ++ "_output.xlsx").

(** [str(input_path.parent / f"{input_path.stem}_output.xlsx")]. *)
Definition default_output_file (input_file : string) : string :=
  to_str (default_output_path input_file).

(** Whether a text has a "/" in it. *)
Fixpoint has_slash (s : string) : bool :=
  match s with
  | EmptyString => false
  | String c t => Ascii.eqb c "/" || has_slash t
  end.

End PathLib.

(* ================================================================== *)
(** * The two [main] functions *)

(** What lies outside the scripts: the worksheet a path holds, and
    whether a path can be written.  [to_excel] stands for what
    [save_output] asks of the file system: the directory being there or
    made (line 215 of the services script) and the workbook written. *)
Record World : Type := mkWorld {
  path_exists : string -> bool;
  read_excel : string -> result DataFrame;
  to_excel : string -> result unit
}.

Record Run (T : Type) : Type := mkRun {
  exit_code : Z;
  stdout : list message;
  written : list (string * T)
}.
Arguments mkRun {T} _ _ _.
Arguments exit_code {T} _.
Arguments stdout {T} _.
Arguments written {T} _.

(** The output file of a command line: the second argument, or the
    default next to the input. *)
Definition output_file_of (input_file : string) (rest : list string) : string :=
  match rest with
  | o :: _ => o
  | [] => PathLib.default_output_file input_file
  end.

Module CategoryMain.

(** An exception of [pd.read_excel] or [to_excel] ends the run with
    [sys.exit(1)]; one raised by the transform is not caught, and Python
    ends with status 1 as well. *)
Definition main (w : World) (argv : list string) : Run Category.OutFrame :=
  match argv with
  | [] | [_] => mkRun 1 [] []
  | _ :: input_file :: rest =>
      let output_file := output_file_of input_file rest in
      match read_excel w input_file with
      | Raise _ => mkRun 1 [ReadFailed] []
      | Ok df =>
          match Category.transform_to_column_format df with
          | (out, Raise _) => mkRun 1 out []
          | (out, Ok output_df) =>
              match to_excel w output_file with
              | Raise _ => mkRun 1 (out ++ [SaveFailed]) []
              | Ok _ => mkRun 0 (out ++ [Saved output_file]) [(output_file, output_df)]
              end
          end
      end
  end.

End CategoryMain.

Module ServicesMain.

Definition read_input_data (w : World) (input_file : string) : M DataFrame :=
  if negb (path_exists w input_file)
  then raise (FileNotFoundError input_file)
  else df <- lift (read_excel w input_file) ;; Services.check_required_column df.

Definition save_output (w : World) (output_file : string) (df : Services.TFrame) : M unit :=
  lift (to_excel w output_file) ;;; print (Saved output_file).

(** The body of the [try]; every exception ends in [sys.exit(1)].
    [preview_results], which runs after the save, only prints the table it
    is given. *)
Definition main (w : World) (argv : list string) : Run Services.TFrame :=
  match argv with
  | [] | [_] => mkRun 1 [] []
  | _ :: input_file :: rest =>
      let output_file := output_file_of input_file rest in
      let steps :=
        df_input <- read_input_data w input_file ;;
        let metric_cols := Services.get_metric_columns df_input in
        df_transformed <- Services.transform_data df_input metric_cols ;;
        let '(metric_order, service_order) := Services.get_hardcoded_structure in
        df_final <- Services.apply_output_structure df_transformed metric_order service_order ;;
        save_output w output_file df_final ;;;
        ret df_final in
      match steps with
      | (out, Ok df_final) => mkRun 0 out [(output_file, df_final)]
      | (out, Raise e) => mkRun 1 (out ++ [ErrorOccurred e]) []
      end
  end.

End ServicesMain.

(* ================================================================== *)
(** * Vocabulary of the statements *)

Module Spec.

(** The first record whose key cell is the category. *)
Definition first_match (df : DataFrame) (category : string) : option (list cell) :=
  find (fun row => cell_eqb (series_get (columns df) row Category.category_col)
                            (Str category))
       (rows df).

(** The value a matched record contributes for a metric: the record's
    cell, or 0 when the frame has no such column. *)
Definition source_value (df : DataFrame) (row : list cell) (metric : string) : cell :=
  if mem metric (columns df) then series_get (columns df) row metric else Num 0.

(** The column of a category as section 4.1 of the specification words
    it: zeros when no record matches, else the first record's values with
    blanks turned into 0. *)
Definition spec_column (metrics : list string) (df : DataFrame) (category : string)
  : list cell :=
  match first_match df category with
  | None => repeat (Num 0) (length metrics)
  | Some row => map (fun m => fillna0 (source_value df row m)) metrics
  end.

Definition spec_event (df : DataFrame) (category : string) : message :=
  match first_match df category with
  | None => CategoryNotFound category
  | Some _ => CategoryProcessed category
  end.

(** The table before the derived column, as the specification words it. *)
Definition spec_table (metrics categories : list string) (df : DataFrame)
  : Category.OutFrame :=
  Category.mkOutFrame metrics
    (map (fun c => (c, spec_column metrics df c)) categories).

(** The cell of a finished category table at a metric and a column. *)
Definition cell_at (o : Category.OutFrame) (metric c : string) : option cell :=
  match Category.column c o with
  | Some col => nth_error col (get_loc metric (Category.index o))
  | None => None
  end.

(** Whether [+] fails on two cells: a text with a number that is no
    blank. *)
Definition clash (a b : cell) : bool :=
  match cell_add a b with
  | Ok _ => false
  | Raise _ => true
  end.

(** Whether the sum of the "Education" and the "Images" column fails:
    in some metric row one of the two has a text and the other a number. *)
Definition sources_clash (df : DataFrame) : bool :=
  existsb (fun p => clash (fst p) (snd p))
          (combine (spec_column Category.metrics df "Education")
                   (spec_column Category.metrics df "Images")).

(** The sum of two cells where [+] is defined. *)
Definition sum_cell (a b : cell) : cell :=
  match cell_add a b with
  | Ok c => c
  | Raise _ => NaN
  end.

(** The sum of two columns, row by row. *)
Definition sum_column (a b : list cell) : list cell :=
  map (fun p => sum_cell (fst p) (snd p)) (combine a b).

(** A frame with one more column right after position [k]. *)
Definition with_column_after (k : nat) (c : string) (values : list cell)
  (o : Category.OutFrame) : Category.OutFrame :=
  Category.mkOutFrame (Category.index o)
    (firstn (k + 1) (Category.data o) ++ (c, values) :: skipn (k + 1) (Category.data o)).

(** The finished category table of a sheet whose sources do not clash. *)
Definition spec_final (df : DataFrame) : Category.OutFrame :=
  with_column_after 4 "Edu+Img"
    (sum_column (spec_column Category.metrics df "Education")
                (spec_column Category.metrics df "Images"))
    (spec_table Category.metrics Category.categories df).

(** What one round of the category loop does to the frame when nothing
    raises. *)
Definition round (metrics : list string) (df : DataFrame) (category : string)
  (o : Category.OutFrame) : Category.OutFrame :=
  match first_match df category with
  | None => Category.set_column category (Num 0) o
  | Some row =>
      fold_left (fun o m => Category.map_metric df row category m o) metrics o
  end.

(** The column a round leaves for its category, before [fillna]. *)
Definition raw_column (metrics : list string) (df : DataFrame) (category : string)
  : list cell :=
  match first_match df category with
  | None => repeat (Num 0) (length metrics)
  | Some row => map (source_value df row) metrics
  end.

(** Position by position, what a column holds after the values of the
    metrics [ms] have been written into it. *)
Fixpoint overlay (val : string -> cell) (ms labels : list string) (col : list cell)
  : list cell :=
  match labels, col with
  | l :: labels', x :: col' =>
      (if mem l ms then val l else x) :: overlay val ms labels' col'
  | _, _ => col
  end.

(** The first of the names that is no column of the frame. *)
Definition first_missing (cols names : list string) : option string :=
  find (fun n => negb (mem n cols)) names.

(** The first record whose key cell is the service. *)
Definition first_service_row (df : DataFrame) (service : cell) : option (list cell) :=
  find (fun row => cell_eqb (series_get (columns df) row Services.service_col) service)
       (rows df).

(** The values of a record under the metric columns, as they are. *)
Definition service_values (df : DataFrame) (metric_cols : list string) (service : cell)
  : list cell :=
  match first_service_row df service with
  | Some row => map (series_get (columns df) row) metric_cols
  | None => []
  end.

Definition key_of (df : DataFrame) (row : list cell) : cell :=
  series_get (columns df) row Services.service_col.

(** What [apply_output_structure] makes of one column [v] of the frame
    whose first column is [names]: the rows it keeps, then sorted. *)
Definition arranged (metric_order : list string) (names v : list cell) : list cell :=
  let kept := Services.where_true (map (fun c => Services.isin c metric_order) names) 0 in
  let names' := map (fun i => nth i names NaN) kept in
  map (fun i => nth i (map (fun j => nth j v NaN) kept) NaN)
      (Services.argsort (map (Services.sort_key metric_order) names')).

(** The frame [apply_output_structure] selects its columns from. *)
Definition prepared (metric_order : list string) (names : list cell) (df : Services.TFrame)
  : Services.TFrame :=
  let df_filtered :=
    Services.take
      (Services.where_true (map (fun c => Services.isin c metric_order) names) 0) df in
  let names' :=
    map (fun i => nth i names NaN)
        (Services.where_true (map (fun c => Services.isin c metric_order) names) 0) in
  let sort_order := map (Services.sort_key metric_order) names' in
  Services.drop (Str "_sort_order")
    (Services.take (Services.argsort sort_order)
       (Services.dict_set (Str "_sort_order")
          (map (fun k => match k with
                         | Some i => Num (Services.float_of_nat i)
                         | None => NaN
                         end)
               sort_order)
          df_filtered)).

(** The orders on sort keys: [key_le] is what [sort_values] sorts by. *)
Definition key_le {A : Type} (x y : A * option nat) : Prop :=
  Services.key_leb (snd x) (snd y) = true.

Definition key_lt {A : Type} (x y : A * option nat) : Prop :=
  Services.key_leb (snd y) (snd x) = false.

(** A label with its sort key. *)
Definition keyed (metric_order : list string) (c : cell) : cell * option nat :=
  (c, Services.sort_key metric_order c).

(** Whether a metric is a row of the frame with first column [names]. *)
Definition present (names : list cell) (m : string) : bool :=
  existsb (cell_eqb (Str m)) names.

End Spec.

(* ================================================================== *)
(** * Example sheets *)

Module Examples.

(** The end-to-end scenario of the specification, under the key column
    the category script reads. *)
Definition e2e_metrics : list string := ["[TopLine_Revenue]"].
Definition e2e_categories : list string := ["Games"; "Education"; "Images"].
Definition e2e_sheet : DataFrame :=
  mkDataFrame [Category.category_col; "[TopLine_Revenue]"]
    [ [Str "Games"; Num 100]; [Str "Education"; Num 10]; [Str "Images"; Num 20] ].

(** A services sheet with one record per service of [service_order] and
    the same value under each of the given metric columns. *)
Definition services_sheet (metric_cols : list string) (v : cell) : DataFrame :=
  mkDataFrame (Services.service_col :: metric_cols)
    (map (fun s => Str s :: repeat v (length metric_cols)) Services.service_order).

(** Two of the eighteen tracked metrics, the second one first. *)
Definition two_metric_sheet : DataFrame :=
  services_sheet ["[Base_usuarios]"; "[TopLine_Revenue]"] (Num 1).

(** All eighteen metrics, but no record for the last service. *)
Definition sheet_without_last_service : DataFrame :=
  mkDataFrame (Services.service_col :: Services.metric_order)
    (map (fun s => Str s :: repeat (Num 1) 18) (removelast Services.service_order)).

Definition world_without_last_service : World :=
  mkWorld (fun _ => true) (fun _ => Ok sheet_without_last_service) (fun _ => Ok tt).

(** A small frame as [transform_data] builds it, and an order for it. *)
Definition small_frame : Services.TFrame :=
  [ (Str Services.service_col, [Str "[B]"; Str "[A]"; Str "[Z]"]);
    (Str "s1", [Num 1; Num 2; Num 3]);
    (Str "s2", [Num 4; NaN; Num 6]) ].
Definition small_metric_order : list string := ["[A]"; "[C]"; "[B]"].
Definition small_service_order : list string := ["s2"; "s1"].

(** The end-to-end sheet without its "Images" record. *)
Definition sheet_without_images : DataFrame :=
  mkDataFrame [Category.category_col; "[TopLine_Revenue]"]
    [ [Str "Games"; Num 100]; [Str "Education"; Num 10] ].

(** Every service, one tracked metric, and every cell under it blank. *)
Definition blank_sheet : DataFrame :=
  services_sheet ["[TopLine_Revenue]"] NaN.

(** A frame with the two source columns of the derived column. *)
Definition p5_frame : Category.OutFrame :=
  Category.mkOutFrame ["[X]"; "[Y]"; "[Z]"]
    [ ("Education", [Num 1; Num 2; Num 3]); ("Images", [Num 4; Num 5; Num 6]);
      ("Kids", [Num 0; Num 0; Num 0]) ].


(** A sheet where the "Education" record has a text under the first
    tracked metric. *)
Definition text_sheet : DataFrame :=
  mkDataFrame [Category.category_col; "[TopLine_Revenue]"]
    [ [Str "Education"; Str "pending"]; [Str "Images"; Num 20] ].

(** Numbers at the edge of float64: a sum that is rounded, a sum of
    fractions, and two infinities of opposite sign. *)
Definition big_sheet : DataFrame :=
  mkDataFrame [Category.category_col; "[TopLine_Revenue]"; "[Base_usuarios]"]
    [ [Str "Education"; Num 9007199254740992; Num 0.5];
      [Str "Images"; Num 1; Num 0.25] ].

Definition infinite_sheet : DataFrame :=
  mkDataFrame [Category.category_col; "[TopLine_Revenue]"]
    [ [Str "Education"; Num infinity]; [Str "Images"; Num neg_infinity] ].

(** Sheets without the key column of either script. *)
Definition keyless_sheet : DataFrame :=
  mkDataFrame ["Name"; "[TopLine_Revenue]"] [ [Str "Games"; Num 100] ].

Definition keyless_world : World :=
  mkWorld (fun _ => true) (fun _ => Ok keyless_sheet) (fun _ => Ok tt).

End Examples.

(* ================================================================== *)
(** * Vocabulary for the scripts as wholes *)

Module Report.

(** Steps 1 to 5 of the services [main] from the sheet as read, with the
    two lists of [get_hardcoded_structure] as arguments. *)
Definition run_steps (df_input : DataFrame) (metric_order service_order : list string)
  : M Services.TFrame :=
  df_input <- Services.check_required_column df_input ;;
  let metric_cols := Services.get_metric_columns df_input in
  df_transformed <- Services.transform_data df_input metric_cols ;;
  Services.apply_output_structure df_transformed metric_order service_order.

(** The metrics of [metric_order] that are metric columns of the sheet. *)
Definition tracked_rows (df : DataFrame) (metric_order : list string) : list string :=
  filter (fun m => mem m (Services.get_metric_columns df)) metric_order.

(** The cells of the first record of a service under the given metrics. *)
Definition service_cells (df : DataFrame) (service : string) (ms : list string)
  : list cell :=
  match Spec.first_service_row df (Str service) with
  | Some row => map (series_get (columns df) row) ms
  | None => []
  end.

(** The services report written out: the label column with the tracked
    rows, then one column per service with the cells of its first
    record. *)
Definition services_report (df : DataFrame) (metric_order service_order : list string)
  : Services.TFrame :=
  (Str Services.service_col, map Str (tracked_rows df metric_order))
  :: map (fun s => (Str s, service_cells df s (tracked_rows df metric_order)))
         service_order.

(** The column of a frame under a text label, empty when there is none. *)
Definition col_of (t : Services.TFrame) (c : string) : list cell :=
  match Services.dict_get (Str c) t with
  | Some v => v
  | None => []
  end.

(** A cell read through its label, blank when the label is no text. *)
Definition through_label (f : string -> cell) (c : cell) : cell :=
  match c with
  | Str m => f m
  | _ => NaN
  end.

(** Every column of a category frame has the height of the index. *)
Definition rectangular (o : Category.OutFrame) : Prop :=
  Forall (fun col => length (snd col) = length (Category.index o)) (Category.data o).

(** No cell of a category frame is blank. *)
Definition filled (o : Category.OutFrame) : Prop :=
  Forall (fun col => Forall (fun x => isna x = false) (snd col)) (Category.data o).

(** No cell of the columns other than [c] is blank. *)
Definition filled_except (c : string) (o : Category.OutFrame) : Prop :=
  Forall (fun col => fst col <> c -> Forall (fun x => isna x = false) (snd col))
         (Category.data o).

(** Whether a record carries the category. *)
Definition carries (cols : list string) (c : string) (row : list cell) : bool :=
  cell_eqb (series_get cols row Category.category_col) (Str c).

(** The category report of a sheet in which no record carries a category
    of the list: zeros everywhere, the derived column included. *)
Definition zero_table : Category.OutFrame :=
  Category.mkOutFrame Category.metrics
    (map (fun c => (c, repeat (Num 0) 18))
         [ "Beauty and Health"; "Free Time"; "Games"; "Education"; "Images";
           "Edu+Img"; "Kids"; "Light"; "Music"; "News"; "Sports" ]).

(** The order [sort_values] leaves the row labels in. *)
Definition label_le (metric_order : list string) (a b : cell) : Prop :=
  Services.key_leb (Services.sort_key metric_order a)
                   (Services.sort_key metric_order b) = true.

(** The records [apply_output_structure] keeps of a label column and
    one more column, sorted by the key of the label. *)
Definition kept_sorted (mo : list string) (names v : list cell)
  : list ((cell * cell) * option nat) :=
  fold_left (fun acc x => Services.insert_sorted x acc)
    (map (fun q => (q, Services.sort_key mo (fst q)))
         (filter (fun q => Services.isin (fst q) mo) (combine names v)))
    [].

(** What makes a sheet good for the services script with the lists
    [mo] and [so]. *)
Definition good_sheet (df : DataFrame) (mo so : list string) : Prop :=
  In Services.service_col (columns df)
  /\ NoDup (columns df)
  /\ NoDup mo
  /\ ~ In "_sort_order" so
  /\ (forall row, In row (rows df) -> isna (Spec.key_of df row) = false)
  /\ (forall row, In row (rows df) ->
        cell_eqb (Str Services.service_col) (Spec.key_of df row) = false)
  /\ (forall s, In s so -> exists row, In row (rows df) /\ Spec.key_of df row = Str s).

(** What the category loop keeps: the row labels, columns of full
    height, names that are pairwise different and among the allowed
    ones. *)
Definition kept_by_loop (ms allowed : list string) (o : Category.OutFrame) : Prop :=
  Category.index o = ms /\ rectangular o /\ NoDup (Category.names o)
  /\ incl (Category.names o) allowed.



(** A path as [Path(...)] makes them: one of the three roots, and
    components without "/" that are neither empty nor ".". *)
Definition proper_path (p : PathLib.PurePath) : Prop :=
  (PathLib.root p = "" \/ PathLib.root p = "/" \/ PathLib.root p = "//")
  /\ Forall (fun x => PathLib.has_slash x = false /\ PathLib.is_component x = true)
            (PathLib.parts p).

End Report.

(** More sheets for the statements below. *)
Module MoreExamples.

(** Two services, the second one twice; "C" is no metric column. *)
Definition two_services : DataFrame :=
  mkDataFrame [Services.service_col; "[B]"; "C"; "[A]"]
    [ [Str "s1"; Num 1; Num 9; Num 2];
      [Str "s2"; Num 3; Num 9; NaN];
      [Str "s2"; Num 5; Num 9; Num 6] ].

(** The same with distinct keys, and its records in another order. *)
Definition distinct_services : DataFrame :=
  mkDataFrame [Services.service_col; "[B]"; "C"; "[A]"]
    [ [Str "s1"; Num 1; Num 9; Num 2]; [Str "s2"; Num 3; Num 9; NaN] ].

Definition distinct_services_swapped : list (list cell) :=
  [ [Str "s2"; Num 3; Num 9; NaN]; [Str "s1"; Num 1; Num 9; Num 2] ].

(** A services sheet with a blank key cell. *)
Definition blank_key_sheet : DataFrame :=
  mkDataFrame [Services.service_col; "[A]"]
    [ [Str "s1"; Num 1]; [NaN; Num 2] ].


(** A category sheet whose records carry no category of the list. *)
Definition foreign_sheet : DataFrame :=
  mkDataFrame [Category.category_col; "[TopLine_Revenue]"]
    [ [Str "Other"; Num 7]; [NaN; Num 8] ].

(** Worlds around the end-to-end sheet and the full services sheet. *)
Definition e2e_world : World :=
  mkWorld (fun _ => true) (fun _ => Ok Examples.e2e_sheet) (fun _ => Ok tt).


Definition unreadable_world : World :=
  mkWorld (fun _ => false) (fun _ => Raise OSError) (fun _ => Ok tt).

Definition readonly_world : World :=
  mkWorld (fun _ => true) (fun _ => Ok Examples.e2e_sheet) (fun _ => Raise OSError).

End MoreExamples.

(* ================================================================== *)
(** * The scripts on small sheets *)

(** The end-to-end scenario of the specification. *)
Example e2e_table :
  Category.transform Examples.e2e_metrics Examples.e2e_categories Examples.e2e_sheet
  = ([ Transforming; CategoryProcessed "Games"; CategoryProcessed "Education";
       CategoryProcessed "Images"; AddingEduImg; TransformationComplete 1 4 ],
     Ok (Category.mkOutFrame ["[TopLine_Revenue]"]
           [ ("Games", [Num 100]); ("Education", [Num 10]); ("Images", [Num 20]);
             ("Edu+Img", [Num 30]) ])).
Proof. reflexivity. Qed.

(** Without an "Images" record the column is zeros and a warning is
    printed. *)
Example missing_images_table :
  Category.transform Examples.e2e_metrics Examples.e2e_categories
    Examples.sheet_without_images
  = ([ Transforming; CategoryProcessed "Games"; CategoryProcessed "Education";
       CategoryNotFound "Images"; AddingEduImg; TransformationComplete 1 4 ],
     Ok (Category.mkOutFrame ["[TopLine_Revenue]"]
           [ ("Games", [Num 100]); ("Education", [Num 10]); ("Images", [Num 0]);
             ("Edu+Img", [Num 10]) ])).
Proof. reflexivity. Qed.

(** The sum is the float64 sum: 2^53 + 1 is 2^53, a half and a quarter
    are three quarters, and the two infinities leave a blank. *)
Example big_sums :
  exists log out,
    Category.transform_to_column_format Examples.big_sheet = (log, Ok out)
    /\ Spec.cell_at out "[TopLine_Revenue]" "Edu+Img" = Some (Num 9007199254740992)
    /\ Spec.cell_at out "[Base_usuarios]" "Edu+Img" = Some (Num 0.75).
Proof. eexists. eexists. split; [vm_compute; reflexivity|]. split; reflexivity. Qed.

Example infinite_sum :
  exists log out,
    Category.transform_to_column_format Examples.infinite_sheet = (log, Ok out)
    /\ Spec.cell_at out "[TopLine_Revenue]" "Education" = Some (Num infinity)
    /\ Spec.cell_at out "[TopLine_Revenue]" "Images" = Some (Num neg_infinity)
    /\ Spec.cell_at out "[TopLine_Revenue]" "Edu+Img" = Some NaN.
Proof.
  eexists. eexists. split; [vm_compute; reflexivity|]. repeat split; reflexivity.
Qed.

(** The services steps on a small frame: rows kept and sorted, columns
    picked in the order asked for. *)
Example small_report :
  Services.apply_output_structure Examples.small_frame Examples.small_metric_order
    Examples.small_service_order
  = ([], Ok [ (Str Services.service_col, [Str "[A]"; Str "[B]"]);
              (Str "s2", [NaN; Num 4]); (Str "s1", [Num 2; Num 1]) ]).
Proof. reflexivity. Qed.

(** Default output paths, as [pathlib] gives them. *)
Example default_output_files :
  map PathLib.default_output_file
      [ "data.xlsx"; "/a/b/data.xls"; "a//b/./c.tar.gz"; "//x/y"; "///x/y";
        ".."; "/"; ""; ".bashrc"; "dir/" ]
  = [ "data_output.xlsx"; "/a/b/data_output.xlsx"; "a/b/c.tar_output.xlsx";
      "//x/y_output.xlsx"; "/x/y_output.xlsx"; ".._output.xlsx"; "/_output.xlsx";
      "_output.xlsx"; ".bashrc_output.xlsx"; "dir_output.xlsx" ].
Proof. reflexivity. Qed.

(* ================================================================== *)
(** * Numbers: what the statements need of float64 equality *)

Section Floats.

Lemma SFeqb_true (a b : spec_float) :
  SFeqb a b = true ->
  a = b \/ (exists s t, a = S754_zero s /\ b = S754_zero t).
Proof.
  unfold SFeqb, SFcompare.
  destruct a as [s1|s1| |s1 m1 e1], b as [s2|s2| |s2 m2 e2];
    try (intros _; right; eauto; fail);
    try (intros H; discriminate H);
    try (destruct s1; intros H; discriminate H);
    try (destruct s2; intros H; discriminate H).
  - destruct s1, s2; intros H; try discriminate H; now left.
  - destruct s1, s2; try (intros H; discriminate H);
      (destruct (Z.compare e1 e2) eqn:Ee; try (intros H; discriminate H);
       apply Z.compare_eq in Ee; subst;
       change (Pos.compare_cont Eq m1 m2) with (Pos.compare m1 m2);
       destruct (Pos.compare m1 m2) eqn:Em; try (intros H; discriminate H);
       apply Pos.compare_eq in Em; subst; now left).
Qed.

Lemma SFeqb_refl (a : spec_float) : a <> S754_nan -> SFeqb a a = true.
Proof.
  unfold SFeqb, SFcompare. destruct a as [s|s| |s m e]; try reflexivity.
  - destruct s; reflexivity.
  - congruence.
  - intros _. destruct s; rewrite Z.compare_refl;
      change (Pos.compare_cont Eq m m) with (Pos.compare m m);
      rewrite Pos.compare_refl; reflexivity.
Qed.

Lemma SFeqb_zero_l (s t : bool) (c : spec_float) :
  SFeqb (S754_zero s) c = SFeqb (S754_zero t) c.
Proof. destruct c; reflexivity. Qed.

Lemma SFeqb_zero_r (s t : bool) (c : spec_float) :
  SFeqb c (S754_zero s) = SFeqb c (S754_zero t).
Proof. destruct c; reflexivity. Qed.

Lemma SFeqb_sym (a b : spec_float) : SFeqb a b = SFeqb b a.
Proof.
  destruct (SFeqb a b) eqn:E.
  - pose proof (SFeqb_true _ _ E) as [Hab|[s [t [-> ->]]]]; [|reflexivity].
    subst b. now rewrite E.
  - destruct (SFeqb b a) eqn:E'; [|reflexivity].
    pose proof (SFeqb_true _ _ E') as [Hab|[s [t [-> ->]]]]; [|discriminate].
    subst b. congruence.
Qed.

Lemma float_eqb_sym (x y : float) : (x =? y)%float = (y =? x)%float.
Proof. rewrite !eqb_spec. apply SFeqb_sym. Qed.

Lemma float_eqb_trans (x y z : float) :
  (x =? y)%float = true -> (z =? x)%float = (z =? y)%float.
Proof.
  rewrite !eqb_spec. intros H. apply SFeqb_true in H.
  destruct H as [->|[s [t [-> ->]]]]; [reflexivity | apply SFeqb_zero_r].
Qed.

Lemma float_eqb_refl (x : float) : is_nan x = false -> (x =? x)%float = true.
Proof. unfold is_nan. now destruct (x =? x)%float. Qed.

Lemma float_eqb_nan_r (x y : float) : is_nan y = true -> (x =? y)%float = false.
Proof.
  intros H. destruct (x =? y)%float eqn:E; [|reflexivity].
  unfold is_nan in H. rewrite <- (float_eqb_trans _ _ y E) in H.
  rewrite float_eqb_sym, E in H. discriminate.
Qed.

Lemma is_nan_eq (x : float) : is_nan x = true -> x = nan.
Proof.
  unfold is_nan. rewrite eqb_spec. intros H. apply Prim2SF_inj.
  destruct (Prim2SF x) as [s|s| |s m e] eqn:E; try reflexivity; exfalso;
    rewrite SFeqb_refl in H by discriminate; discriminate.
Qed.


(** The sum of two numbers is a number, the sum of the two infinities
    apart. *)
Lemma shr_1_nonneg (mrs : shr_record) :
  (0 <= shr_m mrs)%Z -> (0 <= shr_m (shr_1 mrs))%Z.
Proof.
  destruct mrs as [m r s]. simpl. destruct m as [|p|p]; simpl; try lia.
  - destruct p; simpl; lia.
Qed.

Lemma iter_pos_nonneg (p : positive) (mrs : shr_record) :
  (0 <= shr_m mrs)%Z -> (0 <= shr_m (iter_pos shr_1 p mrs))%Z.
Proof.
  revert mrs. induction p as [p IH|p IH|]; intros mrs H; simpl.
  - apply IH, IH. now apply shr_1_nonneg.
  - now apply IH, IH.
  - now apply shr_1_nonneg.
Qed.

Lemma shr_nonneg (mrs : shr_record) (e n : Z) :
  (0 <= shr_m mrs)%Z -> (0 <= shr_m (fst (shr mrs e n)))%Z.
Proof.
  intros H. unfold shr. destruct n; simpl; try assumption.
  now apply iter_pos_nonneg.
Qed.

Lemma shr_fexp_nonneg (prec emax m e : Z) (l : location) :
  (0 <= m)%Z -> (0 <= shr_m (fst (shr_fexp prec emax m e l)))%Z.
Proof.
  intros H. unfold shr_fexp. apply shr_nonneg.
  destruct l as [|[| |]]; simpl; assumption.
Qed.

Lemma round_nearest_even_nonneg (mx : Z) (lx : location) :
  (0 <= mx)%Z -> (0 <= round_nearest_even mx lx)%Z.
Proof.
  intros H. unfold round_nearest_even. destruct lx as [|[| |]]; try lia.
  destruct (Z.even mx); lia.
Qed.

Lemma binary_round_aux_not_nan (prec emax : Z) (sx : bool) (mx ex : Z) (lx : location) :
  (0 <= mx)%Z -> binary_round_aux prec emax sx mx ex lx <> S754_nan.
Proof.
  intros H. unfold binary_round_aux.
  pose proof (shr_fexp_nonneg prec emax mx ex lx H) as H1.
  destruct (shr_fexp prec emax mx ex lx) as [mrs' e']. simpl in H1.
  pose proof (shr_fexp_nonneg prec emax
                (round_nearest_even (shr_m mrs') (loc_of_shr_record mrs')) e' loc_Exact
                (round_nearest_even_nonneg _ _ H1)) as H2.
  destruct (shr_fexp prec emax _ e' loc_Exact) as [mrs'' e'']. simpl in H2.
  destruct (shr_m mrs'') as [|p|p]; try discriminate; [|lia].
  destruct (Z.leb e'' (emax - prec)); discriminate.
Qed.

Lemma binary_normalize_not_nan (prec emax m e : Z) (szero : bool) :
  binary_normalize prec emax m e szero <> S754_nan.
Proof.
  unfold binary_normalize, binary_round. destruct m as [|p|p]; try discriminate.
  - destruct (shl_align p e _) as [mz ez]. apply binary_round_aux_not_nan. lia.
  - destruct (shl_align p e _) as [mz ez]. apply binary_round_aux_not_nan. lia.
Qed.

Lemma SFadd_nan (prec emax : Z) (a b : spec_float) :
  SFadd prec emax a b = S754_nan ->
  a = S754_nan \/ b = S754_nan
  \/ exists s, a = S754_infinity s /\ b = S754_infinity (negb s).
Proof.
  intros H.
  destruct a as [sa|sa| |sa ma ea], b as [sb|sb| |sb mb eb]; unfold SFadd in H;
    try (now left); try (right; now left); try discriminate H.
  - destruct sa, sb; discriminate H.
  - right. right. destruct sa, sb; simpl in H; try discriminate H;
      [exists true | exists false]; split; reflexivity.
  - now apply binary_normalize_not_nan in H.
Qed.

Lemma is_nan_spec (x : float) : is_nan x = true <-> Prim2SF x = S754_nan.
Proof.
  unfold is_nan. rewrite eqb_spec. unfold SFeqb, SFcompare.
  destruct (Prim2SF x) as [s|s| |s m e]; simpl; split; try discriminate; try reflexivity.
  - destruct s; discriminate.
  - destruct s; rewrite Z.compare_refl;
      change (Pos.compare_cont Eq m m) with (Pos.compare m m);
      rewrite Pos.compare_refl; discriminate.
Qed.

(** Two numbers whose float64 sum is NaN are the two infinities. *)
Lemma add_nan (x y : float) :
  is_nan x = false -> is_nan y = false -> is_nan (x + y) = true ->
  (x = infinity /\ y = neg_infinity) \/ (x = neg_infinity /\ y = infinity).
Proof.
  intros Hx Hy H. apply is_nan_spec in H. rewrite add_spec in H.
  apply SFadd_nan in H. destruct H as [H|[H|[s [Ha Hb]]]].
  - apply is_nan_spec in H. congruence.
  - apply is_nan_spec in H. congruence.
  - destruct s; [right | left]; split; apply Prim2SF_inj;
      rewrite ?Ha, ?Hb; reflexivity.
Qed.

Lemma cell_eqb_sym (a b : cell) : cell_eqb a b = cell_eqb b a.
Proof.
  destruct a as [x|s], b as [y|t]; simpl; try reflexivity.
  - apply float_eqb_sym.
  - apply String.eqb_sym.
Qed.

Lemma cell_eqb_trans (a b c : cell) :
  cell_eqb a b = true -> cell_eqb c a = cell_eqb c b.
Proof.
  destruct a as [x|s], b as [y|t]; simpl; try discriminate.
  - intros H. destruct c; [now apply float_eqb_trans | reflexivity].
  - intros H. apply String.eqb_eq in H. now subst.
Qed.

Lemma cell_eqb_refl (a : cell) : isna a = false -> cell_eqb a a = true.
Proof.
  destruct a as [x|s]; simpl.
  - apply float_eqb_refl.
  - intros _. apply String.eqb_refl.
Qed.

Lemma cell_eqb_Str (s t : string) : cell_eqb (Str s) (Str t) = String.eqb s t.
Proof. reflexivity. Qed.

Lemma cell_eqb_Str_r (a : cell) (s : string) : cell_eqb a (Str s) = true -> a = Str s.
Proof.
  destruct a as [x|t]; simpl; [discriminate|].
  intros H. apply String.eqb_eq in H. now subst.
Qed.

Lemma cell_eqb_Str_l (a : cell) (s : string) : cell_eqb (Str s) a = true -> a = Str s.
Proof. rewrite cell_eqb_sym. apply cell_eqb_Str_r. Qed.

Lemma cell_eqb_blank_r (a b : cell) : isna b = true -> cell_eqb a b = false.
Proof.
  destruct a as [x|s], b as [y|t]; simpl; try reflexivity; try discriminate.
  apply float_eqb_nan_r.
Qed.

Lemma cell_eqb_blank_l (a b : cell) : isna a = true -> cell_eqb a b = false.
Proof. rewrite cell_eqb_sym. apply cell_eqb_blank_r. Qed.

Lemma cell_eqb_filled (a b : cell) :
  cell_eqb a b = true -> isna a = false /\ isna b = false.
Proof.
  intros H. split.
  - destruct (isna a) eqn:E; [|reflexivity].
    rewrite cell_eqb_blank_l in H by assumption. discriminate.
  - destruct (isna b) eqn:E; [|reflexivity].
    rewrite cell_eqb_blank_r in H by assumption. discriminate.
Qed.

Lemma isna_NaN (c : cell) : isna c = true -> c = NaN.
Proof.
  destruct c as [x|s]; simpl; [|discriminate].
  intros H. unfold NaN. f_equal. now apply is_nan_eq.
Qed.

Lemma fillna0_filled (c : cell) : isna (fillna0 c) = false.
Proof. unfold fillna0. destruct (isna c) eqn:E; [reflexivity | exact E]. Qed.

End Floats.

(* ================================================================== *)
(** * Small facts about the plumbing *)

Lemma mem_In (s : string) (l : list string) : mem s l = true <-> In s l.
Proof.
  unfold mem. rewrite existsb_exists. split.
  - intros [x [Hx He]]. apply String.eqb_eq in He. now subst.
  - intros H. exists s. split; [assumption | apply String.eqb_refl].
Qed.

Lemma mem_not_In (s : string) (l : list string) : mem s l = false <-> ~ In s l.
Proof.
  rewrite <- mem_In. destruct (mem s l); split; congruence.
Qed.

(** A loop whose body always returns is a fold that prints one line per
    element. *)
Lemma for_each_pure {X S : Type} (ev : X -> message) (f : X -> S -> S)
  (body : X -> S -> M S) (xs : list X) :
  (forall x s, In x xs -> body x s = ([ev x], Ok (f x s))) ->
  forall s, for_each xs body s = (map ev xs, Ok (fold_left (fun s x => f x s) xs s)).
Proof.
  induction xs as [|x xs IH]; intros Hb s; simpl.
  - reflexivity.
  - rewrite Hb by now left. unfold bind.
    rewrite IH by (intros; apply Hb; now right). reflexivity.
Qed.

(** A loop whose very first body raises stops there, with nothing done. *)
Lemma for_each_raise_first {X S : Type} (body : X -> S -> M S) (x : X) (xs : list X)
  (s : S) (e : exc) :
  body x s = ([], Raise e) -> for_each (x :: xs) body s = ([], Raise e).
Proof. intros H. simpl. rewrite H. reflexivity. Qed.

Lemma filter_head_find {A} (p : A -> bool) (l : list A) :
  find p l = hd_error (filter p l).
Proof.
  induction l as [|a l IH]; simpl; [reflexivity|].
  destruct (p a); simpl; [reflexivity | exact IH].
Qed.


Lemma Forall_take {A} (P : A -> Prop) (n : nat) (l : list A) :
  Forall P l -> Forall P (firstn n l).
Proof.
  intros H. revert n. induction H as [|a l Ha Hl IH]; intros [|n]; simpl;
    constructor; auto.
Qed.

Lemma Forall_skip {A} (P : A -> Prop) (n : nat) (l : list A) :
  Forall P l -> Forall P (skipn n l).
Proof.
  intros H. revert n. induction H as [|a l Ha Hl IH]; intros [|n]; simpl;
    try constructor; auto.
Qed.

(* ================================================================== *)
(** * The category loop, column by column *)

Section CategoryLoop.

Import Category Spec.

Variable df : DataFrame.
Variable metrics : list string.

Local Abbreviation written := (source_value df).
Local Abbreviation round := (Spec.round metrics df).
Local Abbreviation raw_column := (Spec.raw_column metrics df).

Lemma process_category_round (category : string) (o : OutFrame) :
  In category_col (columns df) ->
  process_category metrics df category o
  = ([spec_event df category], Ok (round category o)).
Proof.
  intros Hk. unfold process_category, select_eq, Spec.round, spec_event, first_match.
  apply mem_In in Hk. rewrite Hk. rewrite filter_head_find.
  unfold lift, bind. simpl.
  destruct (filter _ (rows df)); reflexivity.
Qed.

Lemma process_category_no_key (category : string) (o : OutFrame) :
  ~ In category_col (columns df) ->
  process_category metrics df category o = ([], Raise (KeyError category_col)).
Proof.
  intros Hk. unfold process_category, select_eq.
  apply mem_not_In in Hk. rewrite Hk. reflexivity.
Qed.

Lemma update_fresh (c : string) (f : list cell -> list cell)
  (d : list (string * list cell)) (v : list cell) :
  ~ In c (map fst d) -> update c f (d ++ [(c, v)]) = d ++ [(c, f v)].
Proof.
  induction d as [|[k w] d IH]; simpl; intros Hn.
  - now rewrite String.eqb_refl.
  - destruct (String.eqb c k) eqn:E.
    + apply String.eqb_eq in E. subst. exfalso. apply Hn. now left.
    + rewrite IH; [reflexivity | tauto].
Qed.

Lemma loc_set_last (m c : string) (v : cell) (idx : list string)
  (d : list (string * list cell)) (col : list cell) :
  ~ In c (map fst d) ->
  loc_set m c v (mkOutFrame idx (d ++ [(c, col)]))
  = mkOutFrame idx (d ++ [(c, set_at m v idx col)]).
Proof.
  intros Hn. unfold loc_set, names. simpl.
  assert (Hin : mem c (map fst (d ++ [(c, col)])) = true).
  { apply mem_In. rewrite map_app, in_app_iff. right. now left. }
  rewrite Hin. now rewrite update_fresh.
Qed.

Lemma loc_set_new (m c : string) (v : cell) (idx : list string)
  (d : list (string * list cell)) :
  ~ In c (map fst d) ->
  loc_set m c v (mkOutFrame idx d)
  = mkOutFrame idx (d ++ [(c, set_at m v idx (repeat NaN (length idx)))]).
Proof.
  intros Hn. unfold loc_set, names. simpl.
  apply mem_not_In in Hn as Hm. rewrite Hm.
  apply mem_not_In in Hm. now rewrite update_fresh.
Qed.

Lemma map_metric_loc_set (row : list cell) (c m : string) (o : OutFrame) :
  map_metric df row c m o = loc_set m c (written row m) o.
Proof.
  unfold map_metric, source_value. now destruct (mem m (columns df)).
Qed.

(** The matched branch on a frame that has the column already, as its
    last one. *)
Lemma fold_metrics_last (row : list cell) (c : string) (idx : list string)
  (d : list (string * list cell)) (ms : list string) :
  ~ In c (map fst d) ->
  forall col,
  fold_left (fun o m => map_metric df row c m o) ms (mkOutFrame idx (d ++ [(c, col)]))
  = mkOutFrame idx
      (d ++ [(c, fold_left (fun col m => set_at m (written row m) idx col) ms col)]).
Proof.
  intros Hn. induction ms as [|m ms IH]; intros col; simpl.
  - reflexivity.
  - rewrite map_metric_loc_set, loc_set_last by assumption. apply IH.
Qed.

Lemma overlay_nil (val : string -> cell) (labels : list string) (col : list cell) :
  overlay val [] labels col = col.
Proof.
  revert col. induction labels as [|l labels IH]; intros [|x col]; simpl;
    try reflexivity. now rewrite IH.
Qed.

Lemma overlay_set_at (val : string -> cell) (m : string) (ms labels : list string)
  (col : list cell) :
  overlay val ms labels (set_at m (val m) labels col) = overlay val (m :: ms) labels col.
Proof.
  revert col. induction labels as [|l labels IH]; intros [|x col]; simpl;
    try reflexivity.
  rewrite IH. f_equal.
  rewrite (String.eqb_sym l m).
  destruct (String.eqb m l) eqn:E; simpl.
  - apply String.eqb_eq in E. subst. now destruct (mem l ms).
  - reflexivity.
Qed.

Lemma fold_set_at (val : string -> cell) (labels ms : list string) (col : list cell) :
  fold_left (fun col m => set_at m (val m) labels col) ms col
  = overlay val ms labels col.
Proof.
  revert col. induction ms as [|m ms IH]; intros col; simpl.
  - now rewrite overlay_nil.
  - rewrite IH. apply overlay_set_at.
Qed.

Lemma overlay_all (val : string -> cell) (ms labels : list string) (col : list cell) :
  incl labels ms -> length col = length labels ->
  overlay val ms labels col = map val labels.
Proof.
  revert col. induction labels as [|l labels IH]; intros [|x col] Hi Hl; simpl in *;
    try discriminate; try reflexivity.
  assert (Hm : mem l ms = true) by (apply mem_In, Hi; now left).
  rewrite Hm. f_equal. apply IH; [|lia].
  intros y Hy. apply Hi. now right.
Qed.

Lemma round_fresh (c : string) (d : list (string * list cell)) :
  metrics <> [] -> ~ In c (map fst d) ->
  round c (mkOutFrame metrics d) = mkOutFrame metrics (d ++ [(c, raw_column c)]).
Proof.
  intros Hne Hn. unfold Spec.round, Spec.raw_column.
  destruct (first_match df c) as [row|].
  - destruct metrics as [|m ms] eqn:E; [contradiction|]. rewrite <- E in *.
    assert (Hf : fold_left (fun o m0 => map_metric df row c m0 o) metrics
                   (mkOutFrame metrics d)
                 = fold_left (fun o m0 => map_metric df row c m0 o) ms
                     (mkOutFrame metrics
                        (d ++ [(c, set_at m (written row m) metrics
                                     (repeat NaN (length metrics)))]))).
    { rewrite E at 1. simpl. rewrite map_metric_loc_set.
      now rewrite loc_set_new. }
    rewrite Hf, fold_metrics_last by assumption.
    do 4 f_equal.
    change (fold_left (fun col m0 => set_at m0 (written row m0) metrics col) ms
              (set_at m (written row m) metrics (repeat NaN (length metrics))))
      with (fold_left (fun col m0 => set_at m0 (written row m0) metrics col) (m :: ms)
              (repeat NaN (length metrics))).
    rewrite <- E, fold_set_at.
    apply overlay_all; [apply incl_refl | apply repeat_length].
  - unfold set_column, names. simpl.
    apply mem_not_In in Hn. now rewrite Hn.
Qed.

Lemma rounds_fresh (cs : list string) :
  metrics <> [] -> NoDup cs ->
  forall d, (forall c, In c cs -> ~ In c (map fst d)) ->
  fold_left (fun o c => round c o) cs (mkOutFrame metrics d)
  = mkOutFrame metrics (d ++ map (fun c => (c, raw_column c)) cs).
Proof.
  intros Hne. induction cs as [|c cs IH]; intros Hnd d Hfresh; simpl.
  - now rewrite app_nil_r.
  - inversion Hnd as [|? ? Hc Hnd']; subst.
    rewrite round_fresh by (try assumption; apply Hfresh; now left).
    rewrite IH; [now rewrite <- app_assoc | assumption |].
    intros c' Hc' Hin. rewrite map_app, in_app_iff in Hin. simpl in Hin.
    destruct Hin as [Hin | [-> | []]].
    + revert Hin. apply Hfresh. now right.
    + contradiction.
Qed.

Lemma fillna_raw_column (c : string) :
  map fillna0 (raw_column c) = spec_column metrics df c.
Proof.
  unfold Spec.raw_column, spec_column. destruct (first_match df c).
  - now rewrite map_map.
  - rewrite map_repeat. reflexivity.
Qed.

(** The loop and the [fillna(0)] compute the table of the specification. *)
Lemma populate_spec (categories : list string) :
  In category_col (columns df) -> metrics <> [] -> NoDup categories ->
  populate metrics categories df
  = (map (spec_event df) categories, Ok (spec_table metrics categories df)).
Proof.
  intros Hk Hne Hnd. unfold populate.
  rewrite (for_each_pure (spec_event df) round)
    by (intros; now apply process_category_round).
  unfold bind, ret, empty_frame. rewrite app_nil_r. do 2 f_equal.
  rewrite rounds_fresh by (auto; intros ? ? []).
  unfold fillna, spec_table. simpl. f_equal.
  rewrite map_map. apply map_ext. intros c. simpl.
  now rewrite fillna_raw_column.
Qed.

End CategoryLoop.

(* ================================================================== *)
(** * The derived column *)

Section DerivedColumn.

Import Category Spec.

Lemma lookup_map_self (f : string -> list cell) (c : string) (cs : list string) :
  In c cs -> lookup c (map (fun c => (c, f c)) cs) = Some (f c).
Proof.
  induction cs as [|x cs IH]; simpl; [intros []|].
  destruct (String.eqb c x) eqn:E.
  - apply String.eqb_eq in E. now subst.
  - intros [->|H]; [now rewrite String.eqb_refl in E | now apply IH].
Qed.

Lemma lookup_None (c : string) (d : list (string * list cell)) :
  lookup c d = None <-> ~ In c (map fst d).
Proof.
  induction d as [|[k v] d IH]; simpl; [tauto|].
  destruct (String.eqb c k) eqn:E.
  - apply String.eqb_eq in E. subst. split; [discriminate | tauto].
  - apply String.eqb_neq in E. rewrite IH. split; intros H; [intros [?|?]|];
      try tauto. congruence.
Qed.

Lemma names_spec_table (metrics cs : list string) (df : DataFrame) :
  names (spec_table metrics cs df) = cs.
Proof.
  unfold names, spec_table. simpl. rewrite map_map. simpl. apply map_id.
Qed.

Lemma column_spec_table (metrics cs : list string) (df : DataFrame) (c : string) :
  In c cs -> column c (spec_table metrics cs df) = Some (spec_column metrics df c).
Proof. intros H. unfold column, spec_table. simpl. now apply lookup_map_self. Qed.

(** Looking a column up in a frame that got one more column. *)
Lemma lookup_inserted (c c' : string) (v : list cell) (n : nat)
  (d : list (string * list cell)) :
  c <> c' -> lookup c (firstn n d ++ (c', v) :: skipn n d) = lookup c d.
Proof.
  intros Hne. revert n. induction d as [|[k w] d IH]; intros [|n]; simpl.
  - apply String.eqb_neq in Hne. now rewrite Hne.
  - apply String.eqb_neq in Hne. now rewrite Hne.
  - apply String.eqb_neq in Hne. now rewrite Hne.
  - destruct (String.eqb c k); [reflexivity | apply IH].
Qed.

Lemma lookup_inserted_new (c : string) (v : list cell) (n : nat)
  (d : list (string * list cell)) :
  ~ In c (map fst d) -> lookup c (firstn n d ++ (c, v) :: skipn n d) = Some v.
Proof.
  revert n. induction d as [|[k w] d IH]; intros [|n] Hn; simpl in *;
    try now rewrite String.eqb_refl.
  destruct (String.eqb c k) eqn:E.
  - apply String.eqb_eq in E. subst. tauto.
  - apply IH. tauto.
Qed.

Lemma column_with_column_after (c c' : string) (v : list cell) (k : nat)
  (o : OutFrame) :
  c <> c' -> column c (with_column_after k c' v o) = column c o.
Proof. intros H. unfold column, with_column_after. simpl. now apply lookup_inserted. Qed.

Lemma column_with_column_after_new (c : string) (v : list cell) (k : nat)
  (o : OutFrame) :
  ~ In c (names o) -> column c (with_column_after k c v o) = Some v.
Proof.
  intros H. unfold column, with_column_after. simpl. now apply lookup_inserted_new.
Qed.

(** The position [get_loc] finds splits the names around the name. *)
Lemma get_loc_split (c : string) (l : list string) :
  In c l ->
  firstn (get_loc c l + 1) l = firstn (get_loc c l) l ++ [c]
  /\ l = firstn (get_loc c l) l ++ c :: skipn (get_loc c l + 1) l.
Proof.
  induction l as [|x l IH]; simpl; [intros []|]. intros H.
  destruct (String.eqb c x) eqn:E.
  - apply String.eqb_eq in E. subst. simpl. split; reflexivity.
  - apply String.eqb_neq in E. destruct H as [->|H]; [congruence|].
    destruct (IH H) as [H1 H2]. simpl. split; [now rewrite H1 | now rewrite <- H2].
Qed.

Lemma nth_error_get_loc (m : string) (l : list string) :
  In m l -> nth_error l (get_loc m l) = Some m.
Proof.
  induction l as [|x l IH]; simpl; [intros []|]. intros H.
  destruct (String.eqb m x) eqn:E.
  - apply String.eqb_eq in E. now subst.
  - apply String.eqb_neq in E. destruct H as [->|H]; [congruence | now apply IH].
Qed.

Lemma series_add_nth (a b zs : list cell) :
  series_add a b = Ok zs ->
  forall n x y, nth_error a n = Some x -> nth_error b n = Some y ->
  exists z, cell_add x y = Ok z /\ nth_error zs n = Some z.
Proof.
  revert b zs. induction a as [|x0 a IH]; intros [|y0 b] zs H n x y Hx Hy;
    try (destruct n; discriminate).
  simpl in H. destruct (cell_add x0 y0) as [z0|] eqn:E0; [|discriminate].
  destruct (series_add a b) as [zs'|] eqn:E; [|discriminate].
  injection H as <-. destruct n as [|n]; simpl in *.
  - injection Hx as <-. injection Hy as <-. eauto.
  - eapply IH; eauto.
Qed.

(** The then-branch of [add_edu_img], spelled out. *)
Lemma add_edu_img_created (o : OutFrame) (education images values : list cell) :
  column "Education" o = Some education ->
  column "Images" o = Some images ->
  ~ In "Edu+Img" (names o) ->
  series_add education images = Ok values ->
  add_edu_img o
  = ([AddingEduImg],
     Ok (with_column_after (get_loc "Images" (names o)) "Edu+Img" values o)).
Proof.
  intros He Hi Hn Hs. unfold add_edu_img.
  assert (Hme : mem "Education" (names o) = true).
  { destruct (mem "Education" (names o)) eqn:E; [reflexivity|].
    apply mem_not_In in E. apply lookup_None in E. unfold column in He. congruence. }
  assert (Hmi : mem "Images" (names o) = true).
  { destruct (mem "Images" (names o)) eqn:E; [reflexivity|].
    apply mem_not_In in E. apply lookup_None in E. unfold column in Hi. congruence. }
  rewrite Hme, Hmi, He, Hi, Hs. simpl.
  unfold insert. apply mem_not_In in Hn. rewrite Hn. reflexivity.
Qed.

(** Whatever the frame, the skip message needs a source column to be
    missing. *)
Lemma add_edu_img_skip (o : OutFrame) :
  In EduImgSkipped (fst (add_edu_img o)) ->
  ~ In "Education" (names o) \/ ~ In "Images" (names o).
Proof.
  unfold add_edu_img.
  destruct (mem "Education" (names o)) eqn:He; [|left; now apply mem_not_In].
  destruct (mem "Images" (names o)) eqn:Hi; [|right; now apply mem_not_In].
  simpl. intros H. exfalso.
  destruct (column "Education" o), (column "Images" o); simpl in H;
    try (destruct H as [H|[]]; discriminate).
  destruct (series_add l l0); simpl in H.
  - unfold insert in H. destruct (mem "Edu+Img" (names o)); simpl in H;
      destruct H as [H|[]]; discriminate.
  - destruct H as [H|[]]; discriminate.
Qed.

End DerivedColumn.

(* ================================================================== *)
(** * The whole category transform *)

Section CategoryTransform.

Import Category Spec.

Lemma transform_returns (ms cs : list string) (df : DataFrame)
  (l l' : list message) (t out : OutFrame) :
  populate ms cs df = (l, Ok t) ->
  add_edu_img t = (l', Ok out) ->
  transform ms cs df
  = (Transforming :: l ++ l'
       ++ [TransformationComplete (length (index out)) (length (names out))],
     Ok out).
Proof.
  intros Hp Ha. unfold transform. rewrite Hp. unfold bind at 2. rewrite Ha.
  unfold bind, print, ret. simpl. rewrite ?app_nil_r. reflexivity.
Qed.

Lemma transform_raises_late (ms cs : list string) (df : DataFrame)
  (l l' : list message) (t : OutFrame) (e : exc) :
  populate ms cs df = (l, Ok t) ->
  add_edu_img t = (l', Raise e) ->
  transform ms cs df = (Transforming :: l ++ l', Raise e).
Proof.
  intros Hp Ha. unfold transform. rewrite Hp. unfold bind at 2. rewrite Ha.
  reflexivity.
Qed.

Lemma transform_raises_early (ms cs : list string) (df : DataFrame)
  (l : list message) (e : exc) :
  populate ms cs df = (l, Raise e) ->
  transform ms cs df = (Transforming :: l, Raise e).
Proof. intros Hp. unfold transform. rewrite Hp. reflexivity. Qed.

(** Without the key column the very first round raises. *)
Lemma populate_no_key (ms : list string) (c : string) (cs : list string)
  (df : DataFrame) :
  ~ In category_col (columns df) ->
  populate ms (c :: cs) df = ([], Raise (KeyError category_col)).
Proof.
  intros Hk. unfold populate.
  rewrite (for_each_raise_first _ _ _ _ (KeyError category_col))
    by now apply process_category_no_key.
  reflexivity.
Qed.

Lemma metrics_not_nil : metrics <> [].
Proof. discriminate. Qed.

Lemma string_NoDup_dec (l : list string) : {NoDup l} + {~ NoDup l}.
Proof.
  induction l as [|x l [IH|IH]].
  - left. constructor.
  - destruct (in_dec string_dec x l) as [H|H].
    + right. intros Hn. inversion Hn. contradiction.
    + left. now constructor.
  - right. intros Hn. inversion Hn. contradiction.
Defined.

Lemma categories_NoDup : NoDup categories.
Proof.
  destruct (string_NoDup_dec categories) as [H|H] eqn:E; [exact H|].
  vm_compute in E. discriminate.
Qed.

Lemma spec_column_length (ms : list string) (df : DataFrame) (c : string) :
  length (spec_column ms df c) = length ms.
Proof.
  unfold spec_column. destruct (first_match df c).
  - apply length_map.
  - apply repeat_length.
Qed.

Lemma spec_column_filled (ms : list string) (df : DataFrame) (c : string) :
  Forall (fun x => isna x = false) (spec_column ms df c).
Proof.
  unfold spec_column. destruct (first_match df c).
  - apply Forall_map, Forall_forall. intros m _. apply fillna0_filled.
  - apply Forall_forall. intros x Hx. apply repeat_spec in Hx. now subst.
Qed.

Lemma cell_add_raises (a b : cell) (e : exc) : cell_add a b = Raise e -> e = TypeError.
Proof.
  destruct a as [x|s], b as [y|t]; simpl; try discriminate;
    destruct (is_nan _); try discriminate; now intros [= <-].
Qed.

(** The sum of two columns fails exactly when two cells clash. *)
Lemma series_add_sum (a b : list cell) :
  existsb (fun p => clash (fst p) (snd p)) (combine a b) = false ->
  series_add a b = Ok (sum_column a b).
Proof.
  revert b. induction a as [|x a IH]; intros [|y b]; try reflexivity.
  intros H. cbn [combine existsb fst snd] in H.
  apply orb_false_iff in H. destruct H as [H1 H2].
  cbn [series_add]. unfold clash in H1.
  destruct (cell_add x y) as [z|e] eqn:E; [|discriminate].
  rewrite (IH b H2). unfold sum_column. cbn [combine map fst snd].
  unfold sum_cell. now rewrite E.
Qed.

Lemma series_add_clash (a b : list cell) :
  existsb (fun p => clash (fst p) (snd p)) (combine a b) = true ->
  series_add a b = Raise TypeError.
Proof.
  revert b. induction a as [|x a IH]; intros [|y b]; try discriminate.
  intros H. cbn [combine existsb fst snd] in H. cbn [series_add].
  unfold clash in H.
  destruct (cell_add x y) as [z|e] eqn:E.
  - simpl in H. now rewrite (IH b H).
  - now rewrite (cell_add_raises x y e E).
Qed.

(** Without a clash the derived step adds the sum column in sixth
    place. *)
Lemma add_edu_img_sum (df : DataFrame) :
  sources_clash df = false ->
  add_edu_img (spec_table metrics categories df)
  = ([AddingEduImg], Ok (spec_final df)).
Proof.
  intros Hnum.
  rewrite (add_edu_img_created _ (spec_column metrics df "Education")
             (spec_column metrics df "Images")
             (sum_column (spec_column metrics df "Education")
                         (spec_column metrics df "Images"))).
  - rewrite names_spec_table. reflexivity.
  - apply column_spec_table. vm_compute. tauto.
  - apply column_spec_table. vm_compute. tauto.
  - rewrite names_spec_table. apply mem_not_In. reflexivity.
  - now apply series_add_sum.
Qed.

(** With a clash it raises [TypeError]. *)
Lemma add_edu_img_clash (df : DataFrame) :
  sources_clash df = true ->
  add_edu_img (spec_table metrics categories df) = ([AddingEduImg], Raise TypeError).
Proof.
  intros Hclash. unfold add_edu_img.
  rewrite names_spec_table. change (mem "Education" categories) with true.
  change (mem "Images" categories) with true. cbv iota. simpl andb. cbv iota.
  rewrite !column_spec_table by (vm_compute; tauto).
  rewrite (series_add_clash _ _ Hclash). reflexivity.
Qed.

(** The script on a sheet with the key column: the table of the
    specification with the sum column, or [TypeError] from the sum. *)
Lemma transform_outcome (df : DataFrame) :
  In category_col (columns df) ->
  transform_to_column_format df
  = if sources_clash df
    then (Transforming :: map (spec_event df) categories ++ [AddingEduImg],
          Raise TypeError)
    else (Transforming :: map (spec_event df) categories
            ++ [AddingEduImg; TransformationComplete 18 11],
          Ok (spec_final df)).
Proof.
  intros Hk. unfold transform_to_column_format.
  pose proof (populate_spec df metrics categories Hk metrics_not_nil categories_NoDup)
    as Hp.
  destruct (sources_clash df) eqn:E.
  - now rewrite (transform_raises_late _ _ _ _ _ _ _ Hp (add_edu_img_clash df E)).
  - rewrite (transform_returns _ _ _ _ _ _ _ Hp (add_edu_img_sum df E)).
    reflexivity.
Qed.

(** When the script returns, the sheet has the key column, nothing
    clashed, and the table is the table of the specification. *)
Lemma transform_ok_inv (df : DataFrame) (log : list message) (out : OutFrame) :
  transform_to_column_format df = (log, Ok out) ->
  In category_col (columns df) /\ sources_clash df = false /\ out = spec_final df.
Proof.
  intros Hrun. destruct (in_dec string_dec category_col (columns df)) as [Hk|Hk].
  - rewrite (transform_outcome df Hk) in Hrun.
    destruct (sources_clash df); [discriminate|].
    injection Hrun as _ <-. repeat split. exact Hk.
  - unfold transform_to_column_format in Hrun.
    rewrite (transform_raises_early metrics categories df [] (KeyError category_col))
      in Hrun by (apply populate_no_key; exact Hk).
    discriminate.
Qed.

(** The cells of the finished table. *)
Lemma spec_final_cell (df : DataFrame) (m c : string) :
  In c categories ->
  cell_at (spec_final df) m c
  = nth_error (spec_column metrics df c) (get_loc m metrics).
Proof.
  intros Hc. unfold cell_at, spec_final.
  rewrite column_with_column_after
    by (intros ->; vm_compute in Hc; intuition discriminate).
  now rewrite column_spec_table by assumption.
Qed.

Lemma spec_final_sum_cell (df : DataFrame) (m : string) :
  cell_at (spec_final df) m "Edu+Img"
  = nth_error (sum_column (spec_column metrics df "Education")
                          (spec_column metrics df "Images"))
              (get_loc m metrics).
Proof.
  unfold cell_at, spec_final.
  rewrite column_with_column_after_new; [reflexivity|].
  rewrite names_spec_table. apply mem_not_In. reflexivity.
Qed.

Lemma spec_column_cell (df : DataFrame) (m c : string) :
  In m metrics ->
  exists v, nth_error (spec_column metrics df c) (get_loc m metrics) = Some v
            /\ isna v = false.
Proof.
  intros Hm. pose proof (nth_error_get_loc m metrics Hm) as Hloc.
  assert (Hlt : get_loc m metrics < length (spec_column metrics df c)).
  { rewrite spec_column_length. apply nth_error_Some. congruence. }
  apply nth_error_Some in Hlt.
  destruct (nth_error (spec_column metrics df c) (get_loc m metrics)) as [x|] eqn:E;
    [|contradiction].
  exists x. split; [reflexivity|].
  pose proof (spec_column_filled metrics df c) as Hall.
  rewrite Forall_forall in Hall. apply Hall. now apply nth_error_In in E.
Qed.

Lemma sum_column_nth (a b : list cell) (n : nat) (x y : cell) :
  nth_error a n = Some x -> nth_error b n = Some y ->
  nth_error (sum_column a b) n = Some (sum_cell x y).
Proof.
  revert b n. induction a as [|x0 a IH]; intros [|y0 b] [|n]; simpl; try discriminate.
  - now intros [= ->] [= ->].
  - apply IH.
Qed.

Lemma existsb_combine_nth {A B} (f : A * B -> bool) (a : list A) (b : list B)
  (n : nat) (x : A) (y : B) :
  existsb f (combine a b) = false ->
  nth_error a n = Some x -> nth_error b n = Some y -> f (x, y) = false.
Proof.
  revert b n. induction a as [|x0 a IH]; intros [|y0 b] [|n]; simpl; try discriminate.
  - intros H [= ->] [= ->]. now apply orb_false_iff in H.
  - intros H. apply orb_false_iff in H. apply IH. tauto.
Qed.

(** A metric row of the finished table: two source cells that are not
    blank, and their sum. *)
Lemma spec_final_row (df : DataFrame) (m : string) :
  In m metrics -> sources_clash df = false ->
  exists a b d,
    cell_at (spec_final df) m "Education" = Some a
    /\ cell_at (spec_final df) m "Images" = Some b
    /\ isna a = false /\ isna b = false
    /\ cell_add a b = Ok d
    /\ cell_at (spec_final df) m "Edu+Img" = Some d.
Proof.
  intros Hm Hclash.
  destruct (spec_column_cell df m "Education" Hm) as [a [Ha Hna]].
  destruct (spec_column_cell df m "Images" Hm) as [b [Hb Hnb]].
  pose proof (existsb_combine_nth _ _ _ _ a b Hclash Ha Hb) as Hab.
  simpl in Hab. unfold clash in Hab.
  destruct (cell_add a b) as [d|e] eqn:Hd; [|discriminate].
  exists a, b, d.
  rewrite !spec_final_cell by (vm_compute; tauto).
  rewrite spec_final_sum_cell, (sum_column_nth _ _ _ a b Ha Hb).
  unfold sum_cell. rewrite Hd. repeat split; assumption.
Qed.

Lemma names_spec_final (df : DataFrame) :
  names (spec_final df)
  = [ "Beauty and Health"; "Free Time"; "Games"; "Education"; "Images"; "Edu+Img";
      "Kids"; "Light"; "Music"; "News"; "Sports" ].
Proof. reflexivity. Qed.

(** What [add_edu_img] has done when it returns a frame with a column
    "Edu+Img" that the frame it was given did not have. *)
Lemma add_edu_img_spec (o out : OutFrame) (log : list message) :
  add_edu_img o = (log, Ok out) ->
  ~ In "Edu+Img" (names o) ->
  In "Edu+Img" (names out) ->
  (exists pre post,
      names o = pre ++ "Images" :: post
      /\ names out = pre ++ "Images" :: "Edu+Img" :: post)
  /\ (forall metric a b,
        cell_at out metric "Education" = Some a ->
        cell_at out metric "Images" = Some b ->
        exists d, cell_add a b = Ok d /\ cell_at out metric "Edu+Img" = Some d)
  /\ (forall metric x y,
        cell_at out metric "Education" = Some (Num x) ->
        cell_at out metric "Images" = Some (Num y) ->
        cell_at out metric "Edu+Img" = Some (Num (x + y))).
Proof.
  intros Hrun Hfresh Hnew.
  assert (Hshape : exists e i v,
             column "Education" o = Some e /\ column "Images" o = Some i
             /\ series_add e i = Ok v
             /\ out = with_column_after (get_loc "Images" (names o)) "Edu+Img" v o).
  { unfold add_edu_img in Hrun.
    destruct (mem "Education" (names o) && mem "Images" (names o)) eqn:Hmem.
    - destruct (column "Education" o) as [e|] eqn:He;
        [|destruct (column "Images" o); discriminate].
      destruct (column "Images" o) as [i|] eqn:Hi; [|discriminate].
      destruct (series_add e i) as [v|] eqn:Hv; [|discriminate].
      exists e, i, v.
      split; [reflexivity|]. split; [reflexivity|]. split; [exact Hv|].
      unfold lift, bind, print, insert in Hrun. simpl in Hrun.
      apply mem_not_In in Hfresh. rewrite Hfresh in Hrun.
      injection Hrun as _ <-. reflexivity.
    - unfold bind, print, ret in Hrun. simpl in Hrun.
      injection Hrun as _ <-. contradiction. }
  destruct Hshape as [e [i [v [He [Hi [Hv ->]]]]]].
  assert (Himg : In "Images" (names o)).
  { destruct (in_dec string_dec "Images" (names o)) as [H|H]; [exact H|].
    apply lookup_None in H. unfold column in Hi. congruence. }
  assert (Hcells : forall metric a b,
             cell_at (with_column_after (get_loc "Images" (names o)) "Edu+Img" v o)
                     metric "Education" = Some a ->
             cell_at (with_column_after (get_loc "Images" (names o)) "Edu+Img" v o)
                     metric "Images" = Some b ->
             exists d, cell_add a b = Ok d
               /\ cell_at (with_column_after (get_loc "Images" (names o)) "Edu+Img" v o)
                          metric "Edu+Img" = Some d).
  { intros metric a b Ha Hb. unfold cell_at in *.
    rewrite column_with_column_after in Ha, Hb by discriminate.
    rewrite column_with_column_after_new by assumption.
    rewrite He in Ha. rewrite Hi in Hb. simpl index in *.
    now apply (series_add_nth e i v Hv _ a b). }
  split; [|split].
  - exists (firstn (get_loc "Images" (names o)) (names o)),
           (skipn (get_loc "Images" (names o) + 1) (names o)).
    destruct (get_loc_split "Images" (names o) Himg) as [H1 H2].
    split; [exact H2|].
    unfold names at 1, with_column_after. simpl.
    rewrite map_app. simpl. rewrite <- firstn_map, <- skipn_map.
    fold (names o). rewrite H1, <- app_assoc. reflexivity.
  - exact Hcells.
  - intros metric x y Ha Hb.
    destruct (Hcells metric _ _ Ha Hb) as [d [Hd Hcell]].
    simpl in Hd. injection Hd as <-. exact Hcell.
Qed.


End CategoryTransform.

(* ================================================================== *)
(** * The services transform *)

Section ServicesTransform.

Import Services Spec.

Lemma dict_get_set (k k' : cell) (v : list cell) (d : TFrame) :
  dict_get k (dict_set k' v d) = if cell_eqb k k' then Some v else dict_get k d.
Proof.
  induction d as [|[k2 v2] d IH]; simpl.
  - reflexivity.
  - destruct (cell_eqb k' k2) eqn:E; simpl.
    + rewrite (cell_eqb_trans k' k2 k E). now destruct (cell_eqb k k2).
    + rewrite IH. destruct (cell_eqb k k2) eqn:E2; [|reflexivity].
      destruct (cell_eqb k k') eqn:E3; [|reflexivity].
      rewrite <- (cell_eqb_trans k k2 k' E2) in E.
      rewrite cell_eqb_sym in E. congruence.
Qed.

Lemma getitems_spec (cols : list string) (row : list cell) (mc : list string) :
  getitems cols row mc
  = match first_missing cols mc with
    | None => Ok (map (series_get cols row) mc)
    | Some m => Raise (KeyError m)
    end.
Proof.
  unfold first_missing. induction mc as [|m mc IH]; simpl; [reflexivity|].
  destruct (mem m cols); simpl; [|reflexivity].
  rewrite IH. now destruct (find _ mc).
Qed.

Lemma first_missing_none (cols mc : list string) :
  incl mc cols -> first_missing cols mc = None.
Proof.
  intros Hin. unfold first_missing.
  destruct (find _ mc) as [m|] eqn:E; [|reflexivity].
  apply find_some in E. destruct E as [Hm E].
  apply Hin, mem_In in Hm. rewrite Hm in E. discriminate.
Qed.

Lemma first_missing_some (cols mc : list string) (m : string) :
  first_missing cols mc = Some m -> In m mc /\ ~ In m cols.
Proof.
  unfold first_missing. intros E. apply find_some in E. destruct E as [Hm E].
  split; [exact Hm|]. intros Hc. apply mem_In in Hc. rewrite Hc in E. discriminate.
Qed.

Lemma getitems_ok (cols : list string) (row : list cell) (mc : list string) :
  incl mc cols -> getitems cols row mc = Ok (map (series_get cols row) mc).
Proof. intros H. now rewrite getitems_spec, first_missing_none. Qed.

(** Two keys that are equal select the same records. *)
Lemma first_service_row_eqb (df : DataFrame) (s s' : cell) :
  cell_eqb s s' = true -> first_service_row df s = first_service_row df s'.
Proof.
  intros H. unfold first_service_row.
  induction (rows df) as [|r rs IH]; simpl; [reflexivity|].
  now rewrite (cell_eqb_trans s s' _ H), IH.
Qed.

Lemma service_values_eqb (df : DataFrame) (mc : list string) (s s' : cell) :
  cell_eqb s s' = true -> service_values df mc s = service_values df mc s'.
Proof. intros H. unfold service_values. now rewrite (first_service_row_eqb df s s' H). Qed.

Lemma first_service_row_key (df : DataFrame) (s : cell) (row : list cell) :
  first_service_row df s = Some row ->
  In row (rows df) /\ cell_eqb (key_of df row) s = true.
Proof. unfold first_service_row. intros H. now apply find_some in H. Qed.

Lemma add_service_found (df : DataFrame) (mc : list string) (s : cell) (t : TFrame)
  (row : list cell) :
  In service_col (columns df) ->
  incl mc (columns df) ->
  first_service_row df s = Some row ->
  add_service df mc s t = ([], Ok (dict_set s (service_values df mc s) t)).
Proof.
  intros Hk Hmc Hf. unfold add_service, select_eq, service_values. rewrite Hf.
  apply mem_In in Hk. rewrite Hk. unfold first_service_row in Hf.
  rewrite filter_head_find in Hf. simpl.
  destruct (filter _ (rows df)) as [|r rs]; [discriminate|].
  simpl in Hf. injection Hf as ->. rewrite getitems_ok by assumption. reflexivity.
Qed.

(** With a metric that is no column the first round already raises
    [KeyError]. *)
Lemma add_service_no_column (df : DataFrame) (mc : list string) (s : cell) (t : TFrame)
  (row : list cell) (m : string) :
  In service_col (columns df) ->
  first_missing (columns df) mc = Some m ->
  first_service_row df s = Some row ->
  add_service df mc s t = ([], Raise (KeyError m)).
Proof.
  intros Hk Hm Hf. unfold add_service, select_eq.
  apply mem_In in Hk. rewrite Hk. unfold first_service_row in Hf.
  rewrite filter_head_find in Hf. simpl.
  destruct (filter _ (rows df)) as [|r rs]; [discriminate|].
  rewrite getitems_spec, Hm. reflexivity.
Qed.

Lemma add_service_missing (df : DataFrame) (mc : list string) (s : cell) (t : TFrame) :
  In service_col (columns df) ->
  first_service_row df s = None ->
  add_service df mc s t = ([], Raise IndexError).
Proof.
  intros Hk Hf. unfold add_service, select_eq.
  apply mem_In in Hk. rewrite Hk. unfold first_service_row in *.
  rewrite filter_head_find in Hf.
  destruct (filter _ (rows df)) as [|r rs]; [reflexivity | discriminate].
Qed.

(** Each round stores the values of the first record of its service,
    and leaves the other keys alone. *)
Lemma services_loop (df : DataFrame) (mc : list string) (ss : list cell) :
  In service_col (columns df) ->
  incl mc (columns df) ->
  (forall s, In s ss -> exists row, first_service_row df s = Some row) ->
  forall t, exists t',
    for_each ss (add_service df mc) t = ([], Ok t')
    /\ (forall s, In s ss -> dict_get s t' = Some (service_values df mc s))
    /\ (forall k, (forall s, In s ss -> cell_eqb k s = false) ->
                  dict_get k t' = dict_get k t).
Proof.
  intros Hk Hmc. induction ss as [|s ss IH]; intros Hall t.
  - exists t. simpl. split; [reflexivity|]. split; [intros s []|reflexivity].
  - destruct (Hall s (or_introl eq_refl)) as [row Hrow].
    destruct (IH (fun s' H => Hall s' (or_intror H))
                 (dict_set s (service_values df mc s) t)) as [t' [Hrun [Hin Hout]]].
    exists t'. simpl. rewrite (add_service_found df mc s t row Hk Hmc Hrow).
    unfold bind. rewrite Hrun. split; [reflexivity|]. split.
    + intros s' [<-|Hs']; [|now apply Hin].
      destruct (existsb (cell_eqb s) ss) eqn:E.
      * apply existsb_exists in E. destruct E as [s2 [H2 E2]].
        rewrite (service_values_eqb df mc s s2 E2), <- (Hin s2 H2).
        clear - E2 Hin. revert E2. generalize t'. intros d E2.
        induction d as [|[k v] d IHd]; simpl; [reflexivity|].
        rewrite (cell_eqb_sym s k), (cell_eqb_sym s2 k).
        rewrite (cell_eqb_trans s s2 k E2). now rewrite IHd.
      * rewrite Hout.
        -- rewrite dict_get_set, cell_eqb_refl; [reflexivity|].
           apply first_service_row_key in Hrow. destruct Hrow as [_ Hrow].
           now apply cell_eqb_filled in Hrow.
        -- intros s2 H2. destruct (cell_eqb s s2) eqn:E2; [|reflexivity].
           assert (existsb (cell_eqb s) ss = true)
             by (apply existsb_exists; eauto). congruence.
    + intros k Hk'. rewrite Hout by (intros; apply Hk'; now right).
      rewrite dict_get_set, (Hk' s) by now left. reflexivity.
Qed.

Lemma first_service_row_exists (df : DataFrame) (row : list cell) :
  In row (rows df) -> isna (key_of df row) = false ->
  exists row', first_service_row df (key_of df row) = Some row'.
Proof.
  intros Hr Hn. unfold first_service_row.
  destruct (find _ (rows df)) as [r|] eqn:E; [eauto|].
  apply (find_none _ _ E) in Hr. unfold key_of in *.
  rewrite cell_eqb_refl in Hr by assumption. discriminate.
Qed.

(** [transform_data] on a sheet whose key cells are all filled. *)
Lemma transform_data_spec (df : DataFrame) (mc : list string) :
  In service_col (columns df) ->
  incl mc (columns df) ->
  (forall row, In row (rows df) -> isna (key_of df row) = false) ->
  exists t,
    transform_data df mc = ([], Ok t)
    /\ forall row, In row (rows df) ->
         dict_get (key_of df row) t = Some (service_values df mc (key_of df row)).
Proof.
  intros Hk Hmc Hfilled. unfold transform_data, tolist.
  apply mem_In in Hk as Hm. rewrite Hm. unfold lift, bind.
  destruct (services_loop df mc (map (key_of df) (rows df)) Hk Hmc) with
    (t := [(Str service_col, map Str mc)]) as [t [Hrun [Hin _]]].
  - intros s Hs. apply in_map_iff in Hs. destruct Hs as [row [<- Hr]].
    apply first_service_row_exists; auto.
  - exists t. unfold key_of in *. rewrite Hrun. split; [reflexivity|].
    intros row Hr. apply Hin. apply in_map_iff. eauto.
Qed.

End ServicesTransform.

(* ================================================================== *)
(** * The output structure of the services report *)

Section OutputStructure.

Import Services Spec.

Lemma dict_get_take (k : cell) (pos : list nat) (df : TFrame) :
  dict_get k (take pos df)
  = option_map (fun v => map (fun i => nth i v NaN) pos) (dict_get k df).
Proof.
  induction df as [|[k' v] df IH]; simpl; [reflexivity|].
  destruct (cell_eqb k k'); [reflexivity | exact IH].
Qed.

Lemma dict_get_drop (l k : cell) (df : TFrame) :
  cell_eqb l k = false -> dict_get k (drop l df) = dict_get k df.
Proof.
  intros Hlk. induction df as [|[k' v] df IH]; simpl; [reflexivity|].
  destruct (cell_eqb l k') eqn:E; simpl.
  - rewrite IH. destruct (cell_eqb k k') eqn:E2; [|reflexivity].
    rewrite (cell_eqb_trans k k' l E2) in Hlk. congruence.
  - destruct (cell_eqb k k'); [reflexivity | exact IH].
Qed.

Lemma dict_get_dropped (l : cell) (df : TFrame) : dict_get l (drop l df) = None.
Proof.
  induction df as [|[k v] df IH]; simpl; [reflexivity|].
  destruct (cell_eqb l k) eqn:E; simpl; [exact IH | now rewrite E].
Qed.

Lemma dict_get_prepared (mo : list string) (names : list cell) (df : TFrame)
  (c : string) :
  c <> "_sort_order" ->
  dict_get (Str c) (prepared mo names df)
  = option_map (arranged mo names) (dict_get (Str c) df).
Proof.
  intros Hc. unfold prepared.
  rewrite dict_get_drop
    by (rewrite cell_eqb_Str; apply String.eqb_neq; congruence).
  rewrite dict_get_take, dict_get_set, cell_eqb_Str.
  apply String.eqb_neq in Hc. rewrite Hc.
  rewrite dict_get_take. now destruct (dict_get (Str c) df).
Qed.

Lemma dict_get_prepared_sort_order (mo : list string) (names : list cell)
  (df : TFrame) :
  dict_get (Str "_sort_order") (prepared mo names df) = None.
Proof. unfold prepared. apply dict_get_dropped. Qed.

Lemma apply_output_structure_eq (df : TFrame) (mo so : list string)
  (names : list cell) :
  dict_get (Str service_col) df = Some names ->
  apply_output_structure df mo so
  = ([], select (service_col :: so) (prepared mo names df)).
Proof.
  intros Hn. unfold apply_output_structure, getitem.
  rewrite Hn. unfold lift, bind. rewrite dict_get_take, Hn. simpl.
  reflexivity.
Qed.

(** [df[column_order]] returns exactly when every label is a column, and
    then the columns are the labels asked for, in that order. *)
Lemma select_ok (order : list string) (df : TFrame) :
  (forall c, In c order -> dict_get (Str c) df <> None) ->
  exists out, select order df = Ok out
    /\ labels out = map Str order
    /\ forall c, In c order -> dict_get (Str c) out = dict_get (Str c) df.
Proof.
  induction order as [|c order IH]; intros Hall; simpl.
  - exists []. repeat split. intros c [].
  - destruct (dict_get (Str c) df) as [v|] eqn:E.
    2:{ exfalso. apply (Hall c); [now left | assumption]. }
    destruct IH as [out [Hsel [Hlab Hget]]].
    { intros c' H'. apply Hall. now right. }
    rewrite Hsel. exists ((Str c, v) :: out). split; [reflexivity|].
    split; [simpl; now rewrite Hlab|].
    intros c' Hc'. simpl.
    destruct (String.eqb c' c) eqn:E'.
    + apply String.eqb_eq in E'. subst. now rewrite E.
    + destruct Hc' as [->|Hc']; [now rewrite String.eqb_refl in E' | now apply Hget].
Qed.

Lemma select_missing (order : list string) (df : TFrame) (c : string) :
  In c order -> dict_get (Str c) df = None ->
  exists k, select order df = Raise (KeyError k).
Proof.
  induction order as [|c' order IH]; simpl; [intros []|].
  intros Hin Hc. destruct (dict_get (Str c') df) as [v|] eqn:E; [|eauto].
  destruct Hin as [->|Hin]; [congruence|].
  destruct (IH Hin Hc) as [k Hk]. rewrite Hk. eauto.
Qed.

(** Every row of the arranged first column is one of the frame's rows
    that [isin] keeps. *)
Lemma where_true_spec (mask : list bool) (i j : nat) :
  In j (where_true mask i) -> i <= j /\ nth (j - i) mask false = true.
Proof.
  revert i. induction mask as [|b mask IH]; intros i; simpl; [intros []|].
  destruct b; simpl.
  - intros [<-|H].
    + rewrite Nat.sub_diag. split; [lia | reflexivity].
    + apply IH in H. destruct H as [H1 H2]. split; [lia|].
      replace (j - i) with (S (j - S i)) by lia. exact H2.
  - intros H. apply IH in H. destruct H as [H1 H2]. split; [lia|].
    replace (j - i) with (S (j - S i)) by lia. exact H2.
Qed.

Lemma arranged_names_in (mo : list string) (names : list cell) (x : cell) :
  In x (arranged mo names names) -> x = NaN \/ (In x names /\ isin x mo = true).
Proof.
  unfold arranged. intros H. apply in_map_iff in H. destruct H as [i [<- _]].
  set (kept := where_true (map (fun c => isin c mo) names) 0).
  destruct (nth_in_or_default i (map (fun j => nth j names NaN) kept) NaN) as [H|H];
    [|now left].
  apply in_map_iff in H. destruct H as [j [Hj Hin]]. rewrite <- Hj.
  apply where_true_spec in Hin. destruct Hin as [_ Hin].
  rewrite Nat.sub_0_r in Hin.
  destruct (Nat.lt_ge_cases j (length names)) as [Hlt|Hge].
  - right. split; [now apply nth_In|].
    rewrite (nth_indep _ false ((fun c => isin c mo) NaN)) in Hin
      by now rewrite length_map.
    rewrite (map_nth (fun c => isin c mo)) in Hin. exact Hin.
  - rewrite nth_overflow in Hin by now rewrite length_map. discriminate.
Qed.

(** The services table for a frame that has every column asked for. *)
Lemma apply_output_structure_ok (t : TFrame) (mo so : list string) (names : list cell) :
  dict_get (Str service_col) t = Some names ->
  (forall s, In s so -> s <> "_sort_order" /\ dict_get (Str s) t <> None) ->
  exists out,
    apply_output_structure t mo so = ([], Ok out)
    /\ labels out = Str service_col :: map Str so
    /\ row_labels out = arranged mo names names
    /\ forall s, In s so ->
         dict_get (Str s) out = option_map (arranged mo names) (dict_get (Str s) t).
Proof.
  intros Hn Hall. rewrite (apply_output_structure_eq t mo so names Hn).
  destruct (select_ok (service_col :: so) (prepared mo names t)) as [out [Hs [Hl Hg]]].
  - intros c [<-|Hc].
    + rewrite dict_get_prepared by discriminate. rewrite Hn. discriminate.
    + destruct (Hall c Hc) as [Hne Hsome].
      rewrite dict_get_prepared by assumption.
      destruct (dict_get (Str c) t); [discriminate | contradiction].
  - exists out. rewrite Hs. split; [reflexivity|]. split; [exact Hl|]. split.
    + unfold row_labels. rewrite Hg by now left.
      rewrite dict_get_prepared by discriminate. now rewrite Hn.
    + intros s Hs'. rewrite Hg by now right.
      apply dict_get_prepared. now apply Hall.
Qed.

(** A service the frame has no column for stops the run with
    [KeyError]. *)
Lemma apply_output_structure_missing (t : TFrame) (mo so : list string) (s : string) :
  In s so -> dict_get (Str s) t = None ->
  exists k, apply_output_structure t mo so = ([], Raise (KeyError k)).
Proof.
  intros Hin Hs. destruct (dict_get (Str service_col) t) as [names|] eqn:Hn.
  - rewrite (apply_output_structure_eq t mo so names Hn).
    destruct (select_missing (service_col :: so) (prepared mo names t) s) as [k Hk].
    + now right.
    + destruct (string_dec s "_sort_order") as [->|Hne].
      * apply dict_get_prepared_sort_order.
      * rewrite dict_get_prepared by assumption. now rewrite Hs.
    + exists k. now rewrite Hk.
  - exists service_col. unfold apply_output_structure, getitem. now rewrite Hn.
Qed.

End OutputStructure.

(* ================================================================== *)
(** * The row order of the services report *)

Section RowOrder.

Import Services Spec.

Lemma take_where_true {A} (p : A -> bool) (d : A) (pre l : list A) :
  map (fun i => nth i (pre ++ l) d) (where_true (map p l) (length pre))
  = filter p l.
Proof.
  revert pre. induction l as [|a l IH]; intros pre; simpl; [reflexivity|].
  assert (Hshift : pre ++ a :: l = (pre ++ [a]) ++ l) by now rewrite <- app_assoc.
  assert (Hlen : S (length pre) = length (pre ++ [a]))
    by (rewrite length_app; simpl; lia).
  destruct (p a); simpl.
  - rewrite nth_middle. f_equal. rewrite Hshift, Hlen. apply IH.
  - rewrite Hshift, Hlen. apply IH.
Qed.

Lemma take_where_true_0 {A} (p : A -> bool) (d : A) (l : list A) :
  map (fun i => nth i l d) (where_true (map p l) 0) = filter p l.
Proof. exact (take_where_true p d [] l). Qed.

Lemma insert_sorted_map {A B} (g : A -> B) (x : A * option nat)
  (l : list (A * option nat)) :
  map (fun p => (g (fst p), snd p)) (insert_sorted x l)
  = insert_sorted (g (fst x), snd x) (map (fun p => (g (fst p), snd p)) l).
Proof.
  induction l as [|y l IH]; simpl; [reflexivity|].
  destruct (key_leb (snd y) (snd x)); simpl; [now rewrite IH | reflexivity].
Qed.

Lemma fold_insert_map {A B} (g : A -> B) (xs acc : list (A * option nat)) :
  map (fun p => (g (fst p), snd p)) (fold_left (fun acc x => insert_sorted x acc) xs acc)
  = fold_left (fun acc x => insert_sorted x acc)
      (map (fun p => (g (fst p), snd p)) xs)
      (map (fun p => (g (fst p), snd p)) acc).
Proof.
  revert acc. induction xs as [|x xs IH]; intros acc; simpl; [reflexivity|].
  rewrite IH, insert_sorted_map. reflexivity.
Qed.

Lemma combine_positions {A} (f : A -> option nat) (d : A) (pre l : list A) :
  map (fun p => (nth (fst p) (pre ++ l) d, snd p))
      (combine (seq (length pre) (length l)) (map f l))
  = map (fun c => (c, f c)) l.
Proof.
  revert pre. induction l as [|a l IH]; intros pre; simpl; [reflexivity|].
  rewrite nth_middle. f_equal.
  assert (Hshift : pre ++ a :: l = (pre ++ [a]) ++ l) by now rewrite <- app_assoc.
  assert (Hlen : S (length pre) = length (pre ++ [a]))
    by (rewrite length_app; simpl; lia).
  rewrite Hshift, Hlen. apply IH.
Qed.

Lemma combine_positions_0 {A} (f : A -> option nat) (d : A) (l : list A) :
  map (fun p => (nth (fst p) l d, snd p)) (combine (seq 0 (length l)) (map f l))
  = map (fun c => (c, f c)) l.
Proof. exact (combine_positions f d [] l). Qed.

(** Sorting positions by key and reading the labels there is sorting the
    labels by key. *)
Lemma argsort_labels (f : cell -> option nat) (l : list cell) :
  map (fun i => nth i l NaN) (argsort (map f l))
  = map fst (fold_left (fun acc x => insert_sorted x acc)
                       (map (fun c => (c, f c)) l) []).
Proof.
  unfold argsort. rewrite length_map.
  pose proof (fold_insert_map (fun i => nth i l NaN)
                (combine (seq 0 (length l)) (map f l)) []) as H.
  cbv beta in H. rewrite combine_positions_0 in H. simpl in H. rewrite <- H.
  rewrite !map_map. reflexivity.
Qed.

Lemma arranged_names (mo : list string) (names : list cell) :
  arranged mo names names
  = map fst (fold_left (fun acc x => insert_sorted x acc)
               (map (keyed mo) (filter (fun c => isin c mo) names)) []).
Proof.
  unfold arranged.
  rewrite (take_where_true_0 (fun c => isin c mo) NaN names).
  apply argsort_labels.
Qed.

Lemma key_leb_total (a b : option nat) : key_leb a b = false -> key_leb b a = true.
Proof.
  destruct a, b; simpl; try congruence.
  intros H. apply Nat.leb_gt in H. apply Nat.leb_le. lia.
Qed.

Lemma key_leb_trans (a b c : option nat) :
  key_leb a b = true -> key_leb b c = true -> key_leb a c = true.
Proof.
  destruct a, b, c; simpl; try congruence.
  intros H1 H2. apply Nat.leb_le in H1, H2. apply Nat.leb_le. lia.
Qed.

Lemma insert_sorted_perm {A} (x : A * option nat) (l : list (A * option nat)) :
  Permutation (insert_sorted x l) (x :: l).
Proof.
  induction l as [|y l IH]; simpl; [reflexivity|].
  destruct (key_leb (snd y) (snd x)); [|reflexivity].
  rewrite IH. apply perm_swap.
Qed.

Lemma fold_insert_perm {A} (xs acc : list (A * option nat)) :
  Permutation (fold_left (fun acc x => insert_sorted x acc) xs acc) (xs ++ acc).
Proof.
  revert acc. induction xs as [|x xs IH]; intros acc; simpl; [reflexivity|].
  rewrite IH, insert_sorted_perm. apply Permutation_sym, Permutation_middle.
Qed.

Lemma insert_sorted_sorted {A} (x : A * option nat) (l : list (A * option nat)) :
  StronglySorted key_le l -> StronglySorted key_le (insert_sorted x l).
Proof.
  induction l as [|y l IH]; intros Hs; simpl.
  - constructor; constructor.
  - inversion Hs as [|? ? Hs' Hy]; subst.
    destruct (key_leb (snd y) (snd x)) eqn:E.
    + constructor; [now apply IH|].
      apply Forall_forall. intros z Hz.
      apply (Permutation_in _ (insert_sorted_perm x l)) in Hz.
      destruct Hz as [<-|Hz]; [exact E|].
      rewrite Forall_forall in Hy. now apply Hy.
    + apply key_leb_total in E. constructor; [assumption|].
      constructor; [exact E|].
      rewrite Forall_forall in Hy |- *. intros z Hz.
      unfold key_le. eapply key_leb_trans; [exact E | now apply Hy].
Qed.

Lemma fold_insert_sorted {A} (xs acc : list (A * option nat)) :
  StronglySorted key_le acc ->
  StronglySorted key_le (fold_left (fun acc x => insert_sorted x acc) xs acc).
Proof.
  revert acc. induction xs as [|x xs IH]; intros acc Hs; simpl; [assumption|].
  apply IH. now apply insert_sorted_sorted.
Qed.

(** A list sorted strictly and a sorted list with the same elements are
    the same list. *)
Lemma sorted_unique {A} (l1 l2 : list (A * option nat)) :
  Permutation l1 l2 ->
  StronglySorted key_lt l1 -> StronglySorted key_le l2 -> l1 = l2.
Proof.
  revert l2. induction l1 as [|a l1 IH]; intros l2 Hp H1 H2.
  - apply Permutation_nil in Hp. now subst.
  - destruct l2 as [|b l2].
    { apply Permutation_sym, Permutation_nil in Hp. discriminate. }
    inversion H1 as [|? ? H1' Ha]; subst.
    inversion H2 as [|? ? H2' Hb]; subst.
    assert (Hab : a = b).
    { assert (Hin_a : In a (b :: l2))
        by (apply (Permutation_in _ Hp); now left).
      assert (Hin_b : In b (a :: l1))
        by (apply (Permutation_in _ (Permutation_sym Hp)); now left).
      destruct Hin_a as [->|Hin_a]; [reflexivity|].
      destruct Hin_b as [->|Hin_b]; [reflexivity|].
      rewrite Forall_forall in Ha, Hb.
      pose proof (Ha b Hin_b) as Hlt. pose proof (Hb a Hin_a) as Hle.
      unfold key_lt, key_le in *. congruence. }
    subst b. f_equal. apply IH; try assumption.
    now apply Permutation_cons_inv in Hp.
Qed.

Lemma metric_order_map_absent (m : string) (mo : list string) :
  ~ In m mo -> metric_order_map m mo = None.
Proof.
  induction mo as [|x mo IH]; simpl; [reflexivity|]. intros H.
  rewrite IH by tauto.
  destruct (String.eqb m x) eqn:E; [|reflexivity].
  apply String.eqb_eq in E. subst. tauto.
Qed.

Lemma metric_order_map_present (m : string) (mo : list string) :
  In m mo -> exists i, metric_order_map m mo = Some i.
Proof.
  induction mo as [|x mo IH]; simpl; [intros []|]. intros H.
  destruct (metric_order_map m mo) as [i|] eqn:E; [eauto|].
  destruct H as [->|H]; [rewrite String.eqb_refl; eauto|].
  destruct (IH H) as [i Hi]. discriminate.
Qed.

(** The tracked metrics, each with its key, are sorted strictly when the
    list has no repetition; so is every selection of them. *)
Lemma keyed_metrics_sorted (q : string -> bool) (mo : list string) :
  NoDup mo ->
  StronglySorted key_lt (map (fun m => keyed mo (Str m)) (filter q mo)).
Proof.
  induction mo as [|x mo IH]; intros Hnd; simpl; [constructor|].
  inversion Hnd as [|? ? Hx Hnd']; subst.
  assert (Htail : map (fun m => keyed (x :: mo) (Str m)) (filter q mo)
                  = map (fun p => (fst p, option_map S (snd p)))
                        (map (fun m => keyed mo (Str m)) (filter q mo))).
  { rewrite map_map. apply map_ext_in. intros m Hm.
    apply filter_In in Hm. destruct Hm as [Hm _].
    unfold keyed. simpl. destruct (metric_order_map_present m mo Hm) as [i Hi].
    now rewrite Hi. }
  assert (Hsorted : StronglySorted key_lt
                      (map (fun m => keyed (x :: mo) (Str m)) (filter q mo))).
  { rewrite Htail. clear Htail. specialize (IH Hnd').
    induction IH as [|p l Hl IHl Hp]; simpl; [constructor|].
    constructor; [assumption|].
    rewrite Forall_forall in Hp |- *. intros z Hz.
    apply in_map_iff in Hz. destruct Hz as [z' [<- Hz']].
    specialize (Hp z' Hz'). unfold key_lt in *. simpl.
    destruct (snd z'), (snd p); simpl in *; congruence. }
  destruct (q x); [|exact Hsorted].
  simpl. constructor; [exact Hsorted|].
  apply Forall_forall. intros z Hz. apply in_map_iff in Hz.
  destruct Hz as [m [<- Hm]]. apply filter_In in Hm. destruct Hm as [Hm _].
  unfold key_lt, keyed. simpl.
  rewrite (metric_order_map_absent x mo Hx), String.eqb_refl.
  destruct (metric_order_map_present m mo Hm) as [i Hi]. now rewrite Hi.
Qed.

Lemma present_In (names : list cell) (m : string) :
  present names m = true <-> In (Str m) names.
Proof.
  unfold present. rewrite existsb_exists. split.
  - intros [x [Hx He]]. apply cell_eqb_Str_l in He. now subst.
  - intros H. exists (Str m). split; [assumption | apply String.eqb_refl].
Qed.

Lemma isin_spec (c : cell) (mo : list string) :
  isin c mo = true <-> exists m, c = Str m /\ In m mo.
Proof.
  destruct c as [z|s]; simpl.
  - split; [discriminate | intros [m [H _]]; discriminate].
  - rewrite mem_In. split; [eauto | intros [m [H Hm]]; now injection H as ->].
Qed.

Lemma NoDup_map_Str (l : list string) : NoDup l -> NoDup (map Str l).
Proof.
  induction 1 as [|x l Hx Hl IH]; simpl; constructor; [|assumption].
  rewrite in_map_iff. intros [y [Hy Hin]]. injection Hy as ->. contradiction.
Qed.

Lemma kept_permutation (mo : list string) (names : list cell) :
  NoDup mo -> NoDup names ->
  Permutation (map Str (filter (present names) mo))
              (filter (fun c => isin c mo) names).
Proof.
  intros Hmo Hnames. apply NoDup_Permutation.
  - now apply NoDup_map_Str, NoDup_filter.
  - now apply NoDup_filter.
  - intros x. rewrite in_map_iff, filter_In, isin_spec. split.
    + intros [m [<- Hm]]. apply filter_In in Hm. destruct Hm as [Hm Hp].
      apply present_In in Hp. eauto.
    + intros [Hx [m [-> Hm]]]. exists m. split; [reflexivity|].
      apply filter_In. split; [assumption | now apply present_In].
Qed.

(** The rows of the services report are the tracked metrics the sheet
    has, in the order of [metric_order]. *)
Lemma arranged_names_eq (mo : list string) (names : list cell) :
  NoDup mo -> NoDup names ->
  arranged mo names names = map Str (filter (present names) mo).
Proof.
  intros Hmo Hnames. rewrite arranged_names.
  rewrite <- (sorted_unique
                (map (fun m => keyed mo (Str m)) (filter (present names) mo))
                (fold_left (fun acc x => insert_sorted x acc)
                   (map (keyed mo) (filter (fun c => isin c mo) names)) [])).
  - rewrite map_map. reflexivity.
  - rewrite fold_insert_perm, app_nil_r.
    rewrite <- (map_map Str (keyed mo)).
    apply Permutation_map. now apply kept_permutation.
  - now apply keyed_metrics_sorted.
  - apply fold_insert_sorted. constructor.
Qed.

Lemma filter_length_all {A} (p : A -> bool) (l : list A) :
  length (filter p l) = length l <-> forall x, In x l -> p x = true.
Proof.
  induction l as [|a l IH]; simpl; [tauto|].
  pose proof (filter_length_le p l) as Hle.
  destruct (p a) eqn:E; simpl.
  - split.
    + intros H x [<-|Hx]; [assumption|]. apply IH; [lia | assumption].
    + intros H. f_equal. apply IH. intros x Hx. apply H. now right.
  - split; [lia|]. intros H. rewrite (H a) in E by now left. discriminate.
Qed.

End RowOrder.

(* ================================================================== *)
(** * Paths *)

Section Paths.

Import PathLib.

Lemma split_slash_no_slash (s : string) :
  Forall (fun x => has_slash x = false) (split_slash s).
Proof.
  induction s as [|c t IH]; simpl.
  - constructor; [reflexivity | constructor].
  - destruct (Ascii.eqb c "/") eqn:E.
    + constructor; [reflexivity | assumption].
    + destruct (split_slash t) as [|h r].
      * constructor; [simpl; now rewrite E | constructor].
      * inversion IH as [|? ? Hh Hr]; subst.
        constructor; [simpl; now rewrite E | assumption].
Qed.

Lemma split_slash_whole (s : string) : has_slash s = false -> split_slash s = [s].
Proof.
  induction s as [|c t IH]; simpl; [reflexivity|].
  destruct (Ascii.eqb c "/"); simpl; [discriminate|].
  intros H. now rewrite IH.
Qed.

Lemma has_slash_app (a b : string) :
  has_slash (a ++ b) = has_slash a || has_slash b.
Proof.
  induction a as [|c a IH]; simpl; [reflexivity|].
  rewrite IH. now rewrite orb_assoc.
Qed.

Lemma has_slash_substring (n m : nat) (s : string) :
  has_slash s = false -> has_slash (substring n m s) = false.
Proof.
  revert n m. induction s as [|c t IH]; intros [|n] [|m] H; simpl in *;
    try reflexivity; apply orb_false_iff in H; destruct H as [Hc Ht].
  - rewrite Hc. simpl. now apply IH.
  - now apply IH.
  - now apply IH.
Qed.

Lemma name_no_slash (s : string) : has_slash (name (parse s)) = false.
Proof.
  unfold name, parse. simpl.
  assert (H : Forall (fun x => has_slash x = false)
                     (filter is_component (split_slash s))).
  { apply Forall_forall. intros x Hx. apply filter_In in Hx. destruct Hx as [Hx _].
    pose proof (split_slash_no_slash s) as Hall. rewrite Forall_forall in Hall.
    now apply Hall. }
  induction H as [|x l Hx Hl IH]; [reflexivity|].
  destruct l; [exact Hx | exact IH].
Qed.

Lemma stem_no_slash (s : string) : has_slash (stem (parse s)) = false.
Proof.
  unfold stem. destruct (suffix_start _).
  - apply has_slash_substring, name_no_slash.
  - apply name_no_slash.
Qed.

Lemma length_app_string (a b : string) :
  String.length (a ++ b) = String.length a + String.length b.
Proof. induction a as [|c a IH]; simpl; [reflexivity | now rewrite IH]. Qed.

Lemma startswith_slash (x : string) :
  has_slash x = false -> startswith "/" x = false.
Proof.
  destruct x as [|c t]; [reflexivity|].
  cbn [has_slash startswith]. intros Hs.
  apply orb_false_iff in Hs. destruct Hs as [Hc _].
  now rewrite Ascii.eqb_sym, Hc.
Qed.

Lemma startswith_two_slashes (x : string) :
  has_slash x = false -> startswith "//" x = false.
Proof.
  destruct x as [|c t]; [reflexivity|].
  cbn [has_slash startswith]. intros Hs.
  apply orb_false_iff in Hs. destruct Hs as [Hc _].
  now rewrite Ascii.eqb_sym, Hc.
Qed.

(** A text without "/" that is not empty and not "." is one component. *)
Lemma parse_component (x : string) :
  has_slash x = false -> is_component x = true -> parse x = mkPath "" [x].
Proof.
  intros Hs Hc. unfold parse. rewrite split_slash_whole by assumption.
  rewrite startswith_slash, startswith_two_slashes by assumption.
  cbn [filter andb]. now rewrite Hc.
Qed.

Lemma output_name_component (a : string) : is_component (a ++ "_output.xlsx") = true.
Proof.
  unfold is_component.
  destruct a as [|c [|c' a]]; try reflexivity.
  - simpl. destruct (Ascii.eqb c "."); reflexivity.
  - simpl. destruct (Ascii.eqb c "."); reflexivity.
Qed.

Lemma rfind_dot_app (a b : string) (i : nat) :
  rfind_dot b = Some i -> rfind_dot (a ++ b) = Some (String.length a + i).
Proof.
  intros H. induction a as [|c a IH]; simpl; [assumption|]. now rewrite IH.
Qed.

Lemma substring_app_tail (a b : string) (n m : nat) :
  substring (String.length a + n) m (a ++ b) = substring n m b.
Proof. induction a as [|c a IH]; simpl; [reflexivity | exact IH]. Qed.

(** The shape of the default output path. *)
Lemma default_output_path_eq (input_file : string) :
  default_output_path input_file
  = mkPath (root (parse input_file))
      (removelast (parts (parse input_file))
         ++ [(stem (parse input_file) ++ "_output.xlsx")%string]).
Proof.
  unfold default_output_path, joinpath.
  rewrite parse_component.
  - reflexivity.
  - rewrite has_slash_app, stem_no_slash. reflexivity.
  - apply output_name_component.
Qed.

Lemma name_with_last (r : string) (l : list string) (x : string) :
  name (mkPath r (l ++ [x])) = x.
Proof. unfold name. simpl. apply last_last. Qed.

Lemma suffix_of_output_name (r : string) (l : list string) (a : string) :
  suffix (mkPath r (l ++ [(a ++ "_output.xlsx")%string])) = ".xlsx".
Proof.
  unfold suffix, suffix_start. rewrite name_with_last.
  rewrite (rfind_dot_app a "_output.xlsx" 7) by reflexivity.
  rewrite length_app_string. simpl String.length.
  replace (Nat.ltb 0 (String.length a + 7)) with true
    by (symmetry; apply Nat.ltb_lt; lia).
  replace (Nat.ltb (String.length a + 7) (String.length a + 12 - 1)) with true
    by (symmetry; apply Nat.ltb_lt; lia).
  simpl andb. cbv iota.
  replace (String.length a + 12 - (String.length a + 7)) with 5 by lia.
  rewrite substring_app_tail. reflexivity.
Qed.

End Paths.


(* ================================================================== *)
(** * The two scripts as wholes *)

Import Category Services Spec Examples.

Ltac nodup := repeat (constructor; [simpl; intuition congruence|]); constructor.


(* ================================================================== *)
(** * The services report, row by row *)

Lemma NoDup_checked (l : list string) :
  (if string_NoDup_dec l then true else false) = true -> NoDup l.
Proof. destruct (string_NoDup_dec l); [trivial | discriminate]. Qed.

Section AlignedRows.

Import Services Spec Report.

Lemma where_true_shift (mask : list bool) (i : nat) :
  where_true mask (S i) = map S (where_true mask i).
Proof.
  revert i. induction mask as [|b mask IH]; intros i; simpl; [reflexivity|].
  destruct b; simpl; now rewrite IH.
Qed.

(** Reading a second column at the kept positions is keeping the pairs. *)
Lemma take_pairs {A B} (p : A -> bool) (d : B) (names : list A) (v : list B) :
  length v = length names ->
  map (fun j => nth j v d) (where_true (map p names) 0)
  = map snd (filter (fun q => p (fst q)) (combine names v)).
Proof.
  revert v. induction names as [|a names IH]; intros [|x v] Hlen; simpl in *;
    try discriminate; try reflexivity.
  rewrite where_true_shift.
  destruct (p a); simpl; rewrite map_map; simpl; rewrite IH by lia; reflexivity.
Qed.

Lemma filter_pairs_fst {A B} (p : A -> bool) (names : list A) (v : list B) :
  length v = length names ->
  map fst (filter (fun q => p (fst q)) (combine names v)) = filter p names.
Proof.
  revert v. induction names as [|a names IH]; intros [|x v] Hlen; simpl in *;
    try discriminate; try reflexivity.
  destruct (p a); simpl; rewrite IH by lia; reflexivity.
Qed.

Lemma combine_map_left {A B C} (f : A -> B) (l : list A) (ks : list C) :
  combine (map f l) ks = map (fun p => (f (fst p), snd p)) (combine l ks).
Proof.
  revert ks. induction l as [|a l IH]; intros [|k ks]; simpl; try reflexivity.
  now rewrite IH.
Qed.

Lemma combine_same {A B C} (f : A -> B) (g : A -> C) (l : list A) :
  combine (map f l) (map g l) = map (fun x => (f x, g x)) l.
Proof. induction l as [|a l IH]; simpl; [reflexivity | now rewrite IH]. Qed.

Lemma combine_positions_any {A} (d : A) (v : list A) (ks : list (option nat)) :
  length v = length ks ->
  map (fun p => (nth (fst p) v d, snd p)) (combine (seq 0 (length ks)) ks)
  = combine v ks.
Proof.
  revert ks. induction v as [|x v IH]; intros [|k ks] Hlen; simpl in *;
    try discriminate; try reflexivity.
  f_equal. rewrite <- seq_shift, combine_map_left, map_map. simpl.
  apply IH. lia.
Qed.

(** Sorting positions by key and reading any column there is sorting
    the column by those keys. *)
Lemma argsort_values (d : cell) (v : list cell) (ks : list (option nat)) :
  length v = length ks ->
  map (fun i => nth i v d) (argsort ks)
  = map fst (fold_left (fun acc x => insert_sorted x acc) (combine v ks) []).
Proof.
  intros Hlen. unfold argsort.
  pose proof (fold_insert_map (fun i => nth i v d)
                (combine (seq 0 (length ks)) ks) []) as H.
  cbv beta in H. rewrite combine_positions_any in H by assumption.
  simpl in H. rewrite <- H. rewrite !map_map. reflexivity.
Qed.

Lemma arranged_column (mo : list string) (names v : list cell) :
  length v = length names ->
  arranged mo names v = map (fun s => snd (fst s)) (kept_sorted mo names v).
Proof.
  intros Hlen. unfold arranged, kept_sorted.
  rewrite (take_pairs (fun c => isin c mo) NaN names v Hlen).
  rewrite (take_where_true_0 (fun c => isin c mo) NaN names).
  rewrite <- (filter_pairs_fst (fun c => isin c mo) names v Hlen).
  set (P := filter (fun q => isin (fst q) mo) (combine names v)).
  rewrite argsort_values by now rewrite !length_map.
  rewrite map_map, combine_same.
  pose proof (fold_insert_map (fun q : cell * cell => snd q)
                (map (fun q => (q, sort_key mo (fst q))) P) []) as H.
  rewrite map_map in H. simpl in H. rewrite <- H.
  rewrite map_map. reflexivity.
Qed.

Lemma arranged_labels (mo : list string) (names v : list cell) :
  length v = length names ->
  arranged mo names names = map (fun s => fst (fst s)) (kept_sorted mo names v).
Proof.
  intros Hlen. rewrite arranged_names. unfold kept_sorted.
  rewrite <- (filter_pairs_fst (fun c => isin c mo) names v Hlen).
  set (P := filter (fun q => isin (fst q) mo) (combine names v)).
  pose proof (fold_insert_map (fun q : cell * cell => fst q)
                (map (fun q => (q, sort_key mo (fst q))) P) []) as H.
  rewrite map_map in H. simpl in H.
  rewrite map_map. unfold keyed. simpl. rewrite <- H.
  rewrite map_map. reflexivity.
Qed.

Lemma kept_sorted_perm (mo : list string) (names v : list cell) :
  Permutation (map fst (kept_sorted mo names v))
              (filter (fun q => isin (fst q) mo) (combine names v)).
Proof.
  unfold kept_sorted. rewrite fold_insert_perm, app_nil_r, map_map. simpl.
  now rewrite map_id.
Qed.

(** A column that is a function of the label column stays one. *)
Lemma arranged_through_labels (mo : list string) (names : list cell)
  (F : cell -> cell) :
  arranged mo names (map F names) = map F (arranged mo names names).
Proof.
  assert (Hlen : length (map F names) = length names) by apply length_map.
  rewrite (arranged_column mo names _ Hlen), (arranged_labels mo names _ Hlen).
  rewrite map_map. apply map_ext_in. intros s Hs.
  assert (Hin : In (fst s) (combine names (map F names))).
  { apply (in_map fst) in Hs.
    apply (Permutation_in _ (kept_sorted_perm mo names (map F names))) in Hs.
    apply filter_In in Hs. tauto. }
  clear Hs. destruct (fst s) as [a b]. simpl.
  revert Hin. clear. induction names as [|n names IH]; simpl; [intros []|].
  intros [H|H]; [injection H as <- <-; reflexivity | now apply IH].
Qed.

End AlignedRows.

(* ================================================================== *)
(** * More on the output structure of the services report *)

Section MoreOutputStructure.

Import Services Spec Report.

Lemma select_table (order : list string) (df out : TFrame) :
  select order df = Ok out ->
  out = map (fun c => (Str c, col_of df c)) order.
Proof.
  revert out. induction order as [|c order IH]; intros out; simpl.
  - now intros [= <-].
  - unfold col_of. destruct (dict_get (Str c) df) as [v|]; [|discriminate].
    destruct (select order df) as [r|]; [|discriminate].
    intros [= <-]. now rewrite (IH r eq_refl).
Qed.

(** The table [apply_output_structure] returns, column by column. *)
Lemma apply_output_structure_table (t : TFrame) (mo so : list string)
  (names : list cell) :
  dict_get (Str service_col) t = Some names ->
  (forall s, In s so -> s <> "_sort_order" /\ dict_get (Str s) t <> None) ->
  apply_output_structure t mo so
  = ([], Ok (map (fun c => (Str c, arranged mo names (col_of t c)))
                 (service_col :: so))).
Proof.
  intros Hn Hall. rewrite (apply_output_structure_eq t mo so names Hn).
  destruct (select_ok (service_col :: so) (prepared mo names t)) as [out [Hs _]].
  - intros c [<-|Hc].
    + rewrite dict_get_prepared by discriminate. rewrite Hn. discriminate.
    + destruct (Hall c Hc) as [Hne Hsome].
      rewrite dict_get_prepared by assumption.
      destruct (dict_get (Str c) t); [discriminate | contradiction].
  - rewrite Hs. do 2 f_equal. rewrite (select_table _ _ _ Hs).
    apply map_ext_in. intros c Hc. f_equal. unfold col_of.
    assert (Hne : c <> "_sort_order").
    { destruct Hc as [<-|Hc]; [discriminate | now apply Hall]. }
    rewrite dict_get_prepared by assumption.
    destruct (dict_get (Str c) t) as [v|] eqn:E; [reflexivity|].
    destruct Hc as [<-|Hc]; [congruence|].
    destruct (Hall c Hc) as [_ Hsome]. contradiction.
Qed.

Lemma sorted_labels (mo : list string) (S : list (cell * option nat)) :
  StronglySorted key_le S ->
  (forall s, In s S -> snd s = sort_key mo (fst s)) ->
  StronglySorted (label_le mo) (map fst S).
Proof.
  induction 1 as [|s S HS IH Hs]; intros Hkey; simpl; constructor.
  - apply IH. intros x Hx. apply Hkey. now right.
  - apply Forall_map, Forall_forall. intros x Hx.
    rewrite Forall_forall in Hs. specialize (Hs x Hx).
    unfold label_le, key_le in *.
    rewrite <- (Hkey s) by now left. rewrite <- (Hkey x) by now right.
    exact Hs.
Qed.

Lemma arranged_names_perm (mo : list string) (names : list cell) :
  Permutation (arranged mo names names) (filter (fun c => isin c mo) names).
Proof.
  rewrite arranged_names.
  rewrite fold_insert_perm, app_nil_r, map_map. unfold keyed. simpl.
  now rewrite map_id.
Qed.

Lemma arranged_names_sorted (mo : list string) (names : list cell) :
  StronglySorted (label_le mo) (arranged mo names names).
Proof.
  rewrite arranged_names. apply sorted_labels.
  - apply fold_insert_sorted. constructor.
  - intros s Hs.
    apply (Permutation_in _ (fold_insert_perm _ _)) in Hs.
    rewrite app_nil_r in Hs. apply in_map_iff in Hs.
    destruct Hs as [c [<- _]]. reflexivity.
Qed.

(** X3.  A service called "_sort_order" in the service list can never be
    delivered: the helper column of that name is dropped before the
    columns are picked, and with it any column the sheet had under that
    name, so the run stops with [KeyError] whatever the frame holds. *)
Theorem X3_sort_order_service_is_lost :
  forall (t : TFrame) (mo so : list string),
    In "_sort_order" so ->
    exists k, apply_output_structure t mo so = ([], Raise (KeyError k)).
Proof.
  intros t mo so Hin.
  destruct (dict_get (Str service_col) t) as [names|] eqn:Hn.
  - rewrite (apply_output_structure_eq t mo so names Hn).
    destruct (select_missing (service_col :: so) (prepared mo names t) "_sort_order")
      as [k Hk].
    + now right.
    + apply dict_get_prepared_sort_order.
    + exists k. now rewrite Hk.
  - exists service_col. unfold apply_output_structure, getitem. now rewrite Hn.
Qed.

Lemma X3_sort_order_service_is_lost_witness :
  exists k,
    apply_output_structure
      [ (Str service_col, [Str "[A]"]); (Str "_sort_order", [Num 1]) ]
      ["[A]"] ["_sort_order"]
    = ([], Raise (KeyError k)).
Proof.
  apply (X3_sort_order_service_is_lost
           [ (Str service_col, [Str "[A]"]); (Str "_sort_order", [Num 1]) ]
           ["[A]"] ["_sort_order"]).
  simpl. tauto.
Defined.

(** X4.  [apply_output_structure] moves whole records: for a service
    column as high as the label column, the rows of the report are a
    rearrangement of the label-and-cell pairs of the frame whose label is
    a tracked metric, so every cell stays beside the label it came with. *)
Theorem X4_rows_stay_aligned :
  forall (t : TFrame) (mo so : list string) (names v : list cell) (s : string),
    dict_get (Str service_col) t = Some names ->
    (forall s, In s so -> s <> "_sort_order" /\ dict_get (Str s) t <> None) ->
    In s so ->
    dict_get (Str s) t = Some v ->
    length v = length names ->
    exists out R,
      apply_output_structure t mo so = ([], Ok out)
      /\ Permutation R (filter (fun q => isin (fst q) mo) (combine names v))
      /\ row_labels out = map fst R
      /\ dict_get (Str s) out = Some (map snd R).
Proof.
  intros t mo so names v s Hn Hall Hs Hv Hlen.
  destruct (apply_output_structure_ok t mo so names Hn Hall)
    as [out [Hr [_ [Hrows Hcols]]]].
  exists out, (map fst (kept_sorted mo names v)).
  split; [exact Hr|]. split; [apply kept_sorted_perm|]. split.
  - rewrite Hrows, (arranged_labels mo names v Hlen), map_map. reflexivity.
  - rewrite (Hcols s Hs), Hv. simpl.
    rewrite (arranged_column mo names v Hlen), map_map. reflexivity.
Qed.

Lemma X4_rows_stay_aligned_witness :
  exists out R,
    apply_output_structure Examples.small_frame Examples.small_metric_order
      Examples.small_service_order = ([], Ok out)
    /\ Permutation R
         (filter (fun q => isin (fst q) Examples.small_metric_order)
                 (combine [Str "[B]"; Str "[A]"; Str "[Z]"] [Num 4; NaN; Num 6]))
    /\ row_labels out = map fst R
    /\ dict_get (Str "s2") out = Some (map snd R).
Proof.
  apply (X4_rows_stay_aligned Examples.small_frame Examples.small_metric_order
           Examples.small_service_order [Str "[B]"; Str "[A]"; Str "[Z]"]
           [Num 4; NaN; Num 6] "s2").
  - reflexivity.
  - unfold Examples.small_service_order. simpl.
    intros s [<-|[<-|[]]]; split; discriminate.
  - simpl. tauto.
  - reflexivity.
  - reflexivity.
Defined.

(** X5.  Whatever the lists (repetitions allowed), the rows of the
    services report are the rows of the frame whose label is in
    [metric_order], each as often as the frame has it, in the order of
    their positions in [metric_order]; no other row is included. *)
Theorem X5_only_tracked_rows_in_order :
  forall (t : TFrame) (mo so : list string) (names : list cell),
    dict_get (Str service_col) t = Some names ->
    (forall s, In s so -> s <> "_sort_order" /\ dict_get (Str s) t <> None) ->
    exists out,
      apply_output_structure t mo so = ([], Ok out)
      /\ Permutation (row_labels out) (filter (fun c => isin c mo) names)
      /\ StronglySorted (label_le mo) (row_labels out)
      /\ forall x, In x (row_labels out) -> exists m, x = Str m /\ In m mo.
Proof.
  intros t mo so names Hn Hall.
  destruct (apply_output_structure_ok t mo so names Hn Hall)
    as [out [Hr [_ [Hrows _]]]].
  exists out. split; [exact Hr|]. rewrite Hrows.
  split; [apply arranged_names_perm|]. split; [apply arranged_names_sorted|].
  intros x Hx. apply (Permutation_in _ (arranged_names_perm mo names)) in Hx.
  apply filter_In in Hx. destruct Hx as [_ Hx]. now apply isin_spec.
Qed.

Lemma X5_only_tracked_rows_in_order_witness :
  exists out,
    apply_output_structure
      [ (Str service_col, [Str "[B]"; Str "[A]"; Str "[B]"; Str "x"]);
        (Str "s1", [Num 1; Num 2; Num 3; Num 4]) ]
      ["[A]"; "[B]"; "[A]"] ["s1"]
    = ([], Ok out)
    /\ Permutation (row_labels out)
         (filter (fun c => isin c ["[A]"; "[B]"; "[A]"])
                 [Str "[B]"; Str "[A]"; Str "[B]"; Str "x"])
    /\ StronglySorted (label_le ["[A]"; "[B]"; "[A]"]) (row_labels out)
    /\ forall x, In x (row_labels out) ->
         exists m, x = Str m /\ In m ["[A]"; "[B]"; "[A]"].
Proof.
  apply (X5_only_tracked_rows_in_order
           [ (Str service_col, [Str "[B]"; Str "[A]"; Str "[B]"; Str "x"]);
             (Str "s1", [Num 1; Num 2; Num 3; Num 4]) ]
           ["[A]"; "[B]"; "[A]"] ["s1"]
           [Str "[B]"; Str "[A]"; Str "[B]"; Str "x"]).
  - reflexivity.
  - simpl. intros s [<-|[]]. split; discriminate.
Defined.

End MoreOutputStructure.

(* ================================================================== *)
(** * The services script as a whole *)

Section ServicesWhole.

Import Services Spec Report.

Lemma first_service_row_blank (df : DataFrame) (s : cell) :
  isna s = true -> first_service_row df s = None.
Proof.
  intros Hs. unfold first_service_row. destruct (find _ (rows df)) eqn:E; [|reflexivity].
  apply find_some in E. destruct E as [_ E].
  rewrite cell_eqb_blank_r in E by assumption. discriminate.
Qed.

(** A blank among keys that are otherwise keys of the sheet stops the
    loop with [IndexError]. *)
Lemma services_loop_blank (df : DataFrame) (mc : list string) (ss : list cell) :
  In service_col (columns df) ->
  incl mc (columns df) ->
  (exists s, In s ss /\ isna s = true) ->
  (forall s, In s ss -> isna s = true \/ exists row, first_service_row df s = Some row) ->
  forall t, for_each ss (add_service df mc) t = ([], Raise IndexError).
Proof.
  intros Hk Hmc. induction ss as [|s ss IH]; intros [b [Hin Hb]] Hall t;
    [destruct Hin|].
  simpl. destruct (Hall s (or_introl eq_refl)) as [Hs|[row Hrow]].
  - rewrite (add_service_missing df mc s t Hk (first_service_row_blank df s Hs)).
    reflexivity.
  - rewrite (add_service_found df mc s t row Hk Hmc Hrow). unfold bind.
    rewrite IH; [reflexivity | |].
    + destruct Hin as [<-|Hin]; [|eauto].
      rewrite first_service_row_blank in Hrow by assumption. discriminate.
    + intros s' Hs'. apply Hall. now right.
Qed.

(** [transform_data] on a sheet whose key cells are filled and none of
    which is the name of the key column itself. *)
Lemma transform_data_full (df : DataFrame) (mc : list string) :
  In service_col (columns df) ->
  incl mc (columns df) ->
  (forall row, In row (rows df) -> isna (key_of df row) = false) ->
  (forall row, In row (rows df) -> cell_eqb (Str service_col) (key_of df row) = false) ->
  exists t,
    transform_data df mc = ([], Ok t)
    /\ dict_get (Str service_col) t = Some (map Str mc)
    /\ forall row, In row (rows df) ->
         dict_get (key_of df row) t = Some (service_values df mc (key_of df row)).
Proof.
  intros Hk Hmc Hfilled Hclash. unfold transform_data, tolist.
  apply mem_In in Hk as Hm. rewrite Hm. unfold lift, bind.
  destruct (services_loop df mc (map (key_of df) (rows df)) Hk Hmc) with
    (t := [(Str service_col, map Str mc)]) as [t [Hrun [Hin Hout]]].
  - intros s Hs. apply in_map_iff in Hs. destruct Hs as [row [<- Hr]].
    apply first_service_row_exists; auto.
  - exists t. unfold key_of in *. rewrite Hrun. split; [reflexivity|]. split.
    + rewrite Hout.
      * reflexivity.
      * intros s Hs. apply in_map_iff in Hs. destruct Hs as [row [<- Hr]].
        now apply Hclash.
    + intros row Hr. apply Hin. apply in_map_iff. eauto.
Qed.

Lemma present_labels (mc : list string) (m : string) :
  present (map Str mc) m = mem m mc.
Proof.
  destruct (mem m mc) eqn:E.
  - apply present_In, in_map, mem_In, E.
  - destruct (present (map Str mc) m) eqn:E'; [|reflexivity].
    apply present_In, in_map_iff in E'. destruct E' as [x [[= ->] Hx]].
    apply mem_In in Hx. congruence.
Qed.

(** Steps 3 and 5 on a good sheet give the report written out. *)
Lemma steps_report (df : DataFrame) (mo so : list string) :
  good_sheet df mo so ->
  exists t,
    transform_data df (get_metric_columns df) = ([], Ok t)
    /\ apply_output_structure t mo so = ([], Ok (services_report df mo so)).
Proof.
  intros [Hk [Hnd [Hmo [Hso [Hfilled [Hclash Hall]]]]]].
  set (mc := get_metric_columns df).
  assert (Hmc : incl mc (columns df))
    by (intros m Hm; unfold mc, get_metric_columns in Hm; now apply filter_In in Hm).
  destruct (transform_data_full df mc Hk Hmc Hfilled Hclash) as [t [Hrun [Hlab Hget]]].
  exists t. split; [exact Hrun|].
  assert (Hcol : forall s, In s so ->
            exists row, first_service_row df (Str s) = Some row
              /\ dict_get (Str s) t = Some (map (series_get (columns df) row) mc)).
  { intros s Hs. destruct (Hall s Hs) as [row [Hr Hkey]].
    pose proof (Hget row Hr) as Hg. rewrite Hkey in Hg.
    destruct (first_service_row_exists df row Hr (Hfilled row Hr)) as [first Hf].
    rewrite Hkey in Hf. exists first. split; [exact Hf|].
    rewrite Hg. unfold service_values. now rewrite Hf. }
  rewrite (apply_output_structure_table t mo so (map Str mc) Hlab).
  2:{ intros s Hs. split; [intros ->; contradiction|].
      destruct (Hcol s Hs) as [row [_ Hd]]. rewrite Hd. discriminate. }
  assert (Hrows : arranged mo (map Str mc) (map Str mc)
                  = map Str (tracked_rows df mo)).
  { rewrite arranged_names_eq; [|assumption|].
    - unfold tracked_rows. f_equal. apply filter_ext. intros m.
      apply present_labels.
    - apply NoDup_map_Str. unfold mc, get_metric_columns. now apply NoDup_filter. }
  assert (Heq : map (fun c => (Str c, arranged mo (map Str mc) (col_of t c)))
                    (service_col :: so)
                = services_report df mo so).
  { unfold services_report. cbn [map]. f_equal.
    - f_equal. unfold col_of. rewrite Hlab. exact Hrows.
    - apply map_ext_in. intros s Hs. f_equal.
      destruct (Hcol s Hs) as [row [Hf Hd]].
      unfold col_of, service_cells. rewrite Hd, Hf.
      replace (map (series_get (columns df) row) mc)
        with (map (through_label (series_get (columns df) row)) (map Str mc))
        by (rewrite map_map; reflexivity).
      rewrite arranged_through_labels, Hrows, map_map. reflexivity. }
  now rewrite Heq.
Qed.

Lemma run_steps_report (df : DataFrame) (mo so : list string) :
  good_sheet df mo so ->
  run_steps df mo so = ([], Ok (services_report df mo so)).
Proof.
  intros Hgood. destruct (steps_report df mo so Hgood) as [t [Ht Ha]].
  destruct Hgood as [Hk _]. unfold run_steps, check_required_column.
  apply mem_In in Hk. rewrite Hk. simpl negb. cbv iota.
  unfold bind at 1, ret. rewrite Ht. unfold bind. rewrite Ha. reflexivity.
Qed.


Lemma find_unique_perm {A} (p : A -> bool) (l l' : list A) :
  Permutation l l' ->
  (forall x y, In x l -> In y l -> p x = true -> p y = true -> x = y) ->
  find p l = find p l'.
Proof.
  intros Hp Huniq.
  destruct (find p l) as [x|] eqn:E.
  - apply find_some in E. destruct E as [Hx Hpx].
    destruct (find p l') as [y|] eqn:E'.
    + apply find_some in E'. destruct E' as [Hy Hpy].
      apply (Permutation_in _ (Permutation_sym Hp)) in Hy.
      f_equal. now apply Huniq.
    + apply (Permutation_in _ Hp) in Hx.
      apply (find_none _ _ E') in Hx. congruence.
  - destruct (find p l') as [y|] eqn:E'; [|reflexivity].
    apply find_some in E'. destruct E' as [Hy Hpy].
    apply (Permutation_in _ (Permutation_sym Hp)) in Hy.
    apply (find_none _ _ E) in Hy. congruence.
Qed.

Lemma transform_data_blank (df : DataFrame) (mc : list string) :
  In service_col (columns df) ->
  incl mc (columns df) ->
  (exists row, In row (rows df) /\ isna (key_of df row) = true) ->
  transform_data df mc = ([], Raise IndexError).
Proof.
  intros Hk Hmc [row [Hr Hblank]]. unfold transform_data, tolist.
  apply mem_In in Hk as Hm. rewrite Hm. unfold lift, bind.
  rewrite (services_loop_blank df mc); [reflexivity | assumption | assumption | |].
  - exists (key_of df row). split; [|exact Hblank]. apply in_map_iff.
    exists row. split; [reflexivity | exact Hr].
  - intros s Hs. apply in_map_iff in Hs. destruct Hs as [r [<- Hr']].
    destruct (isna (key_of df r)) eqn:E.
    + now left.
    + right. now apply first_service_row_exists.
Qed.

(** With a metric that is no column the first record, when its key cell
    is filled, makes the loop raise [KeyError]. *)
Lemma transform_data_no_column (df : DataFrame) (mc : list string) (m : string)
  (row : list cell) (rest : list (list cell)) :
  In service_col (columns df) ->
  first_missing (columns df) mc = Some m ->
  rows df = row :: rest ->
  isna (key_of df row) = false ->
  transform_data df mc = ([], Raise (KeyError m)).
Proof.
  intros Hk Hm Hrows Hfilled. unfold transform_data, tolist.
  apply mem_In in Hk as Hmem. rewrite Hmem. unfold lift, bind.
  rewrite Hrows. cbn [map for_each].
  assert (Hr : In row (rows df)) by (rewrite Hrows; now left).
  destruct (first_service_row_exists df row Hr Hfilled) as [first Hfirst].
  unfold key_of in Hfirst.
  apply mem_In in Hmem.
  now rewrite (add_service_no_column df mc _ _ first m Hmem Hm Hfirst).
Qed.

(** What holds at the start of a loop and is kept by every round that
    returns, holds at its end. *)
Lemma for_each_invariant {X S : Type} (I : S -> Prop) (body : X -> S -> M S)
  (xs : list X) :
  (forall x s l s', In x xs -> I s -> body x s = (l, Ok s') -> I s') ->
  forall s l s', I s -> for_each xs body s = (l, Ok s') -> I s'.
Proof.
  induction xs as [|x xs IH]; intros Hstep s l s' Hs Hrun; simpl in Hrun.
  - injection Hrun as _ <-. exact Hs.
  - destruct (body x s) as [l1 [s1|e]] eqn:Hb; simpl in Hrun; [|discriminate].
    destruct (for_each xs body s1) as [l2 r2] eqn:Hrest.
    injection Hrun as _ ->.
    apply (IH (fun x' s0 l0 s0' H => Hstep x' s0 l0 s0' (or_intror H)) s1 l2 s').
    + apply (Hstep x s l1 s1); [now left | exact Hs | exact Hb].
    + exact Hrest.
Qed.

Lemma add_service_returns (df : DataFrame) (mc : list string) (s : cell)
  (t t' : TFrame) (l : list message) :
  add_service df mc s t = (l, Ok t') ->
  exists row,
    In row (rows df) /\ cell_eqb (key_of df row) s = true /\ isna s = false
    /\ t' = dict_set s (map (series_get (columns df) row) mc) t.
Proof.
  unfold add_service, select_eq.
  destruct (mem service_col (columns df)); [|discriminate].
  unfold lift, bind.
  destruct (filter _ (rows df)) as [|row rest] eqn:E; [discriminate|].
  rewrite getitems_spec. destruct (first_missing (columns df) mc); [discriminate|].
  intros H. simpl in H. injection H as _ <-.
  assert (Hin : In row (filter (fun r => cell_eqb (series_get (columns df) r service_col) s)
                               (rows df)))
    by (rewrite E; now left).
  apply filter_In in Hin. destruct Hin as [Hr Heq].
  exists row. split; [exact Hr|]. split; [exact Heq|]. split; [|reflexivity].
  now apply cell_eqb_filled in Heq.
Qed.

Lemma dict_set_heights (n : nat) (k : cell) (v : list cell) (d : TFrame) :
  Forall (fun col => length (snd col) = n) d -> length v = n ->
  Forall (fun col => length (snd col) = n) (dict_set k v d).
Proof.
  intros Hd Hv. induction Hd as [|[k' v'] d Hcol Hd IH]; simpl.
  - constructor; [exact Hv | constructor].
  - destruct (cell_eqb k k'); constructor; auto.
Qed.

Lemma dict_set_labels (k : cell) (v : list cell) (d : TFrame) :
  labels (dict_set k v d) = labels d
  \/ (labels (dict_set k v d) = labels d ++ [k]
      /\ forall k', In k' (labels d) -> cell_eqb k k' = false).
Proof.
  induction d as [|[k' v'] d IH]; simpl.
  - right. split; [reflexivity | intros ? []].
  - destruct (cell_eqb k k') eqn:E; simpl.
    + now left.
    + destruct IH as [IH|[IH Hno]].
      * left. now rewrite IH.
      * right. split; [now rewrite IH|].
        intros x [<-|Hx]; [exact E | now apply Hno].
Qed.

Lemma dict_get_label (k : cell) (v : list cell) (d : TFrame) :
  dict_get k d = Some v -> existsb (cell_eqb k) (labels d) = true.
Proof.
  induction d as [|[k' v'] d IH]; simpl; [discriminate|].
  destruct (cell_eqb k k') eqn:E; [reflexivity|].
  intros H. now apply IH.
Qed.

(** A round that returns leaves a label equal to its key, and keeps the
    labels there were. *)
Lemma dict_set_has (k : cell) (v : list cell) (d : TFrame) :
  isna k = false -> existsb (cell_eqb k) (labels (dict_set k v d)) = true.
Proof.
  intros Hk. induction d as [|[k' v'] d IH]; simpl.
  - now rewrite cell_eqb_refl.
  - destruct (cell_eqb k k') eqn:E; simpl; rewrite E; [reflexivity | exact IH].
Qed.

Lemma dict_set_keeps (k x : cell) (v : list cell) (d : TFrame) :
  existsb (cell_eqb x) (labels d) = true ->
  existsb (cell_eqb x) (labels (dict_set k v d)) = true.
Proof.
  induction d as [|[k' v'] d IH]; simpl; [discriminate|].
  destruct (cell_eqb k k'); simpl; [trivial|].
  destruct (cell_eqb x k'); [reflexivity | exact IH].
Qed.

Lemma services_loop_labels (df : DataFrame) (mc : list string) (ss : list cell) :
  forall (t t' : TFrame) (l : list message),
    for_each ss (add_service df mc) t = (l, Ok t') ->
    (forall s, In s ss -> existsb (cell_eqb s) (labels t') = true)
    /\ (forall x, existsb (cell_eqb x) (labels t) = true ->
                  existsb (cell_eqb x) (labels t') = true).
Proof.
  induction ss as [|s ss IH]; intros t t' l Hrun; simpl in Hrun.
  - injection Hrun as _ <-. split; [intros s []|trivial].
  - destruct (add_service df mc s t) as [l1 [t1|e]] eqn:Hadd; simpl in Hrun;
      [|discriminate].
    destruct (for_each ss (add_service df mc) t1) as [l2 r2] eqn:Hrest.
    injection Hrun as _ ->.
    destruct (IH t1 t' l2 Hrest) as [Hin Hkeep].
    apply add_service_returns in Hadd. destruct Hadd as [row [_ [_ [Hna ->]]]].
    split.
    + intros s' [<-|Hs']; [|now apply Hin].
      apply Hkeep. now apply dict_set_has.
    + intros x Hx. apply Hkeep. now apply dict_set_keeps.
Qed.

(** X1.  On a sheet with the key column, and for metric columns that
    are columns of the sheet, [transform_data] returns a frame exactly
    when every key cell is filled: with all of them filled it returns
    without printing, and one blank key cell makes it raise [IndexError],
    since a blank equals nothing and [.iloc[0]] then has no row to take.
    For a metric that is no column of the sheet the first record, its key
    cell being filled, makes it raise [KeyError] with that metric. *)
Theorem X1_transform_data_needs_filled_keys :
  forall (df : DataFrame) (mc : list string),
    In service_col (columns df) ->
    (incl mc (columns df) ->
       ((forall row, In row (rows df) -> isna (key_of df row) = false) ->
        exists t, transform_data df mc = ([], Ok t))
       /\ ((exists row, In row (rows df) /\ isna (key_of df row) = true) ->
           transform_data df mc = ([], Raise IndexError)))
    /\ (forall m row rest,
          first_missing (columns df) mc = Some m ->
          rows df = row :: rest ->
          isna (key_of df row) = false ->
          transform_data df mc = ([], Raise (KeyError m))).
Proof.
  intros df mc Hk. split.
  - intros Hmc. split.
    + intros Hfilled.
      destruct (transform_data_spec df mc Hk Hmc Hfilled) as [t [Hrun _]]. eauto.
    + now apply transform_data_blank.
  - intros m row rest Hm Hrows Hfilled.
    now apply (transform_data_no_column df mc m row rest).
Qed.

Lemma X1_transform_data_needs_filled_keys_witness :
  (exists t, transform_data MoreExamples.two_services ["[B]"; "[A]"] = ([], Ok t))
  /\ transform_data MoreExamples.blank_key_sheet ["[A]"] = ([], Raise IndexError)
  /\ transform_data MoreExamples.two_services ["[A]"; "[Q]"]
     = ([], Raise (KeyError "[Q]")).
Proof.
  split; [|split].
  - apply (proj1 (X1_transform_data_needs_filled_keys MoreExamples.two_services
                    ["[B]"; "[A]"] (or_introl eq_refl))).
    + intros m [<-|[<-|[]]]; simpl; tauto.
    + intros row Hr. simpl in Hr. destruct Hr as [<-|[<-|[<-|[]]]]; reflexivity.
  - apply (proj1 (X1_transform_data_needs_filled_keys MoreExamples.blank_key_sheet
                    ["[A]"] (or_introl eq_refl))).
    + intros m [<-|[]]; simpl; tauto.
    + exists [NaN; Num 2]. split; [simpl; tauto | reflexivity].
  - apply (proj2 (X1_transform_data_needs_filled_keys MoreExamples.two_services
                    ["[A]"; "[Q]"] (or_introl eq_refl))
             "[Q]" [Str "s1"; Num 1; Num 9; Num 2]
             [ [Str "s2"; Num 3; Num 9; NaN]; [Str "s2"; Num 5; Num 9; Num 6] ]);
      reflexivity.
Defined.

(** What the loop of [transform_data] keeps. *)
Lemma transform_data_invariant (df : DataFrame) (mc : list string)
  (log : list message) (t : TFrame) :
  transform_data df mc = (log, Ok t) ->
  Forall (fun col => length (snd col) = length mc) t
  /\ NoDup (labels t)
  /\ (exists rest, labels t = Str service_col :: rest)
  /\ (forall x, In x (labels t) ->
        x = Str service_col \/ exists row, In row (rows df) /\ key_of df row = x).
Proof.
  intros Hrun.
  unfold transform_data, tolist in Hrun.
  destruct (mem service_col (columns df)) eqn:Hm; [|discriminate].
  unfold lift, bind in Hrun.
  destruct (for_each _ _ _) as [l r] eqn:Hloop. injection Hrun as _ ->.
  set (I := fun t0 : TFrame =>
              Forall (fun col => length (snd col) = length mc) t0
              /\ NoDup (labels t0)
              /\ (exists rest, labels t0 = Str service_col :: rest)
              /\ (forall x, In x (labels t0) ->
                    x = Str service_col
                    \/ exists row, In row (rows df) /\ key_of df row = x)).
  change (I t).
  refine (for_each_invariant I (add_service df mc) _ _ _ _ _ _ Hloop); unfold I.
  - intros s t0 l0 t1 Hs [Hh [Hnd [[rest Hhd] Hlab]]] Hadd.
    apply add_service_returns in Hadd.
    destruct Hadd as [row [Hr [Hkey [Hna ->]]]].
    split; [apply dict_set_heights; [assumption | apply length_map]|].
    destruct (dict_set_labels s (map (series_get (columns df) row) mc) t0)
      as [Heq|[Heq Hno]]; rewrite Heq.
    + split; [assumption|]. split; [eauto | assumption].
    + split; [|split].
      * apply NoDup_app; [assumption | apply NoDup_cons; [intros [] | constructor] |].
        intros x Hx [Hsx|[]]. subst x. specialize (Hno s Hx).
        rewrite cell_eqb_refl in Hno by assumption. discriminate.
      * exists (rest ++ [s]). now rewrite Hhd.
      * intros x Hx. apply in_app_or in Hx. destruct Hx as [Hx|[<-|[]]].
        -- now apply Hlab.
        -- right. apply in_map_iff in Hs. destruct Hs as [r [Hrs Hr']].
           exists r. split; [exact Hr' | exact Hrs].
  - split; [constructor; [apply length_map | constructor]|].
    split; [constructor; [intros [] | constructor]|].
    split; [exists []; reflexivity|].
    intros x [<-|[]]. now left.
Qed.

(** Every key cell of the sheet is among the labels. *)
Lemma transform_data_keys (df : DataFrame) (mc : list string)
  (log : list message) (t : TFrame) :
  transform_data df mc = (log, Ok t) ->
  forall row, In row (rows df) ->
    existsb (cell_eqb (key_of df row)) (labels t) = true.
Proof.
  intros Hrun row Hr.
  unfold transform_data, tolist in Hrun.
  destruct (mem service_col (columns df)) eqn:Hm; [|discriminate].
  unfold lift, bind in Hrun.
  destruct (for_each _ _ _) as [l r] eqn:Hloop. injection Hrun as _ ->.
  destruct (services_loop_labels df mc _ _ _ _ Hloop) as [Hin _].
  apply Hin. apply in_map_iff. exists row. split; [reflexivity | exact Hr].
Qed.

(** A text that is no key cell of the sheet, and not the name of the key
    column, is no column of the frame. *)
Lemma transform_data_no_record (df : DataFrame) (mc : list string)
  (log : list message) (t : TFrame) (s : string) :
  transform_data df mc = (log, Ok t) ->
  s <> service_col ->
  (forall row, In row (rows df) -> cell_eqb (key_of df row) (Str s) = false) ->
  dict_get (Str s) t = None.
Proof.
  intros Hrun Hs Hnone.
  destruct (dict_get (Str s) t) as [v|] eqn:E; [|reflexivity].
  apply dict_get_label, existsb_exists in E. destruct E as [k [Hk E]].
  apply cell_eqb_Str_l in E. subst k.
  destruct (transform_data_invariant df mc log t Hrun) as [_ [_ [_ Hlab]]].
  destruct (Hlab _ Hk) as [[= H]|[row [Hr Hkey]]]; [congruence|].
  specialize (Hnone row Hr). rewrite Hkey in Hnone. simpl in Hnone.
  rewrite String.eqb_refl in Hnone. discriminate.
Qed.

(** X2.  Whenever [transform_data] returns, the dict it hands to
    [pd.DataFrame] is a proper frame: every column is as high as the list
    of metric columns, the labels are pairwise different, the first label
    is the name of the key column, every label after it is a key cell of
    the sheet, and every key cell of the sheet is among the labels: as
    Python's [in] finds it (two numbers that are equal are one key), and
    for a key cell that is a text as that very text. *)
Theorem X2_transform_data_frame :
  forall (df : DataFrame) (mc : list string) (log : list message) (t : TFrame),
    transform_data df mc = (log, Ok t) ->
    Forall (fun col => length (snd col) = length mc) t
    /\ NoDup (labels t)
    /\ (exists rest, labels t = Str service_col :: rest)
    /\ (forall x, In x (labels t) ->
          x = Str service_col \/ exists row, In row (rows df) /\ key_of df row = x)
    /\ (forall row, In row (rows df) ->
          existsb (cell_eqb (key_of df row)) (labels t) = true)
    /\ (forall row s, In row (rows df) -> key_of df row = Str s ->
          In (key_of df row) (labels t)).
Proof.
  intros df mc log t Hrun.
  destruct (transform_data_invariant df mc log t Hrun) as [H1 [H2 [H3 H4]]].
  repeat split; try assumption.
  - now apply (transform_data_keys df mc log t).
  - intros row s Hr Hkey.
    pose proof (transform_data_keys df mc log t Hrun row Hr) as H.
    apply existsb_exists in H. destruct H as [k [Hk H]].
    rewrite Hkey in H |- *. apply cell_eqb_Str_l in H. now subst.
Qed.

Lemma X2_transform_data_frame_witness :
  Forall (fun col => length (snd col) = length ["[B]"; "[A]"])
    [ (Str service_col, [Str "[B]"; Str "[A]"]);
      (Str "s1", [Num 1; Num 2]); (Str "s2", [Num 3; NaN]) ]
  /\ NoDup (labels [ (Str service_col, [Str "[B]"; Str "[A]"]);
                     (Str "s1", [Num 1; Num 2]); (Str "s2", [Num 3; NaN]) ])
  /\ (exists rest,
        labels [ (Str service_col, [Str "[B]"; Str "[A]"]);
                 (Str "s1", [Num 1; Num 2]); (Str "s2", [Num 3; NaN]) ]
        = Str service_col :: rest)
  /\ (forall x,
        In x (labels [ (Str service_col, [Str "[B]"; Str "[A]"]);
                       (Str "s1", [Num 1; Num 2]); (Str "s2", [Num 3; NaN]) ]) ->
        x = Str service_col
        \/ exists row, In row (rows MoreExamples.two_services)
                       /\ key_of MoreExamples.two_services row = x)
  /\ (forall row, In row (rows MoreExamples.two_services) ->
        existsb (cell_eqb (key_of MoreExamples.two_services row))
           (labels [ (Str service_col, [Str "[B]"; Str "[A]"]);
                     (Str "s1", [Num 1; Num 2]); (Str "s2", [Num 3; NaN]) ])
        = true)
  /\ (forall row s, In row (rows MoreExamples.two_services) ->
        key_of MoreExamples.two_services row = Str s ->
        In (key_of MoreExamples.two_services row)
           (labels [ (Str service_col, [Str "[B]"; Str "[A]"]);
                     (Str "s1", [Num 1; Num 2]); (Str "s2", [Num 3; NaN]) ])).
Proof.
  apply (X2_transform_data_frame MoreExamples.two_services ["[B]"; "[A]"] []).
  reflexivity.
Defined.



(** X7.  On a good sheet whose records have distinct keys the services
    report does not depend on the order of the records: the five steps
    return the same table for the records in any other order. *)
Theorem X7_services_report_ignores_record_order :
  forall (df : DataFrame) (rows' : list (list cell)) (mo so : list string),
    In service_col (columns df) ->
    NoDup (columns df) ->
    NoDup mo ->
    ~ In "_sort_order" so ->
    (forall row, In row (rows df) -> isna (key_of df row) = false) ->
    (forall row, In row (rows df) ->
       cell_eqb (Str service_col) (key_of df row) = false) ->
    (forall s, In s so -> exists row, In row (rows df) /\ key_of df row = Str s) ->
    (forall r1 r2, In r1 (rows df) -> In r2 (rows df) ->
       key_of df r1 = key_of df r2 -> r1 = r2) ->
    Permutation (rows df) rows' ->
    run_steps (mkDataFrame (columns df) rows') mo so = run_steps df mo so.
Proof.
  intros df rows' mo so H1 H2 H3 H4 H5 H6 H7 Huniq Hperm.
  set (df' := mkDataFrame (columns df) rows').
  assert (Hback : forall row, In row (rows df') -> In row (rows df)).
  { intros row Hr. apply (Permutation_in _ (Permutation_sym Hperm)). exact Hr. }
  rewrite (run_steps_report df mo so) by (repeat split; assumption).
  rewrite (run_steps_report df' mo so).
  - do 2 f_equal. unfold services_report, tracked_rows, get_metric_columns. simpl.
    f_equal. apply map_ext. intros s. f_equal.
    unfold service_cells, first_service_row. simpl.
    rewrite (find_unique_perm _ (rows df) rows' Hperm); [reflexivity|].
    intros x y Hx Hy Hpx Hpy. apply Huniq; try assumption.
    apply cell_eqb_Str_r in Hpx, Hpy. unfold key_of. congruence.
  - repeat split; try assumption.
    + intros row Hr. apply (H5 row (Hback row Hr)).
    + intros row Hr. apply (H6 row (Hback row Hr)).
    + intros s Hs. destruct (H7 s Hs) as [row [Hr Hkey]].
      exists row. split; [|exact Hkey].
      apply (Permutation_in _ Hperm). exact Hr.
Qed.

Lemma X7_services_report_ignores_record_order_witness :
  run_steps (mkDataFrame (columns MoreExamples.distinct_services)
               MoreExamples.distinct_services_swapped)
            ["[A]"; "[Z]"; "[B]"] ["s2"; "s1"]
  = run_steps MoreExamples.distinct_services ["[A]"; "[Z]"; "[B]"] ["s2"; "s1"].
Proof.
  apply X7_services_report_ignores_record_order.
  - simpl. tauto.
  - apply NoDup_checked. reflexivity.
  - nodup.
  - simpl. intuition discriminate.
  - intros row Hr. simpl in Hr. destruct Hr as [<-|[<-|[]]]; reflexivity.
  - intros row Hr. simpl in Hr. destruct Hr as [<-|[<-|[]]]; reflexivity.
  - intros s [<-|[<-|[]]].
    + exists [Str "s2"; Num 3; Num 9; NaN]. split; [simpl; tauto | reflexivity].
    + exists [Str "s1"; Num 1; Num 9; Num 2]. split; [simpl; tauto | reflexivity].
  - intros r1 r2 Hr1 Hr2. simpl in Hr1, Hr2.
    destruct Hr1 as [<-|[<-|[]]]; destruct Hr2 as [<-|[<-|[]]];
      (reflexivity || (vm_compute; discriminate)).
  - apply perm_swap.
Defined.

End ServicesWhole.

(* ================================================================== *)
(** * The category script as a whole *)

Section CategoryWhole.

Import Category Spec Report.

Lemma for_each_ext {X S : Type} (body body' : X -> S -> M S) (xs : list X) :
  (forall x s, In x xs -> body x s = body' x s) ->
  forall s, for_each xs body s = for_each xs body' s.
Proof.
  induction xs as [|x xs IH]; intros Hb s; simpl; [reflexivity|].
  rewrite Hb by now left. unfold bind.
  destruct (body' x s) as [l [s1|e]]; [|reflexivity].
  rewrite IH by (intros; apply Hb; now right). reflexivity.
Qed.

(** A round reads the sheet only through its header and the first
    record that carries the category. *)
Lemma process_category_congr (ms cols : list string) (rows1 rows2 : list (list cell))
  (c : string) (o : OutFrame) :
  find (carries cols c) rows1 = find (carries cols c) rows2 ->
  process_category ms (mkDataFrame cols rows1) c o
  = process_category ms (mkDataFrame cols rows2) c o.
Proof.
  intros Hfind. rewrite !filter_head_find in Hfind.
  unfold process_category, select_eq. simpl.
  destruct (mem category_col cols); [|reflexivity].
  unfold lift, bind, carries in *.
  destruct (filter _ rows1) as [|r1 l1]; destruct (filter _ rows2) as [|r2 l2];
    simpl in Hfind; try discriminate; [reflexivity|].
  injection Hfind as ->. reflexivity.
Qed.

Lemma transform_congr (ms cs cols : list string) (rows1 rows2 : list (list cell)) :
  (forall c, In c cs -> find (carries cols c) rows1 = find (carries cols c) rows2) ->
  transform ms cs (mkDataFrame cols rows1) = transform ms cs (mkDataFrame cols rows2).
Proof.
  intros Hfind. unfold transform, populate.
  rewrite (for_each_ext (process_category ms (mkDataFrame cols rows1))
             (process_category ms (mkDataFrame cols rows2))).
  - reflexivity.
  - intros c o Hc. apply process_category_congr. now apply Hfind.
Qed.

Lemma find_filter {A} (p q : A -> bool) (l : list A) :
  (forall x, p x = true -> q x = true) -> find p (filter q l) = find p l.
Proof.
  intros Hpq. induction l as [|a l IH]; simpl; [reflexivity|].
  destruct (q a) eqn:Eq; simpl.
  - destruct (p a); [reflexivity | exact IH].
  - destruct (p a) eqn:Ep; [|exact IH].
    rewrite (Hpq a Ep) in Eq. discriminate.
Qed.

(** X8.  The category report is made from the first record of each
    category and from nothing else: with at most one record per category
    the records can come in any order, and records that carry none of the
    categories can be left out, and [transform] prints and returns the
    very same. *)
Theorem X8_category_report_reads_first_records_only :
  (forall (ms cs cols : list string) (rows1 rows2 : list (list cell)),
      Permutation rows1 rows2 ->
      (forall c r1 r2, In c cs -> In r1 rows1 -> In r2 rows1 ->
         carries cols c r1 = true -> carries cols c r2 = true -> r1 = r2) ->
      transform ms cs (mkDataFrame cols rows2) = transform ms cs (mkDataFrame cols rows1))
  /\
  (forall (ms cs cols : list string) (rows1 : list (list cell)),
      transform ms cs
        (mkDataFrame cols
           (filter (fun row => existsb (fun c => carries cols c row) cs) rows1))
      = transform ms cs (mkDataFrame cols rows1)).
Proof.
  split.
  - intros ms cs cols rows1 rows2 Hperm Huniq. symmetry.
    apply transform_congr. intros c Hc.
    apply find_unique_perm; [exact Hperm|].
    intros x y Hx Hy. now apply Huniq.
  - intros ms cs cols rows1. apply transform_congr. intros c Hc.
    apply find_filter. intros row Hrow.
    apply existsb_exists. eauto.
Qed.

Lemma X8_category_report_reads_first_records_only_witness :
  transform Examples.e2e_metrics Examples.e2e_categories
    (mkDataFrame (columns Examples.e2e_sheet)
       [ [Str "Images"; Num 20]; [Str "Games"; Num 100]; [Str "Education"; Num 10] ])
  = transform Examples.e2e_metrics Examples.e2e_categories
      (mkDataFrame (columns Examples.e2e_sheet) (rows Examples.e2e_sheet)).
Proof.
  apply (proj1 X8_category_report_reads_first_records_only).
  - simpl. apply Permutation_sym. apply Permutation_cons_app with (l1 := [_; _]) (l2 := []).
    reflexivity.
  - intros c r1 r2 Hc Hr1 Hr2. simpl in Hc, Hr1, Hr2.
    destruct Hc as [<-|[<-|[<-|[]]]];
      destruct Hr1 as [<-|[<-|[<-|[]]]]; destruct Hr2 as [<-|[<-|[<-|[]]]];
      vm_compute; congruence.
Defined.

(* ------------------------------------------------------------------ *)

Lemma names_update (c : string) (f : list cell -> list cell)
  (d : list (string * list cell)) :
  map fst (update c f d) = map fst d.
Proof.
  induction d as [|[k v] d IH]; simpl; [reflexivity|].
  destruct (String.eqb c k); simpl; [reflexivity | now rewrite IH].
Qed.

Lemma update_heights (n : nat) (c : string) (f : list cell -> list cell)
  (d : list (string * list cell)) :
  (forall v, length v = n -> length (f v) = n) ->
  Forall (fun col => length (snd col) = n) d ->
  Forall (fun col => length (snd col) = n) (update c f d).
Proof.
  intros Hf Hd. induction Hd as [|[k v] d Hcol Hd IH]; simpl; [constructor|].
  destruct (String.eqb c k); constructor; simpl in *; auto.
Qed.

Lemma set_at_length (m : string) (v : cell) (labels : list string) (col : list cell) :
  length (set_at m v labels col) = length col.
Proof.
  revert col. induction labels as [|l labels IH]; intros [|x col]; simpl;
    try reflexivity. now rewrite IH.
Qed.

Lemma NoDup_snoc (l : list string) (c : string) :
  NoDup l -> ~ In c l -> NoDup (l ++ [c]).
Proof.
  intros Hl Hc. apply NoDup_app; [assumption | constructor; [intros [] | constructor]|].
  intros a Ha [Hs|[]]. subst a. contradiction.
Qed.

Lemma set_column_kept (ms allowed : list string) (c : string) (v : cell) (o : OutFrame) :
  In c allowed -> kept_by_loop ms allowed o -> kept_by_loop ms allowed (set_column c v o).
Proof.
  intros Hc [Hi [Hr [Hn Ha]]]. unfold set_column, kept_by_loop, rectangular, names in *.
  destruct (mem c (map fst (data o))) eqn:E; simpl.
  - rewrite names_update. repeat split; try assumption.
    apply update_heights; [|assumption]. intros _ _. apply repeat_length.
  - apply mem_not_In in E. repeat split; try assumption.
    + apply Forall_app. split; [assumption|].
      constructor; [apply repeat_length | constructor].
    + rewrite map_app. now apply NoDup_snoc.
    + rewrite map_app. apply incl_app; [assumption|].
      intros x [<-|[]]. exact Hc.
Qed.

Lemma loc_set_kept (ms allowed : list string) (m c : string) (v : cell) (o : OutFrame) :
  In c allowed -> kept_by_loop ms allowed o -> kept_by_loop ms allowed (loc_set m c v o).
Proof.
  intros Hc [Hi [Hr [Hn Ha]]]. unfold loc_set, kept_by_loop, rectangular, names in *.
  simpl. rewrite names_update.
  assert (Hset : forall col, length col = length (index o) ->
                   length (set_at m v (index o) col) = length (index o))
    by (intros col Hl; now rewrite set_at_length).
  destruct (mem c (map fst (data o))) eqn:E.
  - repeat split; try assumption. now apply update_heights.
  - apply mem_not_In in E. repeat split; try assumption.
    + apply update_heights; [assumption|].
      apply Forall_app. split; [assumption|].
      constructor; [apply repeat_length | constructor].
    + rewrite map_app. now apply NoDup_snoc.
    + rewrite map_app. apply incl_app; [assumption|].
      intros x [<-|[]]. exact Hc.
Qed.

Lemma fold_metrics_kept (ms allowed : list string) (df : DataFrame)
  (row : list cell) (c : string) (ms' : list string) :
  In c allowed ->
  forall o, kept_by_loop ms allowed o ->
  kept_by_loop ms allowed (fold_left (fun o m => map_metric df row c m o) ms' o).
Proof.
  intros Hc. induction ms' as [|m ms' IH]; intros o Ho; simpl; [exact Ho|].
  apply IH. unfold map_metric.
  destruct (mem m (columns df)); now apply loc_set_kept.
Qed.

Lemma process_category_kept (ms allowed : list string) (df : DataFrame) (c : string)
  (o o' : OutFrame) (l : list message) :
  In c allowed -> kept_by_loop ms allowed o ->
  process_category ms df c o = (l, Ok o') -> kept_by_loop ms allowed o'.
Proof.
  intros Hc Ho. unfold process_category, select_eq.
  destruct (mem category_col (columns df)); [|discriminate].
  unfold lift, bind.
  destruct (filter _ (rows df)) as [|row rest]; simpl; intros H; injection H as _ <-.
  - now apply set_column_kept.
  - now apply fold_metrics_kept.
Qed.

Lemma fillna_kept (ms allowed : list string) (o : OutFrame) :
  kept_by_loop ms allowed o -> kept_by_loop ms allowed (fillna o) /\ filled (fillna o).
Proof.
  intros [Hi [Hr [Hn Ha]]].
  assert (Hnames : names (fillna o) = names o).
  { unfold names, fillna. simpl. rewrite map_map. reflexivity. }
  split.
  - unfold kept_by_loop. rewrite Hnames. repeat split; try assumption.
    unfold rectangular, fillna in *. simpl.
    apply Forall_map. eapply Forall_impl; [|exact Hr].
    intros col Hcol. simpl. now rewrite length_map.
  - unfold filled, fillna. simpl. apply Forall_map, Forall_forall. intros col _.
    simpl. apply Forall_map, Forall_forall. intros x _. apply fillna0_filled.
Qed.

Lemma lookup_In (c : string) (v : list cell) (d : list (string * list cell)) :
  lookup c d = Some v -> In (c, v) d.
Proof.
  induction d as [|[k w] d IH]; simpl; [discriminate|].
  destruct (String.eqb c k) eqn:E.
  - intros [= ->]. left. apply String.eqb_eq in E. now subst.
  - intros H. right. now apply IH.
Qed.

Lemma series_add_length (a b v : list cell) :
  series_add a b = Ok v -> length a = length b -> length v = length a.
Proof.
  revert b v. induction a as [|x a IH]; intros [|y b] v H Hlen; simpl in *;
    try discriminate.
  - now injection H as <-.
  - destruct (cell_add x y); [|discriminate].
    destruct (series_add a b) as [zs|] eqn:E; [|discriminate].
    injection H as <-. simpl. f_equal. apply (IH b); [assumption | lia].
Qed.

(** The two ways [add_edu_img] returns. *)
Lemma add_edu_img_returns (o out : OutFrame) (l : list message) :
  add_edu_img o = (l, Ok out) ->
  out = o
  \/ exists e i v,
       column "Education" o = Some e /\ column "Images" o = Some i
       /\ series_add e i = Ok v /\ ~ In "Edu+Img" (names o)
       /\ out = with_column_after (get_loc "Images" (names o)) "Edu+Img" v o.
Proof.
  unfold add_edu_img.
  destruct (mem "Education" (names o) && mem "Images" (names o)).
  - destruct (column "Education" o) as [e|];
      [|destruct (column "Images" o); discriminate].
    destruct (column "Images" o) as [i|]; [|discriminate].
    destruct (series_add e i) as [v|] eqn:Hv; [|discriminate].
    unfold lift, bind, print, insert. simpl.
    destruct (mem "Edu+Img" (names o)) eqn:Hm; [discriminate|].
    intros H. injection H as _ <-. right. exists e, i, v.
    apply mem_not_In in Hm. repeat split; assumption.
  - unfold bind, print, ret. simpl. intros H. injection H as _ <-. now left.
Qed.

Lemma with_column_after_kept (ms allowed : list string) (k : nat) (c : string)
  (v : list cell) (o : OutFrame) :
  kept_by_loop ms allowed o -> ~ In c (names o) -> length v = length ms ->
  kept_by_loop ms (allowed ++ [c]) (with_column_after k c v o).
Proof.
  intros [Hi [Hr [Hn Ha]]] Hc Hv.
  assert (Hnames : Permutation (names (with_column_after k c v o)) (c :: names o)).
  { unfold names, with_column_after. simpl. rewrite map_app. simpl.
    rewrite <- Permutation_middle, <- map_app, firstn_skipn. reflexivity. }
  unfold kept_by_loop. split; [exact Hi|]. split; [|split].
  - unfold rectangular, with_column_after in *. simpl. rewrite Hi in *.
    apply Forall_app. split; [now apply Forall_take|].
    constructor; [exact Hv | now apply Forall_skip].
  - apply (Permutation_NoDup (Permutation_sym Hnames)). now constructor.
  - intros x Hx. apply (Permutation_in _ Hnames) in Hx. apply in_or_app.
    destruct Hx as [<-|Hx]; [right; now left | left; now apply Ha].
Qed.

(** X9.  Every table [transform] returns, for whatever two lists and
    whatever sheet, is a proper table: its row labels are the metric
    list, every column has one cell per row, no column name occurs twice,
    every column is a category of the list or "Edu+Img", and no cell of a
    column other than "Edu+Img" is blank. *)
Theorem X9_returned_table_is_well_formed :
  forall (ms cs : list string) (df : DataFrame) (log : list message) (out : OutFrame),
    transform ms cs df = (log, Ok out) ->
    index out = ms
    /\ rectangular out
    /\ NoDup (names out)
    /\ incl (names out) (cs ++ ["Edu+Img"])
    /\ filled_except "Edu+Img" out.
Proof.
  intros ms cs df log out Hrun.
  unfold transform, populate in Hrun.
  destruct (for_each cs (process_category ms df) (empty_frame ms)) as [l1 [o|e]] eqn:Hloop;
    [|discriminate].
  unfold bind at 2 3 in Hrun. unfold ret in Hrun.
  destruct (add_edu_img (fillna o)) as [l2 [o2|e]] eqn:Hadd; [|discriminate].
  unfold bind, print, ret in Hrun. simpl in Hrun. injection Hrun as _ <-.
  assert (Ho : kept_by_loop ms cs o).
  { refine (for_each_invariant (kept_by_loop ms cs) (process_category ms df) cs
              _ _ _ _ _ Hloop).
    - intros c s l s' Hc Hs Hb. now apply (process_category_kept ms cs df c s s' l).
    - unfold kept_by_loop, rectangular, empty_frame. simpl.
      repeat split; try constructor. intros x []. }
  destruct (fillna_kept ms cs o Ho) as [Hk Hf].
  assert (Hfe : filled_except "Edu+Img" (fillna o)).
  { unfold filled_except, filled in *. eapply Forall_impl; [|exact Hf]. auto. }
  destruct (add_edu_img_returns _ _ _ Hadd) as [->|[e [i [v [He [Hi [Hv [Hn ->]]]]]]]].
  - destruct Hk as [H1 [H2 [H3 H4]]]. repeat split; try assumption.
    intros x Hx. apply in_or_app. left. now apply H4.
  - assert (Hlen : forall c col, column c (fillna o) = Some col ->
                     length col = length ms).
    { intros c col Hc. apply lookup_In in Hc.
      destruct Hk as [H1 [H2 _]]. unfold rectangular in *.
      rewrite Forall_forall in H2. rewrite <- H1. apply (H2 _ Hc). }
    pose proof (Hlen _ _ He) as Hle. pose proof (Hlen _ _ Hi) as Hli.
    assert (Hvl : length v = length ms).
    { rewrite (series_add_length e i v Hv); congruence. }
    destruct (with_column_after_kept ms cs (get_loc "Images" (names (fillna o)))
                "Edu+Img" v (fillna o) Hk Hn Hvl) as [H1 [H2 [H3 H4]]].
    repeat split; try assumption.
    unfold filled_except, with_column_after in *. simpl.
    apply Forall_app. split; [now apply Forall_take|].
    constructor; [|now apply Forall_skip].
    simpl. intros Hne. now contradiction Hne.
Qed.

Lemma X9_returned_table_is_well_formed_witness :
  index (mkOutFrame ["[X]"; "[X]"] [("A", [Str "a"; Str "a"])]) = ["[X]"; "[X]"]
  /\ rectangular (mkOutFrame ["[X]"; "[X]"] [("A", [Str "a"; Str "a"])])
  /\ NoDup (names (mkOutFrame ["[X]"; "[X]"] [("A", [Str "a"; Str "a"])]))
  /\ incl (names (mkOutFrame ["[X]"; "[X]"] [("A", [Str "a"; Str "a"])]))
          (["A"; "A"] ++ ["Edu+Img"])
  /\ filled_except "Edu+Img" (mkOutFrame ["[X]"; "[X]"] [("A", [Str "a"; Str "a"])]).
Proof.
  apply (X9_returned_table_is_well_formed ["[X]"; "[X]"] ["A"; "A"]
           (mkDataFrame [category_col; "[X]"] [[Str "A"; Str "a"]])
           [Transforming; CategoryProcessed "A"; CategoryProcessed "A"; AddingEduImg;
            EduImgSkipped; TransformationComplete 2 1]).
  reflexivity.
Defined.

(** X10.  On a sheet with the key column in which no record carries a
    category of the list (an empty sheet, or records of other categories
    only) the category script prints one warning per category and returns
    the table of zeros, the derived column included. *)
Theorem X10_no_category_record_gives_zeros :
  forall (df : DataFrame),
    In category_col (columns df) ->
    (forall c, In c categories -> first_match df c = None) ->
    transform_to_column_format df
    = (Transforming :: map CategoryNotFound categories
         ++ [AddingEduImg; TransformationComplete 18 11],
       Ok zero_table).
Proof.
  intros df Hk Hnone. unfold transform_to_column_format.
  pose proof (populate_spec df Category.metrics categories Hk metrics_not_nil
                categories_NoDup) as Hp.
  assert (Hev : map (spec_event df) categories = map CategoryNotFound categories).
  { apply map_ext_in. intros c Hc. unfold spec_event. now rewrite (Hnone c Hc). }
  assert (Htab : spec_table Category.metrics categories df
                 = mkOutFrame Category.metrics
                     (map (fun c => (c, repeat (Num 0) 18)) categories)).
  { unfold spec_table. f_equal. apply map_ext_in. intros c Hc.
    unfold spec_column. now rewrite (Hnone c Hc). }
  rewrite Hev, Htab in Hp.
  assert (Ha : add_edu_img (mkOutFrame Category.metrics
                              (map (fun c => (c, repeat (Num 0) 18)) categories))
               = ([AddingEduImg], Ok zero_table)) by (vm_compute; reflexivity).
  rewrite (transform_returns _ _ _ _ _ _ _ Hp Ha). reflexivity.
Qed.

Lemma X10_no_category_record_gives_zeros_witness :
  transform_to_column_format MoreExamples.foreign_sheet
  = (Transforming :: map CategoryNotFound categories
       ++ [AddingEduImg; TransformationComplete 18 11],
     Ok zero_table).
Proof.
  apply X10_no_category_record_gives_zeros.
  - simpl. tauto.
  - intros c Hc. vm_compute in Hc.
    repeat (destruct Hc as [<-|Hc]; [reflexivity|]). destruct Hc.
Defined.

Lemma series_add_raises (a b : list cell) (e : exc) :
  series_add a b = Raise e -> e = TypeError.
Proof.
  revert b. induction a as [|x a IH]; intros [|y b] H; simpl in H; try discriminate.
  destruct (cell_add x y) as [z|e'] eqn:Ez.
  - destruct (series_add a b) as [zs|e'] eqn:E; [discriminate|].
    injection H as <-. now apply (IH b).
  - injection H as <-. now apply (cell_add_raises x y).
Qed.

(** The two ways [add_edu_img] raises. *)
Lemma add_edu_img_raises (o : OutFrame) (l : list message) (e : exc) :
  add_edu_img o = (l, Raise e) ->
  l = [AddingEduImg]
  /\ (e = TypeError
      \/ (e = ValueError "cannot insert Edu+Img, already exists"
          /\ In "Edu+Img" (names o))).
Proof.
  unfold add_edu_img.
  destruct (mem "Education" (names o)) eqn:He; simpl andb; cbv iota;
    [|unfold bind, print, ret; simpl; discriminate].
  destruct (mem "Images" (names o)) eqn:Hi;
    [|unfold bind, print, ret; simpl; discriminate].
  apply mem_In in He, Hi.
  destruct (column "Education" o) as [ed|] eqn:Hed.
  2:{ apply lookup_None in Hed. contradiction. }
  destruct (column "Images" o) as [im|] eqn:Him.
  2:{ apply lookup_None in Him. contradiction. }
  unfold lift, bind, print, insert.
  destruct (series_add ed im) as [v|e'] eqn:Hv.
  - destruct (mem "Edu+Img" (names o)) eqn:Hm; simpl; [|discriminate].
    intros H. injection H as <- <-. split; [reflexivity|].
    right. split; [reflexivity | now apply mem_In].
  - simpl. intros H. injection H as <- <-. split; [reflexivity|].
    left. now apply (series_add_raises ed im).
Qed.

(** X12.  The only ways [transform] fails, for whatever lists and
    sheet.  Without the key column (and with at least one category) the
    first lookup raises [KeyError] after the opening line alone.  With the
    key column the loop always completes, one line per category, and only
    the derived column can fail: with [TypeError] when a text meets a
    number in the sum, or with [ValueError] when the category list itself
    has an "Edu+Img". *)
Theorem X12_transform_failures :
  forall (ms cs : list string) (df : DataFrame) (log : list message) (e : exc),
    transform ms cs df = (log, Raise e) ->
    (~ In category_col (columns df)
     /\ e = KeyError category_col
     /\ log = [Transforming])
    \/ (In category_col (columns df)
        /\ log = Transforming :: map (spec_event df) cs ++ [AddingEduImg]
        /\ (e = TypeError
            \/ (e = ValueError "cannot insert Edu+Img, already exists"
                /\ In "Edu+Img" cs))).
Proof.
  intros ms cs df log e Hrun.
  destruct (in_dec string_dec category_col (columns df)) as [Hk|Hk].
  - right. split; [exact Hk|].
    assert (Hloop : for_each cs (process_category ms df) (empty_frame ms)
                    = (map (spec_event df) cs,
                       Ok (fold_left (fun o c => Spec.round ms df c o) cs
                                     (empty_frame ms)))).
    { apply for_each_pure. intros c o _. now apply process_category_round. }
    set (o := fold_left (fun o c => Spec.round ms df c o) cs (empty_frame ms)) in *.
    assert (Hp : populate ms cs df = (map (spec_event df) cs, Ok (fillna o))).
    { unfold populate. rewrite Hloop. unfold bind, ret. now rewrite app_nil_r. }
    assert (Ho : kept_by_loop ms cs o).
    { refine (for_each_invariant (kept_by_loop ms cs) (process_category ms df) cs
                _ _ _ _ _ Hloop).
      - intros c s l s' Hc Hs Hb. now apply (process_category_kept ms cs df c s s' l).
      - unfold kept_by_loop, rectangular, empty_frame. simpl.
        repeat split; try constructor. intros x []. }
    destruct (fillna_kept ms cs o Ho) as [[_ [_ [_ Hincl]]] _].
    destruct (add_edu_img (fillna o)) as [l2 [out|e']] eqn:Hadd.
    + rewrite (transform_returns _ _ _ _ _ _ _ Hp Hadd) in Hrun. discriminate.
    + rewrite (transform_raises_late _ _ _ _ _ _ _ Hp Hadd) in Hrun.
      injection Hrun as <- <-.
      destruct (add_edu_img_raises _ _ _ Hadd) as [-> Hwhy].
      split; [reflexivity|].
      destruct Hwhy as [Hwhy|[Hwhy Hin]]; [now left|].
      right. split; [exact Hwhy | now apply Hincl].
  - left. split; [exact Hk|]. destruct cs as [|c cs].
    + vm_compute in Hrun. discriminate.
    + rewrite (transform_raises_early ms (c :: cs) df [] (KeyError category_col))
        in Hrun by now apply populate_no_key.
      injection Hrun as <- <-. split; reflexivity.
Qed.

Lemma X12_transform_failures_witness :
  (~ In category_col (columns Examples.text_sheet)
   /\ TypeError = KeyError category_col
   /\ Transforming :: map (spec_event Examples.text_sheet) categories ++ [AddingEduImg]
      = [Transforming])
  \/ (In category_col (columns Examples.text_sheet)
      /\ Transforming :: map (spec_event Examples.text_sheet) categories ++ [AddingEduImg]
         = Transforming :: map (spec_event Examples.text_sheet) categories
             ++ [AddingEduImg]
      /\ (TypeError = TypeError
          \/ (TypeError = ValueError "cannot insert Edu+Img, already exists"
              /\ In "Edu+Img" categories))).
Proof.
  apply (X12_transform_failures Category.metrics categories Examples.text_sheet).
  vm_compute. reflexivity.
Defined.

(** X13.  The category script from end to end: when the sheet can be
    read and has the key column, no text meets a number in the sum of the
    "Education" and the "Images" column, and the output file can be
    written, [main] ends with status 0 having written exactly one file,
    at the output path of the command line (or the default one), and that
    file holds the table of the specification: the values of each
    category's first record, 0 for a blank or missing one, and the
    float64 sums in "Edu+Img" after "Images". *)
Theorem X13_category_main_succeeds :
  forall (w : World) (prog input_file : string) (rest : list string) (df : DataFrame),
    read_excel w input_file = Ok df ->
    In category_col (columns df) ->
    sources_clash df = false ->
    to_excel w (output_file_of input_file rest) = Ok tt ->
    CategoryMain.main w (prog :: input_file :: rest)
    = mkRun 0
        ((Transforming :: map (spec_event df) categories
            ++ [AddingEduImg; TransformationComplete 18 11])
           ++ [Saved (output_file_of input_file rest)])
        [(output_file_of input_file rest, spec_final df)].
Proof.
  intros w prog input_file rest df Hread Hk Hnum Hwrite.
  unfold CategoryMain.main. rewrite Hread, (transform_outcome df Hk), Hnum, Hwrite.
  reflexivity.
Qed.

Lemma X13_category_main_succeeds_witness :
  CategoryMain.main MoreExamples.e2e_world ["prog"; "in.xlsx"; "out.xlsx"]
  = mkRun 0
      ((Transforming :: map (spec_event Examples.e2e_sheet) categories
          ++ [AddingEduImg; TransformationComplete 18 11])
         ++ [Saved (output_file_of "in.xlsx" ["out.xlsx"])])
      [(output_file_of "in.xlsx" ["out.xlsx"], spec_final Examples.e2e_sheet)].
Proof.
  apply (X13_category_main_succeeds MoreExamples.e2e_world "prog" "in.xlsx"
           ["out.xlsx"] Examples.e2e_sheet).
  - reflexivity.
  - simpl. tauto.
  - reflexivity.
  - reflexivity.
Defined.

End CategoryWhole.

(* ================================================================== *)
(** * The two scripts from the command line *)

Section Mains.

Import Category Services Spec Report.



Lemma bind_nil_ok {A B} (a : A) (f : A -> M B) : bind ([], Ok a) f = f a.
Proof. unfold bind. destruct (f a). reflexivity. Qed.

Lemma bind_ok_inv {A B} (m : M A) (f : A -> M B) (l : list message) (b : B) :
  bind m f = (l, Ok b) ->
  exists l1 a l2, m = (l1, Ok a) /\ f a = (l2, Ok b).
Proof.
  unfold bind. destruct m as [l1 [a|e]]; [|discriminate].
  destruct (f a) as [l2 r] eqn:E. intros H. injection H as _ ->. eauto.
Qed.

(** A service of the list without a record stops the services script,
    whatever else the sheet holds: no step after it runs. *)
Lemma services_steps_without_service (df : DataFrame) (s : string) :
  In s service_order ->
  (forall row, In row (rows df) -> cell_eqb (key_of df row) (Str s) = false) ->
  forall (l : list message) (out : TFrame),
    Report.run_steps df metric_order service_order <> (l, Ok out).
Proof.
  intros Hs Hnone l out Hrun. unfold run_steps in Hrun.
  apply bind_ok_inv in Hrun. destruct Hrun as [l1 [df' [l2 [Hcheck Hrun]]]].
  assert (df' = df).
  { unfold check_required_column in Hcheck.
    destruct (negb (mem service_col (columns df))); [discriminate|].
    now injection Hcheck as _ <-. }
  subst df'.
  apply bind_ok_inv in Hrun. destruct Hrun as [l3 [t [l4 [Ht Ha]]]].
  assert (Hne : s <> service_col).
  { intros ->. vm_compute in Hs. intuition discriminate. }
  pose proof (transform_data_no_record df _ l3 t s Ht Hne Hnone) as Hmiss.
  destruct (apply_output_structure_missing t metric_order service_order s Hs Hmiss)
    as [k Hk].
  rewrite Hk in Ha. discriminate.
Qed.

(** When the five steps cannot return, [main] ends with status 1 and
    has written nothing: [save_output] is never called. *)
Lemma services_main_fails (w : World) (prog input_file : string) (rest : list string)
  (df : DataFrame) :
  path_exists w input_file = true ->
  read_excel w input_file = Ok df ->
  (forall l out, Report.run_steps df metric_order service_order <> (l, Ok out)) ->
  exit_code (ServicesMain.main w (prog :: input_file :: rest)) = 1%Z
  /\ written (ServicesMain.main w (prog :: input_file :: rest)) = [].
Proof.
  intros He Hread Hno.
  assert (Hr : ServicesMain.read_input_data w input_file = check_required_column df).
  { unfold ServicesMain.read_input_data. rewrite He, Hread.
    simpl negb. cbv iota. unfold lift. apply bind_nil_ok. }
  unfold ServicesMain.main. cbv zeta. rewrite Hr.
  match goal with
  | |- context [match ?steps with (_, _) => _ end] =>
      destruct steps as [l [f|e]] eqn:Hsteps
  end; [exfalso | split; reflexivity].
  apply bind_ok_inv in Hsteps. destruct Hsteps as [l1 [d [l2 [Hc Hsteps]]]].
  apply bind_ok_inv in Hsteps. destruct Hsteps as [l3 [t [l4 [Ht Hsteps]]]].
  unfold get_hardcoded_structure in Hsteps. cbv beta iota in Hsteps.
  apply bind_ok_inv in Hsteps. destruct Hsteps as [l5 [f' [l6 [Ha _]]]].
  apply (Hno (l1 ++ l3 ++ l5) f'). unfold run_steps.
  rewrite Hc. unfold bind at 1. rewrite Ht. unfold bind. now rewrite Ha.
Qed.



End Mains.

(* ================================================================== *)
(** * The default output path, read back *)

Section PathsBack.

Import PathLib Report.

Local Open Scope string_scope.

Lemma split_slash_app (x s : string) :
  has_slash x = false ->
  split_slash (x ++ String "/" s) = x :: split_slash s.
Proof.
  induction x as [|c x IH]; simpl; [reflexivity|].
  intros H. apply orb_false_iff in H. destruct H as [Hc Hx].
  rewrite Hc, (IH Hx). reflexivity.
Qed.

Lemma split_concat (l : list string) :
  Forall (fun x => has_slash x = false) l -> l <> [] ->
  split_slash (String.concat "/" l) = l.
Proof.
  induction 1 as [|x l Hx Hl IH]; intros Hne; [contradiction|].
  destruct l as [|y l].
  - simpl. now apply split_slash_whole.
  - change (String.concat "/" (x :: y :: l))
      with (x ++ String "/" (String.concat "/" (y :: l))).
    rewrite split_slash_app by assumption. f_equal. apply IH. discriminate.
Qed.

Lemma filter_components (l : list string) :
  Forall (fun x => has_slash x = false /\ is_component x = true) l ->
  filter is_component l = l.
Proof.
  induction 1 as [|x l [_ Hx] Hl IH]; simpl; [reflexivity|].
  now rewrite Hx, IH.
Qed.

Lemma concat_head (x : string) (l : list string) :
  has_slash x = false -> is_component x = true ->
  exists c rest, String.concat "/" (x :: l) = String c rest /\ Ascii.eqb "/" c = false.
Proof.
  intros Hs Hc. destruct x as [|c x]; [discriminate|].
  simpl in Hs. apply orb_false_iff in Hs. destruct Hs as [Hc' _].
  rewrite Ascii.eqb_sym in Hc'.
  destruct l as [|y l]; simpl; eauto.
Qed.

(** [Path(str(p))] is [p]. *)
Lemma parse_to_str (p : PurePath) : proper_path p -> parse (to_str p) = p.
Proof.
  destruct p as [r ps]. intros [Hr Hps]. simpl in Hr, Hps.
  destruct ps as [|x l].
  - destruct Hr as [-> | [-> | ->]]; reflexivity.
  - inversion Hps as [|? ? [Hxs Hxc] Hl]; subst.
    assert (Hnoslash : Forall (fun y => has_slash y = false) (x :: l)).
    { eapply Forall_impl; [|exact Hps]. intros y [Hy _]. exact Hy. }
    pose proof (split_concat (x :: l) Hnoslash ltac:(discriminate)) as Hsplit.
    destruct (concat_head x l Hxs Hxc) as [c [rest [Hbody Hc]]].
    unfold to_str. cbn [parts root].
    set (body := String.concat "/" (x :: l)) in *.
    destruct Hr as [-> | [-> | ->]]; unfold parse.
    + change ("" ++ body) with body. rewrite Hsplit, (filter_components _ Hps).
      rewrite Hbody. cbn [startswith]. rewrite Hc. reflexivity.
    + change ("/" ++ body) with (String "/" body).
      cbn [split_slash]. rewrite Ascii.eqb_refl, Hsplit.
      change (filter is_component ("" :: x :: l)) with (filter is_component (x :: l)).
      rewrite (filter_components _ Hps).
      rewrite Hbody. cbn [startswith]. rewrite Ascii.eqb_refl, Hc. reflexivity.
    + change ("//" ++ body) with (String "/" (String "/" body)).
      cbn [split_slash]. rewrite Ascii.eqb_refl, Hsplit.
      change (filter is_component ("" :: "" :: x :: l))
        with (filter is_component (x :: l)).
      rewrite (filter_components _ Hps).
      rewrite Hbody. cbn [startswith]. rewrite Ascii.eqb_refl, Hc. reflexivity.
Qed.

Lemma Forall_removelast {A} (P : A -> Prop) (l : list A) :
  Forall P l -> Forall P (removelast l).
Proof.
  induction 1 as [|x l Hx Hl IH]; simpl; [constructor|].
  destruct l; [constructor | now constructor].
Qed.

Lemma parse_proper (s : string) : proper_path (parse s).
Proof.
  unfold proper_path, parse. cbn [root parts]. split.
  - destruct (startswith "//" s && negb (startswith "///" s));
      [right; right; reflexivity|].
    destruct (startswith "/" s); [right; left; reflexivity | left; reflexivity].
  - apply Forall_forall. intros x Hx. apply filter_In in Hx. destruct Hx as [Hx Hc].
    split; [|exact Hc].
    pose proof (split_slash_no_slash s) as Hall. rewrite Forall_forall in Hall.
    now apply Hall.
Qed.

Lemma default_output_path_proper (input_file : string) :
  proper_path (default_output_path input_file).
Proof.
  rewrite default_output_path_eq. destruct (parse_proper input_file) as [Hr Hps].
  split; [exact Hr|]. simpl. apply Forall_app. split.
  - now apply Forall_removelast.
  - constructor; [|constructor]. split.
    + rewrite has_slash_app, stem_no_slash. reflexivity.
    + apply output_name_component.
Qed.

Lemma substring_whole (s : string) : substring 0 (String.length s) s = s.
Proof. induction s as [|c s IH]; simpl; [reflexivity | now rewrite IH]. Qed.

Lemma substring_halves (s : string) (i : nat) :
  i <= String.length s ->
  substring 0 i s ++ substring i (String.length s - i) s = s.
Proof.
  revert i. induction s as [|c s IH]; intros [|i] Hi; simpl in *; try lia.
  - reflexivity.
  - now rewrite substring_whole.
  - rewrite IH by lia. reflexivity.
Qed.

Lemma rfind_dot_lt (s : string) (i : nat) :
  rfind_dot s = Some i -> i < String.length s.
Proof.
  revert i. induction s as [|c s IH]; intros i; simpl; [discriminate|].
  destruct (rfind_dot s) as [j|].
  - intros [= <-]. specialize (IH j eq_refl). lia.
  - destruct (Ascii.eqb c "."); [intros [= <-]; lia | discriminate].
Qed.

Lemma suffix_at_dot (s : string) (i : nat) :
  rfind_dot s = Some i ->
  exists t, substring i (String.length s - i) s = String "." t.
Proof.
  revert i. induction s as [|c s IH]; intros i; simpl; [discriminate|].
  destruct (rfind_dot s) as [j|].
  - intros [= <-]. simpl. apply IH. reflexivity.
  - destruct (Ascii.eqb c ".") eqn:E; [|discriminate].
    intros [= <-]. apply Ascii.eqb_eq in E. subst c. simpl. eauto.
Qed.

Lemma append_empty (s : string) : s ++ "" = s.
Proof. induction s as [|c s IH]; simpl; [reflexivity | now rewrite IH]. Qed.

(** The name of a path is its stem followed by its suffix. *)
Lemma stem_suffix (p : PurePath) : stem p ++ suffix p = name p.
Proof.
  unfold stem, suffix, suffix_start.
  destruct (rfind_dot (name p)) as [i|] eqn:E; [|apply append_empty].
  destruct (Nat.ltb 0 i && Nat.ltb i (String.length (name p) - 1));
    [|apply append_empty].
  apply substring_halves. apply rfind_dot_lt in E. lia.
Qed.

Lemma suffix_shape (p : PurePath) :
  suffix p = "" \/ exists t, suffix p = String "." t.
Proof.
  unfold suffix, suffix_start.
  destruct (rfind_dot (name p)) as [i|] eqn:E; [|now left].
  destruct (Nat.ltb 0 i && Nat.ltb i (String.length (name p) - 1)); [|now left].
  right. now apply suffix_at_dot.
Qed.

Lemma append_cancel (a b c : string) : a ++ b = a ++ c -> b = c.
Proof.
  induction a as [|x a IH]; simpl; [trivial|]. intros [= H]. now apply IH.
Qed.

Lemma default_output_path_differs (input_file : string) :
  default_output_path input_file <> parse input_file.
Proof.
  rewrite default_output_path_eq. intros H.
  assert (Hname : name (parse input_file)
                  = stem (parse input_file) ++ "_output.xlsx").
  { rewrite <- H at 1. apply name_with_last. }
  rewrite <- stem_suffix in Hname at 1. apply append_cancel in Hname.
  destruct (suffix_shape (parse input_file)) as [Hs|[t Hs]];
    rewrite Hs in Hname; discriminate.
Qed.

(** X14.  The default output file is never the input file: the string
    the scripts compute, read back as a path, is the path they built (same
    directory, name "<stem>_output.xlsx"), and that path differs from the
    path of the input, whatever the input argument is; so the sheet that
    was read is not overwritten when no output path is given. *)
Theorem X14_default_output_is_not_the_input :
  forall (input_file : string),
    parse (default_output_file input_file) = default_output_path input_file
    /\ parse (default_output_file input_file) <> parse input_file
    /\ default_output_file input_file <> input_file.
Proof.
  intros input_file.
  assert (Hback : parse (default_output_file input_file)
                  = default_output_path input_file).
  { unfold default_output_file. apply parse_to_str, default_output_path_proper. }
  split; [exact Hback|]. split.
  - rewrite Hback. apply default_output_path_differs.
  - intros H. apply (default_output_path_differs input_file).
    rewrite <- Hback, H. reflexivity.
Qed.

End PathsBack.
(* ================================================================== *)
(** * The claims *)

(** C1 as written fails on the services script: a sheet with every
    service but only two of the eighteen tracked metrics gives a table of
    two rows. *)
Lemma C1_services_rows_counterexample :
  In service_col (columns two_metric_sheet)
  /\ exists out,
       pipeline two_metric_sheet = ([], Ok out)
       /\ length (row_labels out) = 2
       /\ length metric_order = 18.
Proof.
  split; [now left|]. eexists. split; [vm_compute; reflexivity|].
  split; reflexivity.
Qed.

(** C1, amended.  Category script: for a sheet with the key column, a
    metric list that is not empty and a category list without
    repetition, the table before the derived column has one row per
    metric and one column per category, each column of full height,
    whatever the sheet holds.  Services script: when every column asked
    for exists, the table has the label column and one column per service,
    and one row per tracked metric that the sheet has; that is one row per
    metric of [metric_order] exactly when the sheet has them all. *)
Theorem C1_shape :
  (forall (ms cs : list string) (df : DataFrame),
      In category_col (columns df) -> ms <> [] -> NoDup cs ->
      exists log out,
        populate ms cs df = (log, Ok out)
        /\ length (index out) = length ms
        /\ length (names out) = length cs
        /\ Forall (fun col => length (snd col) = length ms) (data out))
  /\
  (forall (t : TFrame) (mo so : list string) (names : list cell),
      dict_get (Str service_col) t = Some names ->
      NoDup mo -> NoDup names ->
      (forall s, In s so -> s <> "_sort_order" /\ dict_get (Str s) t <> None) ->
      exists out,
        apply_output_structure t mo so = ([], Ok out)
        /\ length (labels out) = S (length so)
        /\ length (row_labels out) = length (filter (present names) mo)
        /\ (length (row_labels out) = length mo
            <-> forall m, In m mo -> In (Str m) names)).
Proof.
  split.
  - intros ms cs df Hk Hne Hnd.
    exists (map (spec_event df) cs), (spec_table ms cs df).
    split; [now apply populate_spec|]. split; [reflexivity|].
    split; [now rewrite names_spec_table|].
    unfold spec_table. simpl. apply Forall_map, Forall_forall. intros c _.
    apply spec_column_length.
  - intros t mo so names Hn Hmo Hnames Hall.
    destruct (apply_output_structure_ok t mo so names Hn Hall)
      as [out [Hr [Hl [Hrows _]]]].
    exists out. split; [exact Hr|].
    rewrite Hl, Hrows, arranged_names_eq by assumption.
    rewrite !length_map. simpl. rewrite length_map.
    split; [reflexivity|]. split; [reflexivity|].
    rewrite filter_length_all. split; intros H m Hm.
    + now apply present_In, H.
    + now apply present_In, H.
Qed.

Lemma C1_shape_witness :
  (exists log out,
      populate e2e_metrics e2e_categories e2e_sheet = (log, Ok out)
      /\ length (index out) = length e2e_metrics
      /\ length (names out) = length e2e_categories
      /\ Forall (fun col => length (snd col) = length e2e_metrics) (data out))
  /\
  (exists out,
      apply_output_structure small_frame small_metric_order small_service_order
      = ([], Ok out)
      /\ length (labels out) = S (length small_service_order)
      /\ length (row_labels out)
         = length (filter (present [Str "[B]"; Str "[A]"; Str "[Z]"]) small_metric_order)
      /\ (length (row_labels out) = length small_metric_order
          <-> forall m, In m small_metric_order
                        -> In (Str m) [Str "[B]"; Str "[A]"; Str "[Z]"])).
Proof.
  split.
  - apply (proj1 C1_shape).
    + simpl. tauto.
    + discriminate.
    + unfold e2e_categories. nodup.
  - apply (proj2 C1_shape).
    + reflexivity.
    + unfold small_metric_order. nodup.
    + nodup.
    + unfold small_service_order. simpl.
      intros s [<-|[<-|[]]]; split; discriminate.
Defined.

(** C2 as written fails on the services script: with two tracked
    metrics in the sheet the rows are those two, not [metric_order]. *)
Lemma C2_services_rows_counterexample :
  exists out,
    pipeline two_metric_sheet = ([], Ok out)
    /\ row_labels out = [Str "[TopLine_Revenue]"; Str "[Base_usuarios]"]
    /\ row_labels out <> map Str metric_order.
Proof.
  eexists. split; [vm_compute; reflexivity|]. split; [reflexivity|].
  vm_compute. discriminate.
Qed.

(** C2, amended.  Category script: for a sheet with the key column, a
    metric list that is not empty and a category list without
    repetition, the rows of the table are the metric list and its columns
    the category list, both verbatim, and the same for the records taken
    in any other order.  Services script: when every column asked for
    exists, the columns are the label column and then [service_order]
    verbatim, and the rows are [metric_order] with the metrics the sheet
    lacks left out. *)
Theorem C2_order :
  (forall (ms cs : list string) (df : DataFrame),
      In category_col (columns df) -> ms <> [] -> NoDup cs ->
      exists log out,
        populate ms cs df = (log, Ok out)
        /\ index out = ms
        /\ names out = cs
        /\ forall rows',
             Permutation (rows df) rows' ->
             exists log' out',
               populate ms cs (mkDataFrame (columns df) rows') = (log', Ok out')
               /\ index out' = ms /\ names out' = cs)
  /\
  (forall (t : TFrame) (mo so : list string) (names : list cell),
      dict_get (Str service_col) t = Some names ->
      NoDup mo -> NoDup names ->
      (forall s, In s so -> s <> "_sort_order" /\ dict_get (Str s) t <> None) ->
      exists out,
        apply_output_structure t mo so = ([], Ok out)
        /\ labels out = Str service_col :: map Str so
        /\ row_labels out = map Str (filter (present names) mo)).
Proof.
  split.
  - intros ms cs df Hk Hne Hnd.
    exists (map (spec_event df) cs), (spec_table ms cs df).
    split; [now apply populate_spec|]. split; [reflexivity|].
    split; [apply names_spec_table|].
    intros rows' _.
    exists (map (spec_event (mkDataFrame (columns df) rows')) cs),
           (spec_table ms cs (mkDataFrame (columns df) rows')).
    split; [now apply populate_spec|]. split; [reflexivity | apply names_spec_table].
  - intros t mo so names Hn Hmo Hnames Hall.
    destruct (apply_output_structure_ok t mo so names Hn Hall)
      as [out [Hr [Hl [Hrows _]]]].
    exists out. split; [exact Hr|]. split; [exact Hl|].
    rewrite Hrows. now apply arranged_names_eq.
Qed.

Lemma C2_order_witness :
  (exists log out,
      populate e2e_metrics e2e_categories e2e_sheet = (log, Ok out)
      /\ index out = e2e_metrics
      /\ names out = e2e_categories
      /\ forall rows',
           Permutation (rows e2e_sheet) rows' ->
           exists log' out',
             populate e2e_metrics e2e_categories
               (mkDataFrame (columns e2e_sheet) rows') = (log', Ok out')
             /\ index out' = e2e_metrics /\ names out' = e2e_categories)
  /\
  (exists out,
      apply_output_structure small_frame small_metric_order small_service_order
      = ([], Ok out)
      /\ labels out = Str service_col :: map Str small_service_order
      /\ row_labels out
         = map Str (filter (present [Str "[B]"; Str "[A]"; Str "[Z]"])
                           small_metric_order)).
Proof.
  split.
  - apply (proj1 C2_order).
    + simpl. tauto.
    + discriminate.
    + unfold e2e_categories. nodup.
  - apply (proj2 C2_order).
    + reflexivity.
    + unfold small_metric_order. nodup.
    + nodup.
    + unfold small_service_order. simpl.
      intros s [<-|[<-|[]]]; split; discriminate.
Defined.

(** C3 as written fails on the services script: with no record for
    "Smile & Learn" the run stops with [KeyError], exits with status 1
    and writes nothing. *)
Lemma C3_services_missing_entity_counterexample :
  In service_col (columns sheet_without_last_service)
  /\ pipeline sheet_without_last_service = ([], Raise (KeyError "Smile & Learn"))
  /\ exit_code (ServicesMain.main world_without_last_service ["prog"; "in.xlsx"]) = 1%Z
  /\ written (ServicesMain.main world_without_last_service ["prog"; "in.xlsx"]) = [].
Proof.
  split; [now left|]. split; [vm_compute; reflexivity|].
  split; vm_compute; reflexivity.
Qed.

(** C3, amended.  Category script: for a category of the list that no
    record of the sheet carries, the loop leaves a column of zeros, prints
    the not-found warning and no other line about that category, and
    returns; the whole of [transform_to_column_format] then returns with
    that column of zeros, unless a text meets a number in the sum of the
    "Education" and the "Images" column, which raises [TypeError].
    Services script: a service of [service_order] that the frame has no
    column for is not filled with zeros, the selection of the columns
    raises [KeyError]; and whatever the sheet that was read, when no
    record carries one of the thirteen services [main] ends with status 1
    and has written nothing. *)
Theorem C3_missing_entity :
  (forall (ms cs : list string) (df : DataFrame) (c : string),
      In category_col (columns df) -> ms <> [] -> NoDup cs ->
      In c cs -> first_match df c = None ->
      exists log out,
        populate ms cs df = (log, Ok out)
        /\ column c out = Some (repeat (Num 0) (length ms))
        /\ In (CategoryNotFound c) log
        /\ ~ In (CategoryProcessed c) log)
  /\
  (forall (df : DataFrame) (c : string),
      In category_col (columns df) ->
      In c categories -> first_match df c = None ->
      exists log,
        In (CategoryNotFound c) log
        /\ ~ In (CategoryProcessed c) log
        /\ ((sources_clash df = false
             /\ exists out,
                  transform_to_column_format df = (log, Ok out)
                  /\ column c out = Some (repeat (Num 0) (length Category.metrics)))
            \/ (sources_clash df = true
                /\ transform_to_column_format df = (log, Raise TypeError))))
  /\
  (forall (t : TFrame) (mo so : list string) (s : string),
      In s so -> dict_get (Str s) t = None ->
      exists k, apply_output_structure t mo so = ([], Raise (KeyError k)))
  /\
  (forall (w : World) (prog input_file : string) (rest : list string)
          (df : DataFrame) (s : string),
      path_exists w input_file = true ->
      read_excel w input_file = Ok df ->
      In s service_order ->
      (forall row, In row (rows df) -> cell_eqb (key_of df row) (Str s) = false) ->
      exit_code (ServicesMain.main w (prog :: input_file :: rest)) = 1%Z
      /\ written (ServicesMain.main w (prog :: input_file :: rest)) = []).
Proof.
  assert (Hev : forall (df : DataFrame) (cs : list string) (c : string),
            In c cs -> first_match df c = None ->
            In (CategoryNotFound c) (map (spec_event df) cs)
            /\ ~ In (CategoryProcessed c) (map (spec_event df) cs)).
  { intros df cs c Hc Hnone. split.
    - apply in_map_iff. exists c. unfold spec_event. now rewrite Hnone.
    - rewrite in_map_iff. intros [c' [He _]]. unfold spec_event in He.
      destruct (first_match df c') eqn:E; [|discriminate].
      injection He as ->. congruence. }
  split; [|split; [|split]].
  - intros ms cs df c Hk Hne Hnd Hc Hnone.
    exists (map (spec_event df) cs), (spec_table ms cs df).
    split; [now apply populate_spec|]. split; [|now apply Hev].
    rewrite column_spec_table by assumption. unfold spec_column. now rewrite Hnone.
  - intros df c Hk Hc Hnone.
    destruct (Hev df categories c Hc Hnone) as [Hin Hout].
    rewrite (transform_outcome df Hk).
    destruct (sources_clash df).
    + exists (Transforming :: map (spec_event df) categories ++ [AddingEduImg]).
      split; [|split].
      * right. apply in_or_app. left. exact Hin.
      * intros [H|H]; [discriminate|]. apply in_app_or in H.
        destruct H as [H|[H|[]]]; [contradiction | discriminate].
      * right. split; reflexivity.
    + exists (Transforming :: map (spec_event df) categories
                ++ [AddingEduImg; TransformationComplete 18 11]).
      split; [|split].
      * right. apply in_or_app. left. exact Hin.
      * intros [H|H]; [discriminate|]. apply in_app_or in H.
        destruct H as [H|[H|[H|[]]]]; [contradiction | discriminate | discriminate].
      * left. split; [reflexivity|]. eexists. split; [reflexivity|].
        unfold spec_final. rewrite column_with_column_after.
        -- rewrite column_spec_table by assumption.
           unfold spec_column. now rewrite Hnone.
        -- intros ->. vm_compute in Hc. intuition discriminate.
  - intros t mo so s Hin Hs. now apply (apply_output_structure_missing t mo so s).
  - intros w prog input_file rest df s He Hread Hs Hnone.
    apply (services_main_fails w prog input_file rest df He Hread).
    now apply (services_steps_without_service df s).
Qed.
Lemma C3_missing_entity_witness :
  (exists log out,
      populate e2e_metrics e2e_categories sheet_without_images = (log, Ok out)
      /\ column "Images" out = Some (repeat (Num 0) (length e2e_metrics))
      /\ In (CategoryNotFound "Images") log
      /\ ~ In (CategoryProcessed "Images") log)
  /\
  (exists log,
      In (CategoryNotFound "Kids") log
      /\ ~ In (CategoryProcessed "Kids") log
      /\ ((sources_clash e2e_sheet = false
           /\ exists out,
                transform_to_column_format e2e_sheet = (log, Ok out)
                /\ column "Kids" out = Some (repeat (Num 0) (length Category.metrics)))
          \/ (sources_clash e2e_sheet = true
              /\ transform_to_column_format e2e_sheet = (log, Raise TypeError))))
  /\
  (exists k,
      apply_output_structure small_frame small_metric_order ["s1"; "s3"]
      = ([], Raise (KeyError k)))
  /\
  (exit_code (ServicesMain.main world_without_last_service ["prog"; "in.xlsx"; "out.xlsx"])
   = 1%Z
   /\ written (ServicesMain.main world_without_last_service
                 ["prog"; "in.xlsx"; "out.xlsx"]) = []).
Proof.
  split; [|split; [|split]].
  - apply (proj1 C3_missing_entity).
    + simpl. tauto.
    + discriminate.
    + unfold e2e_categories. nodup.
    + simpl. tauto.
    + reflexivity.
  - apply (proj1 (proj2 C3_missing_entity)).
    + simpl. tauto.
    + simpl. tauto.
    + reflexivity.
  - apply (proj1 (proj2 (proj2 C3_missing_entity)) small_frame small_metric_order
             ["s1"; "s3"] "s3").
    + simpl. tauto.
    + reflexivity.
  - apply (proj2 (proj2 (proj2 C3_missing_entity)) world_without_last_service
             "prog" "in.xlsx" ["out.xlsx"] sheet_without_last_service "Smile & Learn").
    + reflexivity.
    + reflexivity.
    + simpl. tauto.
    + intros row Hr. vm_compute in Hr.
      repeat (destruct Hr as [<-|Hr]; [reflexivity|]). destruct Hr.
Defined.

(** C4 as written fails on the services script: a blank metric cell of
    the sheet is a blank cell of the report. *)
Lemma C4_services_blank_counterexample :
  exists out,
    pipeline blank_sheet = ([], Ok out)
    /\ row_labels out = [Str "[TopLine_Revenue]"]
    /\ dict_get (Str "IntimaX") out = Some [NaN].
Proof.
  eexists. split; [vm_compute; reflexivity|]. split; reflexivity.
Qed.

(** C4, amended.  Category script: for a sheet with the key column no
    cell of the table is blank once the loop and its one [fillna(0)] are
    done, which is before the derived column is computed.  In the table
    [transform_to_column_format] returns no cell of the ten category
    columns is blank, and each "Edu+Img" cell is the sum of two cells
    that are not blank: no blank is carried into it, and it is blank only
    when the two are the infinities of opposite sign, whose float64 sum
    is NaN.  The script returns whenever no text meets a number
    in that sum.  Services script: nothing is normalised; for metric
    columns of the sheet and key cells that are all filled, each column
    holds the cells of the first record of its service as they are, blank
    ones included. *)
Theorem C4_cells_filled :
  (forall (ms cs : list string) (df : DataFrame),
      In category_col (columns df) -> ms <> [] -> NoDup cs ->
      exists log out,
        populate ms cs df = (log, Ok out)
        /\ Forall (fun col => Forall (fun x => isna x = false) (snd col)) (data out))
  /\
  (forall (df : DataFrame) (log : list message) (out : OutFrame),
      transform_to_column_format df = (log, Ok out) ->
      (forall m c, In m Category.metrics -> In c categories ->
         exists v, cell_at out m c = Some v /\ isna v = false)
      /\ (forall m, In m Category.metrics ->
            exists a b d,
              cell_at out m "Education" = Some a
              /\ cell_at out m "Images" = Some b
              /\ isna a = false /\ isna b = false
              /\ cell_add a b = Ok d
              /\ cell_at out m "Edu+Img" = Some d
              /\ (isna d = true ->
                  (a = Num infinity /\ b = Num neg_infinity)
                  \/ (a = Num neg_infinity /\ b = Num infinity))))
  /\
  (forall (df : DataFrame),
      In category_col (columns df) -> sources_clash df = false ->
      exists log out, transform_to_column_format df = (log, Ok out))
  /\
  (forall (df : DataFrame) (mc : list string),
      In service_col (columns df) ->
      incl mc (columns df) ->
      (forall row, In row (rows df) -> isna (key_of df row) = false) ->
      exists t,
        transform_data df mc = ([], Ok t)
        /\ forall row, In row (rows df) ->
             exists first,
               first_service_row df (key_of df row) = Some first
               /\ dict_get (key_of df row) t
                  = Some (map (series_get (columns df) first) mc)).
Proof.
  split; [|split; [|split]].
  - intros ms cs df Hk Hne Hnd.
    exists (map (spec_event df) cs), (spec_table ms cs df).
    split; [now apply populate_spec|].
    unfold spec_table. simpl. apply Forall_map, Forall_forall. intros c _.
    apply spec_column_filled.
  - intros df log out Hrun.
    destruct (transform_ok_inv df log out Hrun) as [Hk [Hclash ->]]. split.
    + intros m c Hm Hc. rewrite spec_final_cell by assumption.
      now apply spec_column_cell.
    + intros m Hm.
      destruct (spec_final_row df m Hm Hclash) as [a [b [d [Ha [Hb [Hna [Hnb [Hd Hs]]]]]]]].
      exists a, b, d. repeat split; try assumption.
      intros Hblank. destruct a as [x|s], b as [y|t]; simpl in Hd.
      * injection Hd as <-. simpl in Hna, Hnb, Hblank.
        destruct (add_nan x y Hna Hnb Hblank) as [[-> ->]|[-> ->]]; tauto.
      * simpl in Hna. rewrite Hna in Hd. discriminate.
      * simpl in Hnb. rewrite Hnb in Hd. discriminate.
      * injection Hd as <-. discriminate.
  - intros df Hk Hclash. rewrite (transform_outcome df Hk), Hclash. eauto.
  - intros df mc Hk Hmc Hfilled.
    destruct (transform_data_spec df mc Hk Hmc Hfilled) as [t [Hrun Hget]].
    exists t. split; [exact Hrun|]. intros row Hr.
    destruct (first_service_row_exists df row Hr (Hfilled row Hr)) as [first Hf].
    exists first. split; [exact Hf|].
    rewrite (Hget row Hr). unfold service_values. now rewrite Hf.
Qed.

Lemma C4_cells_filled_witness :
  (exists log out,
      populate e2e_metrics e2e_categories sheet_without_images = (log, Ok out)
      /\ Forall (fun col => Forall (fun x => isna x = false) (snd col)) (data out))
  /\
  ((forall m c, In m Category.metrics -> In c categories ->
      exists v, cell_at (spec_final infinite_sheet) m c = Some v /\ isna v = false)
   /\ (forall m, In m Category.metrics ->
         exists a b d,
           cell_at (spec_final infinite_sheet) m "Education" = Some a
           /\ cell_at (spec_final infinite_sheet) m "Images" = Some b
           /\ isna a = false /\ isna b = false
           /\ cell_add a b = Ok d
           /\ cell_at (spec_final infinite_sheet) m "Edu+Img" = Some d
           /\ (isna d = true ->
               (a = Num infinity /\ b = Num neg_infinity)
               \/ (a = Num neg_infinity /\ b = Num infinity))))
  /\
  (exists log out, transform_to_column_format e2e_sheet = (log, Ok out))
  /\
  (exists t,
      transform_data blank_sheet ["[TopLine_Revenue]"] = ([], Ok t)
      /\ forall row, In row (rows blank_sheet) ->
           exists first,
             first_service_row blank_sheet (key_of blank_sheet row) = Some first
             /\ dict_get (key_of blank_sheet row) t
                = Some (map (series_get (columns blank_sheet) first)
                            ["[TopLine_Revenue]"])).
Proof.
  split; [|split; [|split]].
  - apply (proj1 C4_cells_filled).
    + simpl. tauto.
    + discriminate.
    + unfold e2e_categories. nodup.
  - apply (proj1 (proj2 C4_cells_filled) infinite_sheet
             (Transforming :: map (spec_event infinite_sheet) categories
                ++ [AddingEduImg; TransformationComplete 18 11])).
    vm_compute. reflexivity.
  - apply (proj1 (proj2 (proj2 C4_cells_filled))).
    + simpl. tauto.
    + reflexivity.
  - apply (proj2 (proj2 (proj2 C4_cells_filled))).
    + simpl. tauto.
    + intros m [<-|[]]. simpl. tauto.
    + intros row Hr. vm_compute in Hr.
      repeat (destruct Hr as [<-|Hr]; [reflexivity|]). destruct Hr.
Defined.

(** C5.  When [add_edu_img] returns a frame that has the column
    "Edu+Img" and the frame it was given had none, the new column stands
    right after "Images" and the other columns keep their order, and at
    every row its cell is the sum, as [+] gives it, of the "Education"
    cell and the "Images" cell; for two numbers that is their float64
    sum.  Whenever [transform_to_column_format] returns a table, its
    columns are the ten categories with "Edu+Img" right after "Images",
    and in every metric row the "Edu+Img" cell is that sum of the two. *)
Theorem C5_derived_column :
  (forall (o out : OutFrame) (log : list message),
      add_edu_img o = (log, Ok out) ->
      ~ In "Edu+Img" (names o) ->
      In "Edu+Img" (names out) ->
      (exists pre post,
          names o = pre ++ "Images" :: post
          /\ names out = pre ++ "Images" :: "Edu+Img" :: post)
      /\ (forall metric a b,
            cell_at out metric "Education" = Some a ->
            cell_at out metric "Images" = Some b ->
            exists d, cell_add a b = Ok d /\ cell_at out metric "Edu+Img" = Some d)
      /\ (forall metric x y,
            cell_at out metric "Education" = Some (Num x) ->
            cell_at out metric "Images" = Some (Num y) ->
            cell_at out metric "Edu+Img" = Some (Num (x + y))))
  /\
  (forall (df : DataFrame) (log : list message) (out : OutFrame),
      transform_to_column_format df = (log, Ok out) ->
      names out
      = [ "Beauty and Health"; "Free Time"; "Games"; "Education"; "Images"; "Edu+Img";
          "Kids"; "Light"; "Music"; "News"; "Sports" ]
      /\ forall metric, In metric Category.metrics ->
           exists a b d,
             cell_at out metric "Education" = Some a
             /\ cell_at out metric "Images" = Some b
             /\ cell_at out metric "Edu+Img" = Some d
             /\ cell_add a b = Ok d
             /\ (forall x y, a = Num x -> b = Num y -> d = Num (x + y))).
Proof.
  split.
  - intros o out log. apply add_edu_img_spec.
  - intros df log out Hrun.
    destruct (transform_ok_inv df log out Hrun) as [Hk [Hclash ->]].
    split; [apply names_spec_final|]. intros metric Hm.
    destruct (spec_final_row df metric Hm Hclash)
      as [a [b [d [Ha [Hb [_ [_ [Hd Hs]]]]]]]].
    exists a, b, d. repeat split; try assumption.
    intros x y -> ->. simpl in Hd. now injection Hd as <-.
Qed.

Lemma C5_derived_column_witness :
  ((exists pre post,
       names p5_frame = pre ++ "Images" :: post
       /\ names (with_column_after 1 "Edu+Img" [Num 5; Num 7; Num 9] p5_frame)
          = pre ++ "Images" :: "Edu+Img" :: post)
   /\ (forall metric a b,
         cell_at (with_column_after 1 "Edu+Img" [Num 5; Num 7; Num 9] p5_frame)
                 metric "Education" = Some a ->
         cell_at (with_column_after 1 "Edu+Img" [Num 5; Num 7; Num 9] p5_frame)
                 metric "Images" = Some b ->
         exists d, cell_add a b = Ok d
           /\ cell_at (with_column_after 1 "Edu+Img" [Num 5; Num 7; Num 9] p5_frame)
                      metric "Edu+Img" = Some d)
   /\ (forall metric x y,
         cell_at (with_column_after 1 "Edu+Img" [Num 5; Num 7; Num 9] p5_frame)
                 metric "Education" = Some (Num x) ->
         cell_at (with_column_after 1 "Edu+Img" [Num 5; Num 7; Num 9] p5_frame)
                 metric "Images" = Some (Num y) ->
         cell_at (with_column_after 1 "Edu+Img" [Num 5; Num 7; Num 9] p5_frame)
                 metric "Edu+Img" = Some (Num (x + y))))
  /\
  (names (spec_final big_sheet)
   = [ "Beauty and Health"; "Free Time"; "Games"; "Education"; "Images"; "Edu+Img";
       "Kids"; "Light"; "Music"; "News"; "Sports" ]
   /\ forall metric, In metric Category.metrics ->
        exists a b d,
          cell_at (spec_final big_sheet) metric "Education" = Some a
          /\ cell_at (spec_final big_sheet) metric "Images" = Some b
          /\ cell_at (spec_final big_sheet) metric "Edu+Img" = Some d
          /\ cell_add a b = Ok d
          /\ (forall x y, a = Num x -> b = Num y -> d = Num (x + y))).
Proof.
  split.
  - apply (proj1 C5_derived_column p5_frame
             (with_column_after 1 "Edu+Img" [Num 5; Num 7; Num 9] p5_frame)
             [AddingEduImg]).
    + reflexivity.
    + simpl. intuition discriminate.
    + simpl. tauto.
  - apply (proj2 C5_derived_column big_sheet
             (Transforming :: map (spec_event big_sheet) categories
                ++ [AddingEduImg; TransformationComplete 18 11])).
    vm_compute. reflexivity.
Defined.
(** C6 as written fails on the services script: a tracked metric the
    sheet has no column for gets no row in the report. *)
Lemma C6_services_missing_metric_counterexample :
  In "[v_Rfnds]" metric_order
  /\ ~ In "[v_Rfnds]" (columns two_metric_sheet)
  /\ exists out,
       pipeline two_metric_sheet = ([], Ok out)
       /\ ~ In (Str "[v_Rfnds]") (row_labels out).
Proof.
  split; [vm_compute; tauto|]. split; [vm_compute; intuition discriminate|].
  eexists. split; [vm_compute; reflexivity|].
  vm_compute. intuition discriminate.
Qed.

(** C6, amended.  Category script: for a category with a record in the
    sheet and a metric of the list that is no column of the sheet, the
    loop returns, the row of the metric is in the table and its cell in
    the column of the category is 0.  Services script: a metric that is
    no row label of the frame gets no row in the table; the run is not
    stopped by it. *)
Theorem C6_missing_metric :
  (forall (ms cs : list string) (df : DataFrame) (c m : string) (row : list cell),
      In category_col (columns df) -> ms <> [] -> NoDup cs ->
      In c cs -> first_match df c = Some row ->
      In m ms -> ~ In m (columns df) ->
      exists log out,
        populate ms cs df = (log, Ok out)
        /\ In m (index out)
        /\ cell_at out m c = Some (Num 0))
  /\
  (forall (t : TFrame) (mo so : list string) (names : list cell) (m : string),
      dict_get (Str service_col) t = Some names ->
      (forall s, In s so -> s <> "_sort_order" /\ dict_get (Str s) t <> None) ->
      ~ In (Str m) names ->
      exists out,
        apply_output_structure t mo so = ([], Ok out)
        /\ ~ In (Str m) (row_labels out)).
Proof.
  split.
  - intros ms cs df c m row Hk Hne Hnd Hc Hrow Hm Hcol.
    exists (map (spec_event df) cs), (spec_table ms cs df).
    split; [now apply populate_spec|]. split; [exact Hm|].
    unfold cell_at. rewrite column_spec_table by assumption.
    unfold spec_column. rewrite Hrow. simpl index.
    rewrite nth_error_map, (nth_error_get_loc m ms Hm). simpl.
    unfold source_value. apply mem_not_In in Hcol. now rewrite Hcol.
  - intros t mo so names m Hn Hall Hm.
    destruct (apply_output_structure_ok t mo so names Hn Hall)
      as [out [Hr [_ [Hrows _]]]].
    exists out. split; [exact Hr|]. rewrite Hrows. intros Hin.
    apply arranged_names_in in Hin. destruct Hin as [Hin|[Hin _]];
      [discriminate | contradiction].
Qed.

Lemma C6_missing_metric_witness :
  (exists log out,
      populate ["[TopLine_Revenue]"; "[v_Rfnds]"] e2e_categories e2e_sheet
      = (log, Ok out)
      /\ In "[v_Rfnds]" (index out)
      /\ cell_at out "[v_Rfnds]" "Games" = Some (Num 0))
  /\
  (exists out,
      apply_output_structure small_frame small_metric_order small_service_order
      = ([], Ok out)
      /\ ~ In (Str "[C]") (row_labels out)).
Proof.
  split.
  - apply (proj1 C6_missing_metric ["[TopLine_Revenue]"; "[v_Rfnds]"] e2e_categories
             e2e_sheet "Games" "[v_Rfnds]" [Str "Games"; Num 100]).
    + simpl. tauto.
    + discriminate.
    + unfold e2e_categories. nodup.
    + simpl. tauto.
    + reflexivity.
    + simpl. tauto.
    + simpl. intuition discriminate.
  - apply (proj2 C6_missing_metric small_frame small_metric_order small_service_order
             [Str "[B]"; Str "[A]"; Str "[Z]"] "[C]").
    + reflexivity.
    + unfold small_service_order. simpl.
      intros s [<-|[<-|[]]]; split; discriminate.
    + simpl. intuition discriminate.
Defined.




(** C8 as written fails: the default output path of "report.xls" ends
    in ".xlsx", not in the ".xls" of the input. *)
Lemma C8_extension_counterexample :
  PathLib.default_output_file "report.xls" = "report_output.xlsx"
  /\ PathLib.suffix (PathLib.parse "report.xls") = ".xls"
  /\ PathLib.suffix (PathLib.default_output_path "report.xls")
     <> PathLib.suffix (PathLib.parse "report.xls").
Proof. split; [reflexivity|]. split; [reflexivity|]. vm_compute. discriminate. Qed.

(** C8, amended.  With no output path on the command line both scripts
    write to the path made of the directory of the input and of the name
    "<stem of the input>_output.xlsx": the extension is always ".xlsx",
    whatever the extension of the input. *)
Theorem C8_default_output_path :
  forall (input_file : string),
    output_file_of input_file [] = PathLib.to_str (PathLib.default_output_path input_file)
    /\ PathLib.parent (PathLib.default_output_path input_file)
       = PathLib.parent (PathLib.parse input_file)
    /\ PathLib.name (PathLib.default_output_path input_file)
       = (PathLib.stem (PathLib.parse input_file) ++ "_output.xlsx")%string
    /\ PathLib.suffix (PathLib.default_output_path input_file) = ".xlsx".
Proof.
  intros input_file. split; [reflexivity|].
  rewrite default_output_path_eq. split; [|split].
  - unfold PathLib.parent. simpl. now rewrite removelast_last.
  - apply name_with_last.
  - apply suffix_of_output_name.
Qed.

(** C9.  A sheet without the key column ends the run with status 1 and
    nothing written.  In the category script the lookup of the first
    category raises [KeyError], so no category has been processed; in the
    services script the check of [read_input_data] raises [ValueError]
    before [transform_data] is called. *)
Theorem C9_missing_key_column :
  (forall (w : World) (prog input_file : string) (rest : list string) (df : DataFrame),
      read_excel w input_file = Ok df ->
      ~ In category_col (columns df) ->
      transform_to_column_format df = ([Transforming], Raise (KeyError category_col))
      /\ exit_code (CategoryMain.main w (prog :: input_file :: rest)) = 1%Z
      /\ written (CategoryMain.main w (prog :: input_file :: rest)) = []
      /\ stdout (CategoryMain.main w (prog :: input_file :: rest)) = [Transforming])
  /\
  (forall (w : World) (prog input_file : string) (rest : list string) (df : DataFrame),
      path_exists w input_file = true ->
      read_excel w input_file = Ok df ->
      ~ In service_col (columns df) ->
      ServicesMain.read_input_data w input_file
      = ([], Raise (ValueError "Missing required column: Master_CPC[Service Name]"))
      /\ exit_code (ServicesMain.main w (prog :: input_file :: rest)) = 1%Z
      /\ written (ServicesMain.main w (prog :: input_file :: rest)) = []
      /\ stdout (ServicesMain.main w (prog :: input_file :: rest))
         = [ErrorOccurred
              (ValueError "Missing required column: Master_CPC[Service Name]")]).
Proof.
  split.
  - intros w prog input_file rest df Hread Hk.
    assert (Ht : transform_to_column_format df
                 = ([Transforming], Raise (KeyError category_col))).
    { unfold transform_to_column_format, categories.
      apply transform_raises_early. now apply populate_no_key. }
    split; [exact Ht|].
    unfold CategoryMain.main. rewrite Hread, Ht. repeat split.
  - intros w prog input_file rest df He Hread Hk.
    assert (Hr : ServicesMain.read_input_data w input_file
                 = ([], Raise (ValueError
                                 "Missing required column: Master_CPC[Service Name]"))).
    { unfold ServicesMain.read_input_data, check_required_column.
      rewrite He, Hread. apply mem_not_In in Hk. simpl. rewrite Hk. reflexivity. }
    split; [exact Hr|].
    unfold ServicesMain.main. rewrite Hr. simpl. repeat split.
Qed.

Lemma C9_missing_key_column_witness :
  (transform_to_column_format keyless_sheet
   = ([Transforming], Raise (KeyError category_col))
   /\ exit_code (CategoryMain.main keyless_world ["prog"; "in.xlsx"]) = 1%Z
   /\ written (CategoryMain.main keyless_world ["prog"; "in.xlsx"]) = []
   /\ stdout (CategoryMain.main keyless_world ["prog"; "in.xlsx"]) = [Transforming])
  /\
  (ServicesMain.read_input_data keyless_world "in.xlsx"
   = ([], Raise (ValueError "Missing required column: Master_CPC[Service Name]"))
   /\ exit_code (ServicesMain.main keyless_world ["prog"; "in.xlsx"]) = 1%Z
   /\ written (ServicesMain.main keyless_world ["prog"; "in.xlsx"]) = []
   /\ stdout (ServicesMain.main keyless_world ["prog"; "in.xlsx"])
      = [ErrorOccurred
           (ValueError "Missing required column: Master_CPC[Service Name]")]).
Proof.
  split.
  - apply (proj1 C9_missing_key_column keyless_world "prog" "in.xlsx" [] keyless_sheet).
    + reflexivity.
    + simpl. intuition discriminate.
  - apply (proj2 C9_missing_key_column keyless_world "prog" "in.xlsx" [] keyless_sheet).
    + reflexivity.
    + reflexivity.
    + simpl. intuition discriminate.
Defined.

(** C10 as written fails: with a text under a tracked metric of the
    "Education" record the addition raises [TypeError], no "Edu+Img"
    column is made and the run ends without a table. *)
Lemma C10_text_cell_counterexample :
  In category_col (columns text_sheet)
  /\ exists log, transform_to_column_format text_sheet = (log, Raise TypeError).
Proof. split; [now left|]. eexists. vm_compute. reflexivity. Qed.

(** C10, amended.  Category script, on a sheet with the key column: the
    presence check of the two source columns never fails, so the skip
    branch is never taken.  The "Edu+Img" column is made exactly when no
    metric row has a text in one of the two source columns and a number
    in the other: then the script returns a table with "Edu+Img" right
    after "Images" and one column more than there are categories;
    otherwise the sum raises [TypeError] and there is no table. *)
Theorem C10_derived_column_always :
  (forall (df : DataFrame),
      In category_col (columns df) ->
      ~ In EduImgSkipped (fst (transform_to_column_format df)))
  /\
  (forall (df : DataFrame),
      In category_col (columns df) -> sources_clash df = false ->
      exists log out,
        transform_to_column_format df = (log, Ok out)
        /\ names out
           = [ "Beauty and Health"; "Free Time"; "Games"; "Education"; "Images";
               "Edu+Img"; "Kids"; "Light"; "Music"; "News"; "Sports" ]
        /\ length (names out) = S (length categories))
  /\
  (forall (df : DataFrame),
      In category_col (columns df) -> sources_clash df = true ->
      exists log, transform_to_column_format df = (log, Raise TypeError)).
Proof.
  split; [|split].
  - intros df Hk. rewrite (transform_outcome df Hk).
    assert (Hev : ~ In EduImgSkipped (map (spec_event df) categories)).
    { rewrite in_map_iff. intros [c [Hc _]]. unfold spec_event in Hc.
      destruct (first_match df c); discriminate. }
    destruct (sources_clash df); cbn [fst]; intros [H|H]; try discriminate;
      apply in_app_or in H.
    + destruct H as [H|[H|[]]]; [contradiction | discriminate].
    + destruct H as [H|[H|[H|[]]]]; [contradiction | discriminate | discriminate].
  - intros df Hk Hclash. rewrite (transform_outcome df Hk), Hclash.
    eexists. eexists. split; [reflexivity|]. split; reflexivity.
  - intros df Hk Hclash. rewrite (transform_outcome df Hk), Hclash. eauto.
Qed.

Lemma C10_derived_column_always_witness :
  ~ In EduImgSkipped (fst (transform_to_column_format e2e_sheet))
  /\
  (exists log out,
      transform_to_column_format e2e_sheet = (log, Ok out)
      /\ names out
         = [ "Beauty and Health"; "Free Time"; "Games"; "Education"; "Images";
             "Edu+Img"; "Kids"; "Light"; "Music"; "News"; "Sports" ]
      /\ length (names out) = S (length categories))
  /\
  (exists log, transform_to_column_format text_sheet = (log, Raise TypeError)).
Proof.
  split; [|split].
  - apply (proj1 C10_derived_column_always). simpl. tauto.
  - apply (proj1 (proj2 C10_derived_column_always)).
    + simpl. tauto.
    + reflexivity.
  - apply (proj2 (proj2 C10_derived_column_always)).
    + simpl. tauto.
    + reflexivity.
Defined.
